(** * The per-conversation response scheduler of the WhatsApp bot backend

    A shallow embedding of
    - [backend/src/modules/ai/services/ai-settings.service.ts]
      ([AiSettingsService]) and
    - [backend/src/modules/ai/services/message-orchestrator.service.ts]
      ([MessageOrchestratorService]),
    with the Node event loop made explicit: a call of
    [processIncomingMessage], the expiry of a timer and the settling of an
    awaited promise are the atomic turns of the loop, and a run of the
    program is a list of such turns. *)

From stdpp Require Import gmap strings list fin_maps.
From Stdlib Require Import Lia.

Local Open Scope string_scope.
Local Open Scope list_scope.

(** ** AiSettingsService *)

Module AiSettingsService.

Record t := {
  orchestratorEnabled : bool;
  chatOverrides : gmap string bool;
}.

(** Field initialisers of the class. *)
Definition initial : t :=
  {| orchestratorEnabled := true; chatOverrides := ∅ |}.

Definition setGlobalOrchestrator (enabled : bool) (s : t) : t :=
  {| orchestratorEnabled := enabled; chatOverrides := chatOverrides s |}.

Definition setChatOrchestrator (phoneNumber : string) (enabled : bool) (s : t) : t :=
  {| orchestratorEnabled := orchestratorEnabled s;
     chatOverrides := <[phoneNumber := enabled]> (chatOverrides s) |}.

Definition clearChatOverride (phoneNumber : string) (s : t) : t :=
  {| orchestratorEnabled := orchestratorEnabled s;
     chatOverrides := delete phoneNumber (chatOverrides s) |}.

(** [isOrchestratorEnabled(phoneNumber?: string)]: the argument is optional,
    and [!phoneNumber] holds for [undefined] and for the empty string. *)
Definition isOrchestratorEnabled (s : t) (phoneNumber : option string) : bool :=
  if negb (orchestratorEnabled s) then false
  else
    match phoneNumber with
    | None => true
    | Some p =>
        if bool_decide (p = "") then true
        else
          match chatOverrides s !! p with
          | Some override => override
          | None => true
          end
    end.

(** The reading of the specification: an override, when present, wins
    whatever the global switch says; otherwise the global switch decides. *)
Definition enabled_as_specified (s : t) (key : string) : bool :=
  match chatOverrides s !! key with
  | Some override => override
  | None => orchestratorEnabled s
  end.

End AiSettingsService.

(** ** Data of MessageOrchestratorService *)

(** [MessageOrchestratorConfig]: three optional booleans. *)
Record MessageOrchestratorConfig := {
  sendSeenStatus : option bool;
  showTypingIndicator : option bool;
  skipAiResponse : option bool;
}.

(** The default argument [config = {}]. *)
Definition emptyConfig : MessageOrchestratorConfig :=
  {| sendSeenStatus := None; showTypingIndicator := None; skipAiResponse := None |}.

(** [flag !== false] *)
Definition notFalse (flag : option bool) : bool :=
  match flag with Some false => false | _ => true end.

(** [if (flag)] on an optional boolean *)
Definition truthy (flag : option bool) : bool :=
  match flag with Some true => true | _ => false end.

(** The fields of [ChatMessage] the orchestrator reads. *)
Record ChatMessage := {
  fromMe : bool;
  body : string;
}.

Definition nl : string := String (Ascii.ascii_of_nat 10) EmptyString.

Definition defaultGreeting : string := "Halo! Ada yang bisa saya bantu?".

Definition errorMessage : string :=
  "Maaf, terjadi kesalahan. Mohon coba lagi atau hubungi admin kami.".

(** [[...history].reverse().find((m) => !m.fromMe)?.body || '(tidak ada teks pengguna)'] *)
Definition lastUserMsg (history : list ChatMessage) : string :=
  match find (fun m => negb (fromMe m)) (rev history) with
  | Some m => if bool_decide (body m = "") then "(tidak ada teks pengguna)" else body m
  | None => "(tidak ada teks pengguna)"
  end.

(** The text built in [notifyHumanAgent]. *)
Definition escalationAlert (customerPhone session : string) (history : list ChatMessage) : string :=
  "🚨 *Escalation to Human CS*" +:+ nl +:+ nl +:+
  "*Customer*: " +:+ customerPhone +:+ nl +:+
  "*Session*: " +:+ session +:+ nl +:+ nl +:+
  "*Last user message:*" +:+ nl +:+ lastUserMsg history +:+ nl +:+ nl +:+
  "_AI menandai kasus ini perlu ditindaklanjuti oleh petugas manusia._".

(** The three private maps of the service.  A [NodeJS.Timeout] is the index
    of its timer in the runtime's timer table (see [World] below). *)
Record Orchestrator := {
  pendingMessageTimeouts : gmap string nat;
  activeProcessIds : gmap string string;
  escalatedConversations : gmap string bool;
}.

Definition newOrchestrator : Orchestrator :=
  {| pendingMessageTimeouts := ∅; activeProcessIds := ∅; escalatedConversations := ∅ |}.

Definition makeEscalationKey (phoneNumber session : string) : string :=
  session +:+ ":" +:+ phoneNumber.

(** [this.escalatedConversations.get(key) === true] *)
Definition isConversationEscalated (phoneNumber session : string) (o : Orchestrator) : bool :=
  match escalatedConversations o !! makeEscalationKey phoneNumber session with
  | Some true => true
  | _ => false
  end.

Definition setConversationEscalated
    (phoneNumber session : string) (value : bool) (o : Orchestrator) : Orchestrator :=
  let key := makeEscalationKey phoneNumber session in
  {| pendingMessageTimeouts := pendingMessageTimeouts o;
     activeProcessIds := activeProcessIds o;
     escalatedConversations :=
       if value then <[key := true]> (escalatedConversations o)
       else delete key (escalatedConversations o) |}.

Definition clearEscalation (phoneNumber session : string) (o : Orchestrator) : Orchestrator :=
  setConversationEscalated phoneNumber session false o.

(** ** The collaborators, as seen from the timer callback *)

(** Which private method issued a [wahaApiService.sendText]. *)
Inductive Sender := SendResponse | NotifyHumanAgent | SendErrorResponse.

(** What the callback awaits. *)
Inductive Call :=
| WahaSendSeen (chatId session : string)
| WahaStartTyping (chatId session : string)
| WahaStopTyping (chatId session : string)
| WahaSendText (via : Sender) (chatId text session : string)
| TypingDelay                      (* [new Promise(resolve => setTimeout(resolve, typingDuration))] *)
| GetMessageHistory (phoneNumber : string)
| GenerateResponseWithEscalation (history : list ChatMessage).

(** How an awaited promise settles. *)
Inductive Answer :=
| Fulfilled                                        (* with a value nobody reads *)
| Rejected
| History (messages : list ChatMessage)
| Generated (text : string) (escalate : bool).

(** What one generation (one timer callback) is seen to do. *)
Inductive Event :=
| Invoked (c : Call)
| Settled (c : Call) (r : Answer)
| NotifyHumanAgentCalled (customerPhone session : string).

(** An [await] either goes on or throws into the enclosing [catch]. *)
Inductive Completion := Normal | Throw.

Definition settles (r : Answer) : Completion :=
  match r with Rejected => Throw | _ => Normal end.

(** [sendSeenStatus], [startTyping], [stopTyping]: [try { await ... } catch { warn }]. *)
Definition sendSeenStatus_completes (r : Answer) : Completion :=
  match settles r with Normal => Normal | Throw => Normal end.
Definition startTyping_completes (r : Answer) : Completion :=
  match settles r with Normal => Normal | Throw => Normal end.
Definition stopTyping_completes (r : Answer) : Completion :=
  match settles r with Normal => Normal | Throw => Normal end.

(** [sendResponse]: [catch (error) { log; throw error }]. *)
Definition sendResponse_completes (r : Answer) : Completion :=
  match settles r with Normal => Normal | Throw => Throw end.

(** The [sendText] inside [notifyHumanAgent] and [sendErrorResponse] sits in a
    [try] whose [catch] only logs. *)
Definition notifyHumanAgent_completes (r : Answer) : Completion :=
  match settles r with Normal => Normal | Throw => Normal end.
Definition sendErrorResponse_completes (r : Answer) : Completion :=
  match settles r with Normal => Normal | Throw => Normal end.

(** [ChatService.getMessageHistory]: the stored array, and [[]] when the
    query fails or yields no array. *)
Definition getMessageHistory_returns (r : Answer) : list ChatMessage :=
  match r with History messages => messages | _ => [] end.

(** [const { text, escalate } = await generateResponseWithEscalation(history)]
    followed by [aiResponse.length]: a rejection throws, and so does a value
    of another shape. *)
Definition generate_returns (r : Answer) : option (string * bool) :=
  match r with Generated text escalate => Some (text, escalate) | _ => None end.

(** ** The timer callback, cut at its [await]s *)

(** What the closure passed to [setTimeout] captures. *)
Record Closure := {
  phoneNumber : string;
  session : string;
  config : MessageOrchestratorConfig;
  processId : string;
}.

(** The code that runs when an awaited promise settles, named after the
    [await] it resumes, together with the locals still live there. *)
Inductive Kont :=
| KSeen                      (* [await this.sendSeenStatus(..)] *)
| KStartTyping               (* [await this.startTyping(..)] *)
| KTypingDelay               (* the typing pause *)
| KAbortStop                 (* [stopTyping] of the abort during typing *)
| KHistory                   (* [await this.chatService.getMessageHistory(..)] *)
| KGreetingStop              (* [stopTyping] before the default greeting *)
| KGreetingSend              (* [sendResponse] of the default greeting *)
| KGenerate (history : list ChatMessage)
| KReplyStop (history : list ChatMessage) (aiResponse : string) (escalate : bool)
| KNotify                    (* [sendText] inside [notifyHumanAgent] *)
| KReplySend                 (* [sendResponse] of the generated reply *)
| KCatchStop                 (* [stopTyping] of the [catch] block *)
| KCatchSend.                (* [sendErrorResponse] of the [catch] block *)

(** A timer and the callback it runs. *)
Inductive Status :=
| Pending                    (* armed, not yet expired *)
| Cleared                    (* [clearTimeout] came first *)
| Awaiting (c : Call) (k : Kont)
| Completed                  (* the callback returned *)
| Uncaught.                  (* the callback's promise rejected *)

Record Generation := {
  closure : Closure;
  status : Status;
}.

(** One turn of a callback: the service state it leaves, what it did, and
    where it stops. *)
Record Turn := {
  after : Orchestrator;
  emitted : list Event;
  next : Status;
}.

Definition await (c : Call) (k : Kont) (o : Orchestrator) : Turn :=
  {| after := o; emitted := [Invoked c]; next := Awaiting c k |}.

Definition returns (o : Orchestrator) : Turn :=
  {| after := o; emitted := []; next := Completed |}.

Definition rejects (o : Orchestrator) : Turn :=
  {| after := o; emitted := []; next := Uncaught |}.

Definition first_doing (e : Event) (t : Turn) : Turn :=
  {| after := after t; emitted := e :: emitted t; next := next t |}.

Section Callback.

(** [process.env.HUMAN_CS_WHATSAPP_ID || ''] *)
Variable csChatId : string.
Variable cl : Closure.

Definition seenOn : bool := notFalse (sendSeenStatus (config cl)).
Definition typingOn : bool := notFalse (showTypingIndicator (config cl)).

(** [this.activeProcessIds.get(phoneNumber) !== processId], negated *)
Definition isCurrent (o : Orchestrator) : bool :=
  bool_decide (activeProcessIds o !! phoneNumber cl = Some (processId cl)).

Definition callSendSeen : Call := WahaSendSeen (phoneNumber cl) (session cl).
Definition callStartTyping : Call := WahaStartTyping (phoneNumber cl) (session cl).
Definition callStopTyping : Call := WahaStopTyping (phoneNumber cl) (session cl).
Definition callGetHistory : Call := GetMessageHistory (phoneNumber cl).
Definition callGreeting : Call :=
  WahaSendText SendResponse (phoneNumber cl) defaultGreeting (session cl).
Definition callReply (aiResponse : string) : Call :=
  WahaSendText SendResponse (phoneNumber cl) aiResponse (session cl).
Definition callAlert (history : list ChatMessage) : Call :=
  WahaSendText NotifyHumanAgent csChatId
    (escalationAlert (phoneNumber cl) (session cl) history) (session cl).
Definition callApology : Call :=
  WahaSendText SendErrorResponse (phoneNumber cl) errorMessage (session cl).

(** [catch (error) { .. }] of the callback, from [sendErrorResponse] on. *)
Definition from_sendErrorResponse (o : Orchestrator) : Turn :=
  await callApology KCatchSend o.

(** [catch (error) { .. }] of the callback. *)
Definition from_catch (o : Orchestrator) : Turn :=
  if typingOn then await callStopTyping KCatchStop o
  else from_sendErrorResponse o.

(** [notifyHumanAgent(phoneNumber, session, history)], then [return]. *)
Definition from_notifyHumanAgent (history : list ChatMessage) (o : Orchestrator) : Turn :=
  first_doing (NotifyHumanAgentCalled (phoneNumber cl) (session cl))
    (if bool_decide (csChatId = "") then returns o
     else await (callAlert history) KNotify o).

(** From [if (escalate)] to the end of the [try] block. *)
Definition from_escalate
    (history : list ChatMessage) (aiResponse : string) (escalate : bool)
    (o : Orchestrator) : Turn :=
  if escalate then
    from_notifyHumanAgent history
      (setConversationEscalated (phoneNumber cl) (session cl) true o)
  else await (callReply aiResponse) KReplySend o.

(** The default greeting, once typing is stopped. *)
Definition from_greetingSend (o : Orchestrator) : Turn :=
  await callGreeting KGreetingSend o.

(** [if (history.length === 0) { .. }] *)
Definition from_greeting (o : Orchestrator) : Turn :=
  if typingOn then await callStopTyping KGreetingStop o
  else from_greetingSend o.

(** [const history = await this.chatService.getMessageHistory(phoneNumber)] *)
Definition from_getHistory (o : Orchestrator) : Turn :=
  await callGetHistory KHistory o.

(** [if (config.showTypingIndicator !== false) { .. }] *)
Definition from_typing (o : Orchestrator) : Turn :=
  if typingOn then await callStartTyping KStartTyping o
  else from_getHistory o.

(** [if (config.sendSeenStatus !== false) { .. }] *)
Definition from_seen (o : Orchestrator) : Turn :=
  if seenOn then await callSendSeen KSeen o
  else from_typing o.

(** The callback from its first line to its first [await]. *)
Definition expire (o : Orchestrator) : Turn :=
  if negb (isCurrent o) then returns o
  else
    from_seen
      {| pendingMessageTimeouts := delete (phoneNumber cl) (pendingMessageTimeouts o);
         activeProcessIds := activeProcessIds o;
         escalatedConversations := escalatedConversations o |}.

(** The callback from the settling of the promise it awaits to its next
    [await].  An exception inside the [try] block enters [from_catch]; one
    inside the [catch] block leaves the callback. *)
Definition resume (k : Kont) (r : Answer) (o : Orchestrator) : Turn :=
  match k with
  | KSeen =>
      match sendSeenStatus_completes r with
      | Normal => from_typing o
      | Throw => from_catch o
      end
  | KStartTyping =>
      match startTyping_completes r with
      | Normal => await TypingDelay KTypingDelay o
      | Throw => from_catch o
      end
  | KTypingDelay =>
      if negb (isCurrent o) then await callStopTyping KAbortStop o
      else from_getHistory o
  | KAbortStop =>
      match stopTyping_completes r with
      | Normal => returns o
      | Throw => from_catch o
      end
  | KHistory =>
      match getMessageHistory_returns r with
      | [] => from_greeting o
      | m :: ms => await (GenerateResponseWithEscalation (m :: ms)) (KGenerate (m :: ms)) o
      end
  | KGreetingStop =>
      match stopTyping_completes r with
      | Normal => from_greetingSend o
      | Throw => from_catch o
      end
  | KGreetingSend =>
      match sendResponse_completes r with
      | Normal => returns o
      | Throw => from_catch o
      end
  | KGenerate history =>
      match generate_returns r with
      | Some (aiResponse, escalate) =>
          if typingOn then await callStopTyping (KReplyStop history aiResponse escalate) o
          else from_escalate history aiResponse escalate o
      | None => from_catch o
      end
  | KReplyStop history aiResponse escalate =>
      match stopTyping_completes r with
      | Normal => from_escalate history aiResponse escalate o
      | Throw => from_catch o
      end
  | KNotify =>
      match notifyHumanAgent_completes r with
      | Normal => returns o
      | Throw => from_catch o
      end
  | KReplySend =>
      match sendResponse_completes r with
      | Normal => returns o
      | Throw => from_catch o
      end
  | KCatchStop =>
      (* [await this.stopTyping(..).catch(() => {})] *)
      from_sendErrorResponse o
  | KCatchSend =>
      match sendErrorResponse_completes r with
      | Normal => returns o
      | Throw => rejects o
      end
  end.

End Callback.

(** ** The process: service, settings, environment and timer table *)

Record World := {
  service : Orchestrator;
  aiSettings : AiSettingsService.t;
  humanCsWhatsappId : string;          (* [process.env.HUMAN_CS_WHATSAPP_ID || ''] *)
  timers : list Generation;            (* a handle is an index of this table *)
  trace : list (nat * Event);          (* who did what, oldest first *)
}.

Definition boot (cs : string) : World :=
  {| service := newOrchestrator;
     aiSettings := AiSettingsService.initial;
     humanCsWhatsappId := cs;
     timers := [];
     trace := [] |}.

(** [clearTimeout(handle)]: disarms a timer that has not expired, and does
    nothing otherwise. *)
Definition clearTimeout (handle : nat) (ts : list Generation) : list Generation :=
  match ts !! handle with
  | Some g =>
      match status g with
      | Pending => <[handle := {| closure := closure g; status := Cleared |}]> ts
      | _ => ts
      end
  | None => ts
  end.

(** [processIncomingMessage(phoneNumber, session, config)] up to its return;
    [processId] stands for [Date.now().toString() + Math.random().toString()]
    as drawn by this call.  The delay [waitTime] is not kept: when a timer
    expires is the environment's choice. *)
Definition processIncomingMessage
    (phone sess : string) (cfg : MessageOrchestratorConfig) (pid : string)
    (w : World) : World :=
  if negb (AiSettingsService.isOrchestratorEnabled (aiSettings w) (Some phone)) then w
  else if isConversationEscalated phone sess (service w) then w
  else if truthy (skipAiResponse cfg) then w
  else
    let ts :=
      match pendingMessageTimeouts (service w) !! phone with
      | Some existingTimeout => clearTimeout existingTimeout (timers w)
      | None => timers w
      end in
    let timeout := length ts in
    {| service :=
         {| pendingMessageTimeouts := <[phone := timeout]> (pendingMessageTimeouts (service w));
            activeProcessIds := <[phone := pid]> (activeProcessIds (service w));
            escalatedConversations := escalatedConversations (service w) |};
       aiSettings := aiSettings w;
       humanCsWhatsappId := humanCsWhatsappId w;
       timers :=
         ts ++ [ {| closure := {| phoneNumber := phone; session := sess;
                                  config := cfg; processId := pid |};
                    status := Pending |} ];
       trace := trace w |}.

(** A callback of timer [handle] has run one turn. *)
Definition took (handle : nat) (g : Generation) (t : Turn) (w : World) : World :=
  {| service := after t;
     aiSettings := aiSettings w;
     humanCsWhatsappId := humanCsWhatsappId w;
     timers := <[handle := {| closure := closure g; status := next t |}]> (timers w);
     trace := trace w ++ map (pair handle) (emitted t) |}.

Definition timerExpires (handle : nat) (w : World) : World :=
  match timers w !! handle with
  | Some g =>
      match status g with
      | Pending => took handle g (expire (closure g) (service w)) w
      | _ => w
      end
  | None => w
  end.

Definition promiseSettles (handle : nat) (r : Answer) (w : World) : World :=
  match timers w !! handle with
  | Some g =>
      match status g with
      | Awaiting c k =>
          took handle g
            (first_doing (Settled c r)
               (resume (humanCsWhatsappId w) (closure g) k r (service w))) w
      | _ => w
      end
  | None => w
  end.

Definition withService (f : Orchestrator -> Orchestrator) (w : World) : World :=
  {| service := f (service w);
     aiSettings := aiSettings w;
     humanCsWhatsappId := humanCsWhatsappId w;
     timers := timers w;
     trace := trace w |}.

Definition withSettings (f : AiSettingsService.t -> AiSettingsService.t) (w : World) : World :=
  {| service := service w;
     aiSettings := f (aiSettings w);
     humanCsWhatsappId := humanCsWhatsappId w;
     timers := timers w;
     trace := trace w |}.

(** The turns of the event loop.  A turn that cannot happen (a timer that is
    not armed expiring, a promise nobody awaits settling) changes nothing. *)
Inductive Action :=
| IncomingMessage (phone sess : string) (cfg : MessageOrchestratorConfig) (pid : string)
| TimerExpires (handle : nat)
| PromiseSettles (handle : nat) (r : Answer)
| ClearEscalation (phone sess : string)
| SetGlobalOrchestrator (enabled : bool)
| SetChatOrchestrator (phone : string) (enabled : bool)
| ClearChatOverride (phone : string).

Definition step (w : World) (a : Action) : World :=
  match a with
  | IncomingMessage phone sess cfg pid => processIncomingMessage phone sess cfg pid w
  | TimerExpires handle => timerExpires handle w
  | PromiseSettles handle r => promiseSettles handle r w
  | ClearEscalation phone sess => withService (clearEscalation phone sess) w
  | SetGlobalOrchestrator enabled =>
      withSettings (AiSettingsService.setGlobalOrchestrator enabled) w
  | SetChatOrchestrator phone enabled =>
      withSettings (AiSettingsService.setChatOrchestrator phone enabled) w
  | ClearChatOverride phone =>
      withSettings (AiSettingsService.clearChatOverride phone) w
  end.

Definition run (w : World) (actions : list Action) : World :=
  fold_left step actions w.

(** ** Reading a trace *)

(** What generation [handle] did. *)
Definition doings (handle : nat) (tr : list (nat * Event)) : list Event :=
  map snd (List.filter (fun x => Nat.eqb (fst x) handle) tr).

Definition count (p : Event -> bool) (es : list Event) : nat :=
  length (List.filter p es).

Definition isTypingStart (e : Event) : bool :=
  match e with Invoked (WahaStartTyping _ _) => true | _ => false end.
Definition isTypingStop (e : Event) : bool :=
  match e with Invoked (WahaStopTyping _ _) => true | _ => false end.
(** A [sendText] issued by [sendResponse] or [sendErrorResponse]: both are only
    ever called with the customer's chat id. *)
Definition isCustomerSend (e : Event) : bool :=
  match e with
  | Invoked (WahaSendText SendResponse _ _ _) => true
  | Invoked (WahaSendText SendErrorResponse _ _ _) => true
  | _ => false
  end.
Definition isSendText (e : Event) : bool :=
  match e with Invoked (WahaSendText _ _ _ _) => true | _ => false end.
Definition isApology (e : Event) : bool :=
  match e with Invoked (WahaSendText SendErrorResponse _ _ _) => true | _ => false end.
Definition isNotifyHuman (e : Event) : bool :=
  match e with NotifyHumanAgentCalled _ _ => true | _ => false end.
Definition isGenerate (e : Event) : bool :=
  match e with Invoked (GenerateResponseWithEscalation _) => true | _ => false end.

(** ** The catalogue of what a callback can have done

    For every place where a callback can stand, the calls it has made and
    the answers it has got so far.  [callback_shape] below shows that the
    callback never leaves the catalogue. *)

Section Catalogue.

Variable csChatId : string.
Variable cl : Closure.

Definition seenEvents (r : Answer) : list Event :=
  if seenOn cl then [Invoked (callSendSeen cl); Settled (callSendSeen cl) r] else [].

Definition typingEvents (r r' : Answer) : list Event :=
  if typingOn cl then
    [Invoked (callStartTyping cl); Settled (callStartTyping cl) r;
     Invoked TypingDelay; Settled TypingDelay r']
  else [].

Definition stopEvents (r : Answer) : list Event :=
  if typingOn cl then [Invoked (callStopTyping cl); Settled (callStopTyping cl) r] else [].

(** Seen and typing have been shown, and the typing pause is over. *)
Inductive Presented : list Event -> Prop :=
| presented r1 r2 r3 : Presented (seenEvents r1 ++ typingEvents r2 r3).

(** ... and [getMessageHistory] has returned [history]. *)
Inductive Fetched (history : list ChatMessage) : list Event -> Prop :=
| fetched es r :
    Presented es ->
    getMessageHistory_returns r = history ->
    Fetched history (es ++ [Invoked (callGetHistory cl); Settled (callGetHistory cl) r]).

(** ... and the generator has returned [{ text, escalate }]. *)
Inductive Answered (history : list ChatMessage) (text : string) (escalate : bool)
  : list Event -> Prop :=
| answered es r :
    Fetched history es ->
    history <> [] ->
    generate_returns r = Some (text, escalate) ->
    Answered history text escalate
      (es ++ [Invoked (GenerateResponseWithEscalation history);
              Settled (GenerateResponseWithEscalation history) r]).

(** The [try] block has thrown: the three ways into the [catch] block. *)
Inductive Thrown : list Event -> Prop :=
| thrown_greeting es r r' :
    Fetched [] es ->
    settles r' = Throw ->
    Thrown (es ++ stopEvents r ++
            [Invoked (callGreeting cl); Settled (callGreeting cl) r'])
| thrown_generate history es r :
    Fetched history es ->
    history <> [] ->
    generate_returns r = None ->
    Thrown (es ++ [Invoked (GenerateResponseWithEscalation history);
                   Settled (GenerateResponseWithEscalation history) r])
| thrown_reply history text es r r' :
    Answered history text false es ->
    settles r' = Throw ->
    Thrown (es ++ stopEvents r ++
            [Invoked (callReply cl text); Settled (callReply cl text) r']).

Inductive Shape : Status -> list Event -> Prop :=
| shape_pending : Shape Pending []
| shape_cleared : Shape Cleared []
| shape_stale : Shape Completed []
| shape_seen :
    seenOn cl = true ->
    Shape (Awaiting (callSendSeen cl) KSeen) [Invoked (callSendSeen cl)]
| shape_startTyping r1 :
    typingOn cl = true ->
    Shape (Awaiting (callStartTyping cl) KStartTyping)
      (seenEvents r1 ++ [Invoked (callStartTyping cl)])
| shape_typingDelay r1 r2 :
    typingOn cl = true ->
    Shape (Awaiting TypingDelay KTypingDelay)
      (seenEvents r1 ++
       [Invoked (callStartTyping cl); Settled (callStartTyping cl) r2; Invoked TypingDelay])
| shape_abortStop es :
    typingOn cl = true -> Presented es ->
    Shape (Awaiting (callStopTyping cl) KAbortStop) (es ++ [Invoked (callStopTyping cl)])
| shape_aborted es r :
    typingOn cl = true -> Presented es ->
    Shape Completed (es ++ [Invoked (callStopTyping cl); Settled (callStopTyping cl) r])
| shape_history es :
    Presented es ->
    Shape (Awaiting (callGetHistory cl) KHistory) (es ++ [Invoked (callGetHistory cl)])
| shape_greetingStop es :
    typingOn cl = true -> Fetched [] es ->
    Shape (Awaiting (callStopTyping cl) KGreetingStop) (es ++ [Invoked (callStopTyping cl)])
| shape_greetingSend es r :
    Fetched [] es ->
    Shape (Awaiting (callGreeting cl) KGreetingSend)
      (es ++ stopEvents r ++ [Invoked (callGreeting cl)])
| shape_greeted es r r' :
    Fetched [] es -> settles r' = Normal ->
    Shape Completed
      (es ++ stopEvents r ++ [Invoked (callGreeting cl); Settled (callGreeting cl) r'])
| shape_generate history es :
    Fetched history es -> history <> [] ->
    Shape (Awaiting (GenerateResponseWithEscalation history) (KGenerate history))
      (es ++ [Invoked (GenerateResponseWithEscalation history)])
| shape_replyStop history text escalate es :
    typingOn cl = true -> Answered history text escalate es ->
    Shape (Awaiting (callStopTyping cl) (KReplyStop history text escalate))
      (es ++ [Invoked (callStopTyping cl)])
| shape_notify history text es r :
    csChatId <> "" -> Answered history text true es ->
    Shape (Awaiting (callAlert csChatId cl history) KNotify)
      (es ++ stopEvents r ++
       [NotifyHumanAgentCalled (phoneNumber cl) (session cl);
        Invoked (callAlert csChatId cl history)])
| shape_notified history text es r r' :
    csChatId <> "" -> Answered history text true es ->
    Shape Completed
      (es ++ stopEvents r ++
       [NotifyHumanAgentCalled (phoneNumber cl) (session cl);
        Invoked (callAlert csChatId cl history);
        Settled (callAlert csChatId cl history) r'])
| shape_notifySkipped history text es r :
    csChatId = "" -> Answered history text true es ->
    Shape Completed
      (es ++ stopEvents r ++ [NotifyHumanAgentCalled (phoneNumber cl) (session cl)])
| shape_replySend history text es r :
    Answered history text false es ->
    Shape (Awaiting (callReply cl text) KReplySend)
      (es ++ stopEvents r ++ [Invoked (callReply cl text)])
| shape_replied history text es r r' :
    Answered history text false es -> settles r' = Normal ->
    Shape Completed
      (es ++ stopEvents r ++ [Invoked (callReply cl text); Settled (callReply cl text) r'])
| shape_catchStop es :
    typingOn cl = true -> Thrown es ->
    Shape (Awaiting (callStopTyping cl) KCatchStop) (es ++ [Invoked (callStopTyping cl)])
| shape_catchSend es r :
    Thrown es ->
    Shape (Awaiting (callApology cl) KCatchSend)
      (es ++ stopEvents r ++ [Invoked (callApology cl)])
| shape_apologised es r r' :
    Thrown es ->
    Shape Completed
      (es ++ stopEvents r ++ [Invoked (callApology cl); Settled (callApology cl) r']).

End Catalogue.

(** Every timer of the table stands somewhere in the catalogue, and nothing
    is attributed to a handle that is not in the table yet. *)
Definition Catalogued (w : World) : Prop :=
  (forall handle g,
      timers w !! handle = Some g ->
      Shape (humanCsWhatsappId w) (closure g) (status g) (doings handle (trace w)))
  /\ (forall handle, length (timers w) <= handle -> doings handle (trace w) = []).

(** An armed timer is the one that the entry of [pendingMessageTimeouts]
    for its phone number names. *)
Definition ArmedIsPending (w : World) : Prop :=
  forall handle g,
    timers w !! handle = Some g ->
    status g = Pending ->
    pendingMessageTimeouts (service w) !! phoneNumber (closure g) = Some handle.

(** A [sendText] of [sendResponse] that was rejected. *)
Definition isFailedResponse (e : Event) : bool :=
  match e with Settled (WahaSendText SendResponse _ _ _) Rejected => true | _ => false end.

(** The indicator after [es], starting from [shown]. *)
Definition shownAfter (shown : bool) (es : list Event) : bool :=
  fold_left
    (fun shown e =>
       if isTypingStart e then true
       else if isTypingStop e then false
       else shown)
    es shown.

(** The indicator as the customer sees it after the calls of [es]. *)
Definition typingShown (es : list Event) : bool := shownAfter false es.

(** Is some apology of [es] sent while the indicator is shown? *)
Fixpoint apologyWhileTyping (shown : bool) (es : list Event) : bool :=
  match es with
  | [] => false
  | e :: es' =>
      (isApology e && shown)
      || apologyWhileTyping
           (if isTypingStart e then true else if isTypingStop e then false else shown) es'
  end.

(** ** Concrete runs *)

Definition customer : string := "6281234567890@c.us".
Definition operator : string := "6289876543210@c.us".
Definition hello : ChatMessage := {| fromMe := false; body := "halo" |}.

(** One message; seen, typing and the pause go through. *)
Definition opening (pid : string) (handle : nat) : list Action :=
  [ IncomingMessage customer "default" emptyConfig pid;
    TimerExpires handle;
    PromiseSettles handle Fulfilled;          (* sendSeen *)
    PromiseSettles handle Fulfilled;          (* startTyping *)
    PromiseSettles handle Fulfilled ].        (* the typing pause *)

(** The reply is generated, typing is stopped, and [sendText] is rejected. *)
Definition run_failedReply : list Action :=
  opening "1700000000000.1" 0 ++
  [ PromiseSettles 0 (History [hello]);
    PromiseSettles 0 (Generated "ok" false);
    PromiseSettles 0 Fulfilled;               (* stopTyping *)
    PromiseSettles 0 Rejected;                (* sendText of the reply *)
    PromiseSettles 0 Fulfilled;               (* stopTyping of the catch block *)
    PromiseSettles 0 Fulfilled ].             (* sendText of the apology *)

(** Nothing is stored for the customer yet. *)
Definition run_greeting : list Action :=
  opening "1700000000000.1" 0 ++
  [ PromiseSettles 0 (History []);
    PromiseSettles 0 Fulfilled;               (* stopTyping *)
    PromiseSettles 0 Fulfilled ].             (* sendText of the greeting *)

(** The generator asks for a human. *)
Definition run_escalation : list Action :=
  opening "1700000000000.1" 0 ++
  [ PromiseSettles 0 (History [hello]);
    PromiseSettles 0 (Generated "sebaiknya hubungi kantor bpjs" true);
    PromiseSettles 0 Fulfilled;               (* stopTyping *)
    PromiseSettles 0 Fulfilled ].             (* sendText of the alert *)

(** The specification's property of typing, as it is written. *)
Definition StoppedExactlyOnce (es : list Event) : Prop :=
  1 <= count isTypingStart es -> count isTypingStop es = 1.

(** ** Submissions and bursts *)

(** [processIncomingMessage] gets past its three early returns. *)
Definition accepted (phone sess : string) (cfg : MessageOrchestratorConfig) (w : World) : bool :=
  AiSettingsService.isOrchestratorEnabled (aiSettings w) (Some phone)
  && negb (isConversationEscalated phone sess (service w))
  && negb (truthy (skipAiResponse cfg)).

(** No timer with a handle from [first] on expires: the timers started during
    the burst are all still counting down when it ends. *)
Definition withinDebounce (first : nat) (burst : list Action) : bool :=
  forallb
    (fun a => match a with TimerExpires handle => Nat.ltb handle first | _ => true end)
    burst.

(** The callback has not yet passed the currency check that follows the
    typing pause. *)
Definition beforeTypingCheck (st : Status) : bool :=
  match st with
  | Pending => true
  | Awaiting _ KSeen => true
  | Awaiting _ KStartTyping => true
  | Awaiting _ KTypingDelay => true
  | _ => false
  end.

(** None of the later calls draws the token [pid] again. *)
Definition mintsAnew (pid : string) (actions : list Action) : Prop :=
  Forall
    (fun a => match a with IncomingMessage _ _ _ pid' => pid' <> pid | _ => True end)
    actions.

(** Generation [handle] is superseded: the current token of its phone number
    is no longer its own. *)
Definition superseded (g : Generation) (w : World) : Prop :=
  activeProcessIds (service w) !! phoneNumber (closure g) <> Some (processId (closure g)).

(** A second message arrives while the generator is working on the first. *)
Definition run_overtaken : list Action :=
  opening "1700000000000.1" 0 ++
  [ PromiseSettles 0 (History [hello]);
    IncomingMessage customer "default" emptyConfig "1700000004000.2" ].

(** ... and the first generation still delivers its reply. *)
Definition run_supersededReply : list Action :=
  run_overtaken ++
  [ PromiseSettles 0 (Generated "ok" false);
    PromiseSettles 0 Fulfilled ].             (* stopTyping; the reply is sent next *)

(** ... or, when the generator fails, its apology. *)
Definition run_supersededApology : list Action :=
  run_overtaken ++
  [ PromiseSettles 0 Rejected;
    PromiseSettles 0 Fulfilled ].             (* stopTyping; the apology is sent next *)

(** ... or escalates, while the second message's timer is still armed. *)
Definition run_escalatedWhileArmed : list Action :=
  run_overtaken ++
  [ PromiseSettles 0 (Generated "sebaiknya hubungi kantor bpjs" true);
    PromiseSettles 0 Fulfilled ].             (* stopTyping; then escalate and notify *)

(** The second message's pipeline then runs to the end. *)
Definition run_replyAfterEscalation : list Action :=
  run_escalatedWhileArmed ++
  [ TimerExpires 1;
    PromiseSettles 1 Fulfilled;               (* sendSeen *)
    PromiseSettles 1 Fulfilled;               (* startTyping *)
    PromiseSettles 1 Fulfilled;               (* the typing pause *)
    PromiseSettles 1 (History [hello; hello]);
    PromiseSettles 1 (Generated "ada yang bisa dibantu?" false);
    PromiseSettles 1 Fulfilled;               (* stopTyping *)
    PromiseSettles 1 Fulfilled ].             (* sendText of the reply *)

(** The same phone number writes to two sessions. *)
Definition run_twoSessions : list Action :=
  [ IncomingMessage customer "sales" emptyConfig "1700000000000.1";
    IncomingMessage customer "support" emptyConfig "1700000001000.2" ].

(** The newest timer of a phone number carries the number's current token. *)
Definition LatestIsActive (w : World) : Prop :=
  forall handle g,
    timers w !! handle = Some g ->
    (forall handle' g',
        handle < handle' -> timers w !! handle' = Some g' ->
        phoneNumber (closure g') <> phoneNumber (closure g)) ->
    activeProcessIds (service w) !! phoneNumber (closure g) = Some (processId (closure g)).

(** During a burst that began with [first] timers in the table: the timers
    started since are armed or cleared, and of two for the same phone number
    the older is cleared. *)
Definition BurstSoFar (first : nat) (w : World) : Prop :=
  (forall handle g,
      first <= handle -> timers w !! handle = Some g ->
      status g = Pending \/ status g = Cleared)
  /\ (forall handle1 handle2 g1 g2,
         first <= handle1 -> handle1 < handle2 ->
         timers w !! handle1 = Some g1 -> timers w !! handle2 = Some g2 ->
         phoneNumber (closure g1) = phoneNumber (closure g2) ->
         status g1 = Cleared).

(** Generation [handle], with closure [cl], has sent no text and never will:
    it is cleared, has returned, is stopping typing after an abort, or is
    superseded and has its currency check still before it. *)
Definition Inert (cl : Closure) (handle : nat) (w : World) : Prop :=
  exists g,
    timers w !! handle = Some g /\ closure g = cl /\
    count isSendText (doings handle (trace w)) = 0 /\
    (status g = Cleared \/ status g = Completed \/
     (exists c, status g = Awaiting c KAbortStop) \/
     (beforeTypingCheck (status g) = true /\ superseded g w)).

(** Three messages in a row from the same customer, then the pipeline of the
    last one. *)
Definition run_burst : list Action :=
  [ IncomingMessage customer "default" emptyConfig "1700000000000.1";
    IncomingMessage customer "default" emptyConfig "1700000003000.2";
    IncomingMessage customer "default" emptyConfig "1700000008000.3" ].

Definition run_afterBurst : list Action :=
  [ TimerExpires 0;                           (* cleared: nothing happens *)
    TimerExpires 1;                           (* cleared: nothing happens *)
    TimerExpires 2;
    PromiseSettles 2 Fulfilled;               (* sendSeen *)
    PromiseSettles 2 Fulfilled;               (* startTyping *)
    PromiseSettles 2 Fulfilled;               (* the typing pause *)
    PromiseSettles 2 (History [hello; hello; hello]);
    PromiseSettles 2 (Generated "ok" false);
    PromiseSettles 2 Fulfilled;               (* stopTyping *)
    PromiseSettles 2 Fulfilled ].             (* sendText of the reply *)


(** A second message arrives in the middle of the first one's typing pause. *)
Definition run_newerWhileTyping : list Action :=
  [ IncomingMessage customer "default" emptyConfig "1700000000000.1";
    TimerExpires 0;
    PromiseSettles 0 Fulfilled;               (* sendSeen *)
    PromiseSettles 0 Fulfilled;               (* startTyping; the pause begins *)
    IncomingMessage customer "default" emptyConfig "1700000020000.2" ].

Definition run_typingPauseEnds : list Action :=
  [ PromiseSettles 0 Fulfilled;               (* the pause ends: stale, stopTyping *)
    PromiseSettles 0 Fulfilled ].             (* stopTyping settles; return *)

(** ** More about the scheduler *)

(** The timer an entry of [pendingMessageTimeouts] names is armed, was started
    for that phone number, and carries the number's current token. *)
Definition PendingEntryIsCurrent (w : World) : Prop :=
  forall phone handle,
    pendingMessageTimeouts (service w) !! phone = Some handle ->
    exists g,
      timers w !! handle = Some g /\
      phoneNumber (closure g) = phone /\
      status g = Pending /\
      activeProcessIds (service w) !! phone = Some (processId (closure g)).

Definition isSeen (e : Event) : bool :=
  match e with Invoked (WahaSendSeen _ _) => true | _ => false end.
Definition isTypingDelay (e : Event) : bool :=
  match e with Invoked TypingDelay => true | _ => false end.
Definition isResponse (e : Event) : bool :=
  match e with Invoked (WahaSendText SendResponse _ _ _) => true | _ => false end.

(** Call [c] goes to the chat and session the closure captured; the alert of
    [notifyHumanAgent] goes to the operator's chat id instead. *)
Definition addressed (cs : string) (cl : Closure) (c : Call) : Prop :=
  match c with
  | WahaSendSeen chatId sess => chatId = phoneNumber cl /\ sess = session cl
  | WahaStartTyping chatId sess => chatId = phoneNumber cl /\ sess = session cl
  | WahaStopTyping chatId sess => chatId = phoneNumber cl /\ sess = session cl
  | WahaSendText NotifyHumanAgent chatId _ sess => chatId = cs /\ sess = session cl
  | WahaSendText _ chatId _ sess => chatId = phoneNumber cl /\ sess = session cl
  | TypingDelay => True
  | GetMessageHistory phone => phone = phoneNumber cl
  | GenerateResponseWithEscalation _ => True
  end.

(** The generator does not ask for a human in this turn. *)
Definition keepsToBot (a : Action) : Prop :=
  match a with
  | PromiseSettles _ (Generated _ true) => False
  | _ => True
  end.

(** This turn is not the operator's "endescalate" for the key of
    [(phone, sess)]. *)
Definition keepsEscalation (phone sess : string) (a : Action) : Prop :=
  match a with
  | ClearEscalation phone' sess' =>
      makeEscalationKey phone' sess' <> makeEscalationKey phone sess
  | _ => True
  end.

(** This turn does not touch the orchestration settings. *)
Definition keepsSettings (a : Action) : Prop :=
  match a with
  | SetGlobalOrchestrator _ | SetChatOrchestrator _ _ | ClearChatOverride _ => False
  | _ => True
  end.

(** No reply is pending delivery with [escalate = true]. *)
Definition NoEscalationAhead (w : World) : Prop :=
  escalatedConversations (service w) = ∅ /\
  forall handle g c history text escalate,
    timers w !! handle = Some g ->
    status g = Awaiting c (KReplyStop history text escalate) ->
    escalate = false.

(** The character [':'] that [makeEscalationKey] puts between session and
    phone number. *)
Definition colon : Ascii.ascii := Ascii.ascii_of_nat 58.

Fixpoint hasColon (s : string) : bool :=
  match s with
  | EmptyString => false
  | String c s' => if Ascii.eqb c colon then true else hasColon s'
  end.

(** A message processed with both presence signals switched off. *)
Definition quietConfig : MessageOrchestratorConfig :=
  {| sendSeenStatus := Some false; showTypingIndicator := Some false;
     skipAiResponse := None |}.

Definition run_quiet : list Action :=
  [ IncomingMessage customer "default" quietConfig "1700000000000.1";
    TimerExpires 0;
    PromiseSettles 0 (History [hello]);
    PromiseSettles 0 (Generated "ok" false);
    PromiseSettles 0 Fulfilled ].             (* sendText of the reply *)

(** ** AiController: the two orchestrator toggles *)

Module AiController.

Record OrchestratorToggleResponse := {
  success : bool;
  enabled : bool;
  phoneNumber : option string;
}.

(** [POST api/ai/orchestrator/global] *)
Definition toggleOrchestratorGlobal (dtoEnabled : bool) (s : AiSettingsService.t)
  : AiSettingsService.t * OrchestratorToggleResponse :=
  let s' := AiSettingsService.setGlobalOrchestrator dtoEnabled s in
  (s', {| success := true;
          enabled := AiSettingsService.isOrchestratorEnabled s' None;
          phoneNumber := None |}).

(** [POST api/ai/orchestrator/chat] *)
Definition toggleOrchestratorChat (dtoPhoneNumber : string) (dtoEnabled : bool)
    (s : AiSettingsService.t) : AiSettingsService.t * OrchestratorToggleResponse :=
  let s' := AiSettingsService.setChatOrchestrator dtoPhoneNumber dtoEnabled s in
  (s', {| success := true;
          enabled := AiSettingsService.isOrchestratorEnabled s' (Some dtoPhoneNumber);
          phoneNumber := Some dtoPhoneNumber |}).

End AiController.

(** ** ChatService: the stored conversations

    [backend/src/modules/chat/services/chat.service.ts].  The two Prisma
    tables the service touches are finite maps keyed by their unique column
    [phone_number], and a query can be rejected by the database.  The
    methods are first taken on their own, the queries of one call running
    back to back; the section on overlapping calls then lets other calls
    write between the queries, as the [await]s of the service allow. *)

Module ChatService.

Definition atSign : Ascii.ascii := Ascii.ascii_of_nat 64.

(** [waId.split('@')[0]] *)
Fixpoint extractPhoneNumber (waId : string) : string :=
  match waId with
  | EmptyString => EmptyString
  | String c rest =>
      if Ascii.eqb c atSign then EmptyString else String c (extractPhoneNumber rest)
  end.

Fixpoint hasAt (s : string) : bool :=
  match s with
  | EmptyString => false
  | String c rest => if Ascii.eqb c atSign then true else hasAt rest
  end.

(** An optional string that JavaScript takes for true: present and not empty. *)
Definition given (o : option string) : bool :=
  match o with
  | Some s => negb (bool_decide (s = ""))
  | None => false
  end.

(** [...(x && { key: x })] and [x || null] *)
Definition ifGiven (o : option string) : option string :=
  if given o then o else None.

(** [ChatMessage] of [chat.interface.ts]. *)
Record ChatMessage := {
  id : string;
  timestamp : Z;
  from : string;
  to : option string;
  fromMe : bool;
  body : string;
  hasMedia : bool;
  mediaType : option string;
  mediaUrl : option string;
  replyTo : option string;
  notifyName : option string;
  session : option string;
}.

(** An element of the [message_history] array, as [saveMessage] builds it. *)
Record StoredMessage := {
  stored_id : string;
  stored_timestamp : Z;
  stored_fromMe : bool;
  stored_body : string;
  stored_hasMedia : bool;
  stored_mediaType : option string;
  stored_mediaUrl : option string;
  stored_replyTo : option string;
}.

Definition newMessage (message : ChatMessage) : StoredMessage :=
  {| stored_id := id message;
     stored_timestamp := timestamp message;
     stored_fromMe := fromMe message;
     stored_body := body message;
     stored_hasMedia := hasMedia message;
     stored_mediaType := ifGiven (mediaType message);
     stored_mediaUrl := ifGiven (mediaUrl message);
     stored_replyTo := ifGiven (replyTo message) |}.

(** The JSONB column [message_history]. *)
Inductive Json :=
| JsonArray (messages : list StoredMessage)
| JsonOther.

(** [Array.isArray(chat.message_history) ? chat.message_history : []] *)
Definition asArray (j : Json) : list StoredMessage :=
  match j with JsonArray messages => messages | JsonOther => [] end.

Record Customer := {
  customer_id : string;
  name : option string;
}.

Record Chat := {
  chat_customer_id : string;
  message_history : Json;
  last_message_at : Z;
}.

Record Database := {
  customers : gmap string Customer;      (* by [phone_number] *)
  chats : gmap string Chat;              (* by [phone_number] *)
}.

Inductive Outcome (A : Type) :=
| Returned (a : A)
| Threw.
Arguments Returned {A} a.
Arguments Threw {A}.

(** A piece of an [async] method: given how many queries the call has issued
    and the database, its outcome, the new count and the database it leaves. *)
Definition Async (A : Type) : Type := nat -> Database -> Outcome A * nat * Database.

Definition ret {A} (a : A) : Async A := fun n db => (Returned a, n, db).

Definition bind {A B} (m : Async A) (f : A -> Async B) : Async B :=
  fun n db =>
    match m n db with
    | (Returned a, n', db') => f a n' db'
    | (Threw, n', db') => (Threw, n', db')
    end.

Section Queries.

(** [rejected n]: the database rejects the [n]-th query of this call. *)
Variable rejected : nat -> bool.

(** One awaited Prisma query; [None] is an error of the query itself
    (unique constraint, record to update not found). *)
Definition query {A} (q : Database -> option (A * Database)) : Async A :=
  fun n db =>
    if rejected n then (Threw, S n, db)
    else
      match q db with
      | Some (a, db') => (Returned a, S n, db')
      | None => (Threw, S n, db)
      end.

Definition customer_findUnique (phone : string) : Async (option Customer) :=
  query (fun db => Some (customers db !! phone, db)).

Definition customer_create (phone : string) (c : Customer) : Async Customer :=
  query (fun db =>
    match customers db !! phone with
    | Some _ => None
    | None => Some (c, {| customers := <[phone := c]> (customers db); chats := chats db |})
    end).

Definition customer_update (phone : string) (newName : option string) : Async Customer :=
  query (fun db =>
    match customers db !! phone with
    | Some c =>
        let c' := {| customer_id := customer_id c; name := newName |} in
        Some (c', {| customers := <[phone := c']> (customers db); chats := chats db |})
    | None => None
    end).

Definition chat_findUnique (phone : string) : Async (option Chat) :=
  query (fun db => Some (chats db !! phone, db)).

Definition chat_create (phone : string) (c : Chat) : Async Chat :=
  query (fun db =>
    match chats db !! phone with
    | Some _ => None
    | None => Some (c, {| customers := customers db; chats := <[phone := c]> (chats db) |})
    end).

Definition chat_update (phone : string) (history : Json) (at_ : Z) : Async Chat :=
  query (fun db =>
    match chats db !! phone with
    | Some c =>
        let c' := {| chat_customer_id := chat_customer_id c;
                     message_history := history; last_message_at := at_ |} in
        Some (c', {| customers := customers db; chats := <[phone := c']> (chats db) |})
    | None => None
    end).

(** The phone number a message is filed under: [to] for an outgoing message
    that has one, [from] otherwise. *)
Definition filedUnder (message : ChatMessage) : string :=
  if fromMe message && given (to message)
  then extractPhoneNumber (default "" (to message))
  else extractPhoneNumber (from message).

(** [saveMessage] from "Find or create chat" on. *)
Definition appendToChat (message : ChatMessage) (customer : Customer) : Async unit :=
  let phoneNumber := filedUnder message in
  bind (chat_findUnique phoneNumber) (fun found =>
  bind (match found with
        | Some chat => ret chat
        | None =>
            chat_create phoneNumber
              {| chat_customer_id := customer_id customer;
                 message_history := JsonArray [];
                 last_message_at := (timestamp message * 1000)%Z |}
        end) (fun chat =>
  let messageHistory := asArray (message_history chat) in
  bind (chat_update phoneNumber
          (JsonArray (messageHistory ++ [newMessage message]))
          (timestamp message * 1000)%Z) (fun _ =>
  ret tt))).

(** [saveMessage(message)]; [freshId] is the id the database gives a customer
    it creates.  The [catch] of the method logs and rethrows. *)
Definition saveMessage (freshId : string) (message : ChatMessage) : Async unit :=
  let phoneNumber := filedUnder message in
  bind (customer_findUnique phoneNumber) (fun found =>
  match found with
  | None =>
      if fromMe message then ret tt
      else
        bind (customer_create phoneNumber
                {| customer_id := freshId; name := ifGiven (notifyName message) |})
             (appendToChat message)
  | Some customer =>
      if negb (fromMe message) && given (notifyName message)
         && negb (bool_decide (name customer = notifyName message))
      then bind (customer_update phoneNumber (notifyName message)) (appendToChat message)
      else appendToChat message customer
  end).

(** [getMessageHistory(phoneNumber)]: its own [catch] answers [[]]. *)
Definition getMessageHistory (phoneNumber : string) (db : Database) : list StoredMessage :=
  match chat_findUnique (extractPhoneNumber phoneNumber) 0 db with
  | (Returned (Some chat), _, _) => asArray (message_history chat)
  | (Returned None, _, _) => []
  | (Threw, _, _) => []
  end.

End Queries.

(** No query is rejected. *)
Definition healthy : nat -> bool := fun _ => false.

(** One call of [saveMessage]: how it ends, and the database it leaves. *)
Definition saveMessage_ends (rejected : nat -> bool) (freshId : string)
    (message : ChatMessage) (db : Database) : Outcome unit :=
  fst (fst (saveMessage rejected freshId message 0 db)).

Definition saveMessage_leaves (rejected : nat -> bool) (freshId : string)
    (message : ChatMessage) (db : Database) : Database :=
  snd (saveMessage rejected freshId message 0 db).

(** Every chat belongs to the customer stored under the same phone number. *)
Definition Consistent (db : Database) : Prop :=
  forall phone chat,
    chats db !! phone = Some chat ->
    exists customer,
      customers db !! phone = Some customer /\
      chat_customer_id chat = customer_id customer.

(** *** Calls that overlap

    Each Prisma query is one statement at the database, but [saveMessage]
    awaits between its queries, and other calls (the webhook of another
    message of the same chat, the chat controller) can write in between.
    [others n db] is what those writes have made of [db] by the time the
    [n]-th query of this call reaches the database. *)
Section Overlap.

Variable rejected : nat -> bool.
Variable others : nat -> Database -> Database.

(** A query of this call, after what the others wrote since its last one. *)
Definition amid {A} (m : Async A) : Async A :=
  fun n db => m n (others n db).

(** [saveMessage] from "Find or create chat" on. *)
Definition appendToChat_among (message : ChatMessage) (customer : Customer) : Async unit :=
  let phoneNumber := filedUnder message in
  bind (amid (chat_findUnique rejected phoneNumber)) (fun found =>
  bind (match found with
        | Some chat => ret chat
        | None =>
            amid (chat_create rejected phoneNumber
                    {| chat_customer_id := customer_id customer;
                       message_history := JsonArray [];
                       last_message_at := (timestamp message * 1000)%Z |})
        end) (fun chat =>
  let messageHistory := asArray (message_history chat) in
  bind (amid (chat_update rejected phoneNumber
                (JsonArray (messageHistory ++ [newMessage message]))
                (timestamp message * 1000)%Z)) (fun _ =>
  ret tt))).

(** [saveMessage(message)] among other calls. *)
Definition saveMessage_among (freshId : string) (message : ChatMessage) : Async unit :=
  let phoneNumber := filedUnder message in
  bind (amid (customer_findUnique rejected phoneNumber)) (fun found =>
  match found with
  | None =>
      if fromMe message then ret tt
      else
        bind (amid (customer_create rejected phoneNumber
                      {| customer_id := freshId; name := ifGiven (notifyName message) |}))
             (appendToChat_among message)
  | Some customer =>
      if negb (fromMe message) && given (notifyName message)
         && negb (bool_decide (name customer = notifyName message))
      then bind (amid (customer_update rejected phoneNumber (notifyName message)))
                (appendToChat_among message)
      else appendToChat_among message customer
  end).

End Overlap.

(** No other call writes. *)
Definition alone : nat -> Database -> Database := fun _ db => db.

(** The other calls leave the customer, or the chat, stored under [phone] as
    it is. *)
Definition leavesCustomer (phone : string) (others : nat -> Database -> Database) : Prop :=
  forall n db, customers (others n db) !! phone = customers db !! phone.

Definition leavesChat (phone : string) (others : nat -> Database -> Database) : Prop :=
  forall n db, chats (others n db) !! phone = chats db !! phone.

End ChatService.


(** An empty database, a first incoming message and a first reply. *)
Definition emptyDatabase : ChatService.Database :=
  {| ChatService.customers := ∅; ChatService.chats := ∅ |}.

Definition firstMessage : ChatService.ChatMessage :=
  {| ChatService.id := "false_6281234567890@c.us_3EB0";
     ChatService.timestamp := 1700000000;
     ChatService.from := "6281234567890@c.us";
     ChatService.to := None;
     ChatService.fromMe := false;
     ChatService.body := "halo";
     ChatService.hasMedia := false;
     ChatService.mediaType := None;
     ChatService.mediaUrl := None;
     ChatService.replyTo := None;
     ChatService.notifyName := Some "Budi";
     ChatService.session := Some "default" |}.

Definition firstReply : ChatService.ChatMessage :=
  {| ChatService.id := "true_6281234567890@c.us_3EB1";
     ChatService.timestamp := 1700000030;
     ChatService.from := "6280000000000@c.us";
     ChatService.to := Some "6281234567890@c.us";
     ChatService.fromMe := true;
     ChatService.body := "Halo! Ada yang bisa saya bantu?";
     ChatService.hasMedia := false;
     ChatService.mediaType := None;
     ChatService.mediaUrl := None;
     ChatService.replyTo := None;
     ChatService.notifyName := None;
     ChatService.session := Some "default" |}.

(** The customer writes again while the reply of the bot is being stored. *)
Definition secondMessage : ChatService.ChatMessage :=
  {| ChatService.id := "false_6281234567890@c.us_3EB2";
     ChatService.timestamp := 1700000031;
     ChatService.from := "6281234567890@c.us";
     ChatService.to := None;
     ChatService.fromMe := false;
     ChatService.body := "saya mau tanya";
     ChatService.hasMedia := false;
     ChatService.mediaType := None;
     ChatService.mediaUrl := None;
     ChatService.replyTo := None;
     ChatService.notifyName := Some "Budi";
     ChatService.session := Some "default" |}.

(** The database once the first message is stored. *)
Definition openedDatabase : ChatService.Database :=
  ChatService.saveMessage_leaves ChatService.healthy "cust-1" firstMessage emptyDatabase.

(** The [saveMessage] of the reply reads the chat before this call's
    write-back and writes after this call has read: its [chat.update] lands
    between this call's second and third query. *)
Definition replyLandsBeforeWriteBack : nat -> ChatService.Database -> ChatService.Database :=
  fun n db =>
    if Nat.eqb n 2
    then ChatService.saveMessage_leaves ChatService.healthy "cust-2" firstReply db
    else db.

(** The chat controller deletes the operator's own chat
    ([removeByPhoneNumber]) while the call runs. *)
Definition anotherChatDeleted : nat -> ChatService.Database -> ChatService.Database :=
  fun _ db =>
    {| ChatService.customers := ChatService.customers db;
       ChatService.chats := delete "6289876543210" (ChatService.chats db) |}.

(** ** The string methods the services use *)

(** [s.startsWith(prefix)] *)
Fixpoint startsWith (prefix s : string) : bool :=
  match prefix, s with
  | EmptyString, _ => true
  | String _ _, EmptyString => false
  | String a prefix', String b s' => Ascii.eqb a b && startsWith prefix' s'
  end.

(** [s.includes(needle)] *)
Fixpoint includes (needle s : string) : bool :=
  startsWith needle s
  || match s with
     | EmptyString => false
     | String _ s' => includes needle s'
     end.

Fixpoint dropChars (n : nat) (s : string) : string :=
  match n, s with
  | S n', String _ s' => dropChars n' s'
  | _, _ => s
  end.

(** [s.replace(needle, '')] with a string for a pattern: the first occurrence
    goes, the others stay. *)
Fixpoint removeFirst (needle s : string) : string :=
  if startsWith needle s then dropChars (String.length needle) s
  else
    match s with
    | EmptyString => EmptyString
    | String c s' => String c (removeFirst needle s')
    end.

(** ** AiAgentService: deciding to escalate *)

Module AiAgentService.

Definition escalationMarker : string := "[[ESCALATE_TO_HUMAN]]".

Definition escalationPhrases : list string :=
  [ "saya tidak memiliki cukup informasi";
    "saya tidak dapat memberikan informasi yang pasti";
    "sebaiknya hubungi kantor bpjs";
    "silakan hubungi care center";
    "perlu dicek langsung di kantor bpjs";
    "sebaiknya ditangani langsung oleh petugas" ].

Section Runtime.

(** [String.prototype.toLowerCase] and [String.prototype.trim] of the
    JavaScript runtime; nothing is assumed about them. *)
Variable toLowerCase : string -> string.
Variable trim : string -> string.

Definition shouldEscalate (text : string) : bool :=
  if bool_decide (text = "") then false
  else if includes escalationMarker text then true
  else
    let lower := toLowerCase text in
    existsb (fun p => includes p lower) escalationPhrases.

Definition stripEscalationMarker (text : string) : string :=
  trim (removeFirst escalationMarker text).

(** [generateResponseWithEscalation], as the orchestrator's [await] sees it
    settle: [rawText] is what [generateResponse] returned, [None] when it
    threw. *)
Definition generateResponseWithEscalation (rawText : option string) : Answer :=
  match rawText with
  | Some raw => Generated (stripEscalationMarker raw) (shouldEscalate raw)
  | None => Rejected
  end.

End Runtime.

End AiAgentService.

(** ** WhatsappService: from the webhook to the scheduler *)

Module WhatsappService.

Record MessageMedia := {
  url : string;
  mimetype : string;
}.

(** The fields of the message payload that the two handlers read. *)
Record MessagePayload := {
  id : string;
  timestamp : Z;
  from : string;
  to : string;
  fromMe : bool;
  body : option string;
  hasMedia : bool;
  media : option MessageMedia;
  replyTo : option string;
  notifyName : option string;             (* [_data?.notifyName] *)
}.

(** [if (realPhone) { final = realPhone }], where [realPhone] is what
    [getPhoneNumberByLid] answered. *)
Definition resolved (original : string) (realPhone : option string) : string :=
  if ChatService.given realPhone then default "" realPhone else original.

(** [handleMessage(event)]: the ['message'] event.  [realPhone] is the answer
    of [getPhoneNumberByLid], asked for only when [from] is a LID; [pid] is
    the token [processIncomingMessage] draws. *)
Definition handleMessage (payload : MessagePayload) (sess : string)
    (realPhone : option string) (pid : string) (w : World) : World :=
  if fromMe payload then w
  else
    let finalFrom :=
      if includes "@lid" (from payload) then resolved (from payload) realPhone
      else from payload in
    if includes "@g.us" finalFrom then w
    else processIncomingMessage finalFrom sess emptyConfig pid w.

(** What the ['message.any'] handler asks of the outside: the two LID
    look-ups, the transcript of a voice note ([None] when the download or the
    transcription fails), the database's behaviour, what other calls write
    to it meanwhile, and the customer id and token to draw. *)
Record Outside := {
  realFrom : option string;
  realTo : option string;
  transcript : option string;
  rejected : nat -> bool;
  others : nat -> ChatService.Database -> ChatService.Database;
  freshId : string;
  processId : string;
}.

Definition finalFrom (payload : MessagePayload) (o : Outside) : string :=
  if negb (fromMe payload) && includes "@lid" (from payload)
  then resolved (from payload) (realFrom o)
  else from payload.

Definition finalTo (payload : MessagePayload) (o : Outside) : string :=
  if fromMe payload && negb (bool_decide (to payload = ""))
     && includes "@lid" (to payload)
  then resolved (to payload) (realTo o)
  else to payload.

(** The voice-note branch: is a transcription attempted? *)
Definition isVoiceNote (payload : MessagePayload) : bool :=
  negb (fromMe payload) && hasMedia payload
  && match media payload with
     | Some m =>
         negb (bool_decide (mimetype m = "")) && startsWith "audio/" (mimetype m)
         && negb (bool_decide (url m = ""))
     | None => false
     end.

Definition textBody (payload : MessagePayload) (o : Outside) : string :=
  let plain := default "" (body payload) in
  if isVoiceNote payload then default plain (transcript o) else plain.

Definition isGroupMessage (payload : MessagePayload) (o : Outside) : bool :=
  (negb (fromMe payload) && includes "@g.us" (finalFrom payload o))
  || (fromMe payload && includes "@g.us" (finalTo payload o)).

(** The argument of [saveMessage]. *)
Definition toSave (payload : MessagePayload) (sess : string) (o : Outside)
  : ChatService.ChatMessage :=
  {| ChatService.id := id payload;
     ChatService.timestamp := timestamp payload;
     ChatService.from := finalFrom payload o;
     ChatService.to := Some (finalTo payload o);
     ChatService.fromMe := fromMe payload;
     ChatService.body := textBody payload o;
     ChatService.hasMedia := hasMedia payload;
     ChatService.mediaType :=
       if hasMedia payload then mimetype <$> media payload else None;
     ChatService.mediaUrl :=
       if hasMedia payload then url <$> media payload else None;
     ChatService.replyTo := ChatService.ifGiven (replyTo payload);
     ChatService.notifyName := ChatService.ifGiven (notifyName payload);
     ChatService.session := Some sess |}.

(** [handleMessageAny(event)]: the ['message.any'] event.  How the handler
    ends, the database as it is when the handler goes on after
    [await this.chatService.saveMessage(..)] (other calls may have written
    once more by then), and the scheduler it leaves. *)
Definition handleMessageAny (payload : MessagePayload) (sess : string) (o : Outside)
    (db : ChatService.Database) (w : World)
  : ChatService.Outcome unit * ChatService.Database * World :=
  if isGroupMessage payload o then (ChatService.Returned tt, db, w)
  else
    match ChatService.saveMessage_among (rejected o) (others o) (freshId o)
            (toSave payload sess o) 0 db with
    | (ChatService.Returned _, n, db') =>
        (ChatService.Returned tt, others o n db',
         if negb (fromMe payload)
         then processIncomingMessage (finalFrom payload o) sess
                {| sendSeenStatus := None; showTypingIndicator := None;
                   skipAiResponse := Some false |}
                (processId o) w
         else w)
    | (ChatService.Threw, n, db') => (ChatService.Threw, others o n db', w)
    end.

(** The webhook events [routeEvent] tells apart, each with what its handler
    asks of the outside.  [handleSessionStatus] and the default branch only
    log. *)
Inductive WebhookEvent :=
| SessionStatus
| Message (payload : MessagePayload) (sess : string)
    (realPhone : option string) (pid : string)
| MessageAny (payload : MessagePayload) (sess : string) (o : Outside)
| Ignored.

Definition routeEvent (e : WebhookEvent) (db : ChatService.Database) (w : World)
  : ChatService.Outcome unit * ChatService.Database * World :=
  match e with
  | SessionStatus => (ChatService.Returned tt, db, w)
  | Message payload sess realPhone pid =>
      (ChatService.Returned tt, db, handleMessage payload sess realPhone pid w)
  | MessageAny payload sess o => handleMessageAny payload sess o db w
  | Ignored => (ChatService.Returned tt, db, w)
  end.

End WhatsappService.

(** A submission that the webhook handlers can have made: they turn group
    chats away. *)
Definition notFromGroup (a : Action) : Prop :=
  match a with
  | IncomingMessage phone _ _ _ => includes "@g.us" phone = false
  | _ => True
  end.

(** ** The backend as a whole *)

(** Messages reach [processIncomingMessage] through the webhook only; timers,
    promises and the operator's and the controller's calls are the other
    turns. *)
Inductive Happening :=
| Webhook (e : WhatsappService.WebhookEvent)
| Backstage (a : Action).

Definition notSubmission (a : Action) : Prop :=
  match a with
  | IncomingMessage _ _ _ _ => False
  | _ => True
  end.

Definition behindWebhook (h : Happening) : Prop :=
  match h with
  | Webhook _ => True
  | Backstage a => notSubmission a
  end.

Definition happen (s : ChatService.Database * World) (h : Happening)
  : ChatService.Database * World :=
  match h with
  | Webhook e =>
      match WhatsappService.routeEvent e s.1 s.2 with
      | (_, db, w) => (db, w)
      end
  | Backstage a => (s.1, step s.2 a)
  end.

Definition live (s : ChatService.Database * World) (hs : list Happening)
  : ChatService.Database * World :=
  fold_left happen hs s.

(** The chat a call of the bot writes to or reads the history of; the
    operator's alert and the generator are set apart. *)
Definition outsideGroups (c : Call) : Prop :=
  match c with
  | WahaSendSeen chatId _ => includes "@g.us" chatId = false
  | WahaStartTyping chatId _ => includes "@g.us" chatId = false
  | WahaStopTyping chatId _ => includes "@g.us" chatId = false
  | WahaSendText NotifyHumanAgent _ _ _ => True
  | WahaSendText _ chatId _ _ => includes "@g.us" chatId = false
  | TypingDelay => True
  | GetMessageHistory phone => includes "@g.us" phone = false
  | GenerateResponseWithEscalation _ => True
  end.

(** A group message, a private one and a voice note, as WAHA delivers them. *)
Definition groupPayload : WhatsappService.MessagePayload :=
  {| WhatsappService.id := "false_120363041234567890@g.us_3EB0A1";
     WhatsappService.timestamp := 1700000000;
     WhatsappService.from := "120363041234567890@g.us";
     WhatsappService.to := "6280000000000@c.us";
     WhatsappService.fromMe := false;
     WhatsappService.body := Some "halo semua";
     WhatsappService.hasMedia := false;
     WhatsappService.media := None;
     WhatsappService.replyTo := None;
     WhatsappService.notifyName := None |}.

Definition privatePayload : WhatsappService.MessagePayload :=
  {| WhatsappService.id := "false_6281234567890@c.us_3EB0A2";
     WhatsappService.timestamp := 1700000001;
     WhatsappService.from := customer;
     WhatsappService.to := "6280000000000@c.us";
     WhatsappService.fromMe := false;
     WhatsappService.body := Some "halo";
     WhatsappService.hasMedia := false;
     WhatsappService.media := None;
     WhatsappService.replyTo := None;
     WhatsappService.notifyName := Some "Budi" |}.

Definition calmOutside : WhatsappService.Outside :=
  {| WhatsappService.realFrom := None;
     WhatsappService.realTo := None;
     WhatsappService.transcript := None;
     WhatsappService.rejected := ChatService.healthy;
     WhatsappService.others := ChatService.alone;
     WhatsappService.freshId := "cust-1";
     WhatsappService.processId := "1700000000001.2" |}.

(** The same, while the chat controller deletes the operator's chat. *)
Definition busyOutside : WhatsappService.Outside :=
  {| WhatsappService.realFrom := None;
     WhatsappService.realTo := None;
     WhatsappService.transcript := None;
     WhatsappService.rejected := ChatService.healthy;
     WhatsappService.others := anotherChatDeleted;
     WhatsappService.freshId := "cust-1";
     WhatsappService.processId := "1700000000001.2" |}.

(** A group message and a private one arrive; the private one is answered
    with the greeting. *)
Definition day : list Happening :=
  [ Webhook (WhatsappService.MessageAny groupPayload "default" calmOutside);
    Webhook (WhatsappService.MessageAny privatePayload "default" calmOutside);
    Backstage (TimerExpires 0);
    Backstage (PromiseSettles 0 Fulfilled);
    Backstage (PromiseSettles 0 Fulfilled);
    Backstage (PromiseSettles 0 Fulfilled);
    Backstage (PromiseSettles 0 (History []));
    Backstage (PromiseSettles 0 Fulfilled);
    Backstage (PromiseSettles 0 Fulfilled) ].

(** * Properties *)

(** ** Reading traces *)

Lemma doings_app handle tr tr' :
  doings handle (tr ++ tr') = doings handle tr ++ doings handle tr'.
Proof. unfold doings. by rewrite List.filter_app, map_app. Qed.

Lemma doings_own handle es : doings handle (map (pair handle) es) = es.
Proof.
  unfold doings. induction es as [|e es IH]; simpl; [done|].
  rewrite Nat.eqb_refl. simpl. by rewrite IH.
Qed.

Lemma doings_other handle handle' es :
  handle <> handle' -> doings handle' (map (pair handle) es) = [].
Proof.
  intros Hne. unfold doings. induction es as [|e es IH]; simpl; [done|].
  destruct (Nat.eqb_spec handle handle'); [done|]. exact IH.
Qed.

Lemma count_app p es es' : count p (es ++ es') = count p es + count p es'.
Proof. unfold count. by rewrite List.filter_app, length_app. Qed.

(** ** The helpers that swallow exceptions *)

Lemma sendSeenStatus_never_throws r : sendSeenStatus_completes r = Normal.
Proof. by destruct r. Qed.
Lemma startTyping_never_throws r : startTyping_completes r = Normal.
Proof. by destruct r. Qed.
Lemma stopTyping_never_throws r : stopTyping_completes r = Normal.
Proof. by destruct r. Qed.
Lemma notifyHumanAgent_never_throws r : notifyHumanAgent_completes r = Normal.
Proof. by destruct r. Qed.
Lemma sendErrorResponse_never_throws r : sendErrorResponse_completes r = Normal.
Proof. by destruct r. Qed.
Lemma sendResponse_rethrows r : sendResponse_completes r = settles r.
Proof. by destruct r. Qed.

(** ** The callback stays in the catalogue *)

Lemma shape_cast cs cl st es es' :
  Shape cs cl st es -> es = es' -> Shape cs cl st es'.
Proof. by intros H <-. Qed.

Ltac same_events :=
  unfold stopEvents, typingEvents, seenEvents;
  repeat match goal with
         | H : typingOn _ = _ |- _ => rewrite !H
         | H : seenOn _ = _ |- _ => rewrite !H
         end;
  rewrite <- ?app_assoc; simpl; reflexivity.

Ltac by_shape S := eapply shape_cast; [ eapply S; eauto | same_events ].

Lemma shape_from_typing cs cl o es r :
  es = seenEvents cl r ->
  Shape cs cl (next (from_typing cl o)) (es ++ emitted (from_typing cl o)).
Proof.
  intros ->. unfold from_typing, from_getHistory.
  destruct (typingOn cl) eqn:Ht; simpl.
  - by_shape (shape_startTyping cs cl r).
  - eapply shape_cast; [ eapply (shape_history cs cl), (presented cl r Fulfilled Fulfilled) | same_events ].
Qed.

Lemma shape_expire cs cl o :
  Shape cs cl (next (expire cl o)) (emitted (expire cl o)).
Proof.
  unfold expire. destruct (negb (isCurrent cl o)); simpl; [constructor|].
  unfold from_seen. destruct (seenOn cl) eqn:Hs; simpl.
  - by constructor.
  - match goal with |- context [from_typing cl ?o'] =>
      generalize (shape_from_typing cs cl o' [] Fulfilled) end.
    unfold seenEvents. rewrite Hs. simpl. auto.
Qed.

Lemma shape_from_catch cs cl o es :
  Thrown cl es ->
  Shape cs cl (next (from_catch cl o)) (es ++ emitted (from_catch cl o)).
Proof.
  intros Hth. unfold from_catch, from_sendErrorResponse.
  destruct (typingOn cl) eqn:Ht; simpl.
  - by_shape (shape_catchStop cs cl es).
  - by_shape (shape_catchSend cs cl es Fulfilled).
Qed.

Lemma shape_from_greeting cs cl o es :
  Fetched cl [] es ->
  Shape cs cl (next (from_greeting cl o)) (es ++ emitted (from_greeting cl o)).
Proof.
  intros Hf. unfold from_greeting, from_greetingSend.
  destruct (typingOn cl) eqn:Ht; simpl.
  - by_shape (shape_greetingStop cs cl es).
  - by_shape (shape_greetingSend cs cl es Fulfilled).
Qed.

Lemma shape_from_escalate cs cl o history text escalate es r :
  Answered cl history text escalate es ->
  Shape cs cl
    (next (from_escalate cs cl history text escalate o))
    (es ++ stopEvents cl r ++ emitted (from_escalate cs cl history text escalate o)).
Proof.
  intros Ha. unfold from_escalate, from_notifyHumanAgent.
  destruct escalate; simpl.
  - case_bool_decide as Hcs; simpl.
    + by_shape (shape_notifySkipped cs cl history text es r).
    + by_shape (shape_notify cs cl history text es r).
  - by_shape (shape_replySend cs cl history text es r).
Qed.

Lemma shape_resume cs cl c k r o es :
  Shape cs cl (Awaiting c k) es ->
  Shape cs cl
    (next (resume cs cl k r o))
    (es ++ Settled c r :: emitted (resume cs cl k r o)).
Proof.
  intros Hs. inversion Hs; subst; simpl;
    rewrite ?sendSeenStatus_never_throws, ?startTyping_never_throws,
      ?stopTyping_never_throws, ?notifyHumanAgent_never_throws,
      ?sendErrorResponse_never_throws, ?sendResponse_rethrows.
  - (* KSeen *)
    generalize (shape_from_typing cs cl o _ r eq_refl).
    unfold seenEvents.
    match goal with H : seenOn cl = true |- _ => rewrite H end. simpl. auto.
  - (* KStartTyping *)
    simpl. by_shape (shape_typingDelay cs cl r1 r).
  - (* KTypingDelay *)
    assert (Hp : Presented cl
              (seenEvents cl r1 ++
               [Invoked (callStartTyping cl); Settled (callStartTyping cl) r2;
                Invoked TypingDelay; Settled TypingDelay r])).
    { eapply eq_ind; [ apply (presented cl r1 r2 r) | same_events ]. }
    destruct (negb (isCurrent cl o)); simpl.
    + by_shape (shape_abortStop cs cl).
    + by_shape (shape_history cs cl).
  - (* KAbortStop *)
    simpl. by_shape (shape_aborted cs cl es0 r).
  - (* KHistory *)
    destruct (getMessageHistory_returns r) as [|m ms] eqn:Hh.
    + eapply shape_cast;
        [ eapply (shape_from_greeting cs cl o), (fetched cl [] es0 r); eauto
        | rewrite <- ?app_assoc; simpl; reflexivity ].
    + simpl. eapply shape_cast;
        [ eapply (shape_generate cs cl (m :: ms)); [ eapply (fetched cl _ es0 r); eauto | done ]
        | same_events ].
  - (* KGreetingStop *)
    unfold from_greetingSend. simpl. by_shape (shape_greetingSend cs cl es0 r).
  - (* KGreetingSend *)
    destruct (settles r) eqn:Hr.
    + simpl. by_shape (shape_greeted cs cl es0 r0 r).
    + eapply shape_cast;
        [ eapply (shape_from_catch cs cl o), (thrown_greeting cl es0 r0 r); eauto
        | rewrite <- ?app_assoc; simpl; reflexivity ].
  - (* KGenerate *)
    destruct (generate_returns r) as [[text escalate]|] eqn:Hg.
    + assert (Ha : Answered cl history text escalate
                (es0 ++ [Invoked (GenerateResponseWithEscalation history);
                         Settled (GenerateResponseWithEscalation history) r]))
        by (by constructor).
      destruct (typingOn cl) eqn:Ht; simpl.
      * by_shape (shape_replyStop cs cl history text escalate).
      * generalize (shape_from_escalate cs cl o history text escalate _ Fulfilled Ha).
        unfold stopEvents. rewrite Ht. simpl. rewrite <- ?app_assoc. simpl. auto.
    + eapply shape_cast;
        [ eapply (shape_from_catch cs cl o), (thrown_generate cl history es0 r); eauto
        | rewrite <- ?app_assoc; simpl; reflexivity ].
  - (* KReplyStop *)
    match goal with H : Answered _ _ _ _ _ |- _ =>
      generalize (shape_from_escalate cs cl o history text escalate _ r H) end.
    unfold stopEvents.
    match goal with H : typingOn cl = true |- _ => rewrite H end.
    simpl. rewrite <- ?app_assoc. simpl. auto.
  - (* KNotify *)
    simpl. by_shape (shape_notified cs cl history text es0 r0 r).
  - (* KReplySend *)
    destruct (settles r) eqn:Hr.
    + simpl. by_shape (shape_replied cs cl history text es0 r0 r).
    + eapply shape_cast;
        [ eapply (shape_from_catch cs cl o), (thrown_reply cl history text es0 r0 r); eauto
        | rewrite <- ?app_assoc; simpl; reflexivity ].
  - (* KCatchStop *)
    unfold from_sendErrorResponse. simpl. by_shape (shape_catchSend cs cl es0 r).
  - (* KCatchSend *)
    simpl. by_shape (shape_apologised cs cl es0 r0 r).
Qed.

(** ** Every run stays in the catalogue *)

Lemma clearTimeout_length handle ts : length (clearTimeout handle ts) = length ts.
Proof.
  unfold clearTimeout. destruct (ts !! handle) as [g|]; [|done].
  destruct (status g); try done. by rewrite length_insert.
Qed.

Lemma clearTimeout_lookup handle ts handle' g :
  clearTimeout handle ts !! handle' = Some g ->
  exists g0,
    ts !! handle' = Some g0 /\ closure g = closure g0 /\
    (status g = status g0 \/
     (handle' = handle /\ status g0 = Pending /\ status g = Cleared)).
Proof.
  unfold clearTimeout. destruct (ts !! handle) as [g1|] eqn:H1; [|by eauto].
  destruct (status g1) eqn:Hst; try by eauto.
  destruct (decide (handle = handle')) as [<-|Hne].
  - rewrite list_lookup_insert_eq by (by eapply lookup_lt_Some).
    intros [= <-]. exists g1. simpl. by eauto 6.
  - rewrite list_lookup_insert_ne by done. by eauto.
Qed.

Lemma shape_pending_nothing cs cl es : Shape cs cl Pending es -> es = [].
Proof. by inversion 1. Qed.

Lemma shape_cleared_nothing cs cl es : Shape cs cl Cleared es -> es = [].
Proof. by inversion 1. Qed.

Lemma catalogued_boot cs : Catalogued (boot cs).
Proof. split; [intros handle g Hg; by destruct handle|done]. Qed.

Lemma catalogued_took handle g t w :
  Catalogued w ->
  timers w !! handle = Some g ->
  Shape (humanCsWhatsappId w) (closure g) (next t)
    (doings handle (trace w) ++ emitted t) ->
  Catalogued (took handle g t w).
Proof.
  intros [Hin Hout] Hg Hsh. split; simpl.
  - intros handle' g'. destruct (decide (handle = handle')) as [<-|Hne].
    + rewrite list_lookup_insert_eq by (by eapply lookup_lt_Some).
      intros [= <-]. simpl. by rewrite doings_app, doings_own.
    + rewrite list_lookup_insert_ne by done. intros Hg'.
      rewrite doings_app, doings_other, app_nil_r by done. by apply Hin.
  - intros handle'. rewrite length_insert. intros Hle.
    assert (handle <> handle') by (apply lookup_lt_Some in Hg; lia).
    rewrite doings_app, doings_other, app_nil_r by done. by apply Hout.
Qed.

Lemma catalogued_processIncomingMessage phone sess cfg pid w :
  Catalogued w -> Catalogued (processIncomingMessage phone sess cfg pid w).
Proof.
  intros [Hin Hout]. unfold processIncomingMessage.
  destruct (negb _); [done|]. destruct (isConversationEscalated _ _ _); [done|].
  destruct (truthy _); [done|].
  set (ts := match pendingMessageTimeouts (service w) !! phone with
             | Some t => clearTimeout t (timers w) | None => timers w end).
  assert (Hlen : length ts = length (timers w)).
  { subst ts. destruct (_ !! phone); [apply clearTimeout_length|done]. }
  assert (Hts : forall handle g, ts !! handle = Some g ->
            Shape (humanCsWhatsappId w) (closure g) (status g) (doings handle (trace w))).
  { subst ts. intros handle g. destruct (_ !! phone) as [t|]; [|by apply Hin].
    intros (g0 & Hg0 & Hcl & Hst)%clearTimeout_lookup.
    specialize (Hin _ _ Hg0). rewrite Hcl.
    destruct Hst as [->|(_ & Hp & ->)]; [done|].
    rewrite Hp in Hin. apply shape_pending_nothing in Hin as ->. constructor. }
  split; simpl.
  - intros handle g Hg. apply lookup_app_Some in Hg as [Hg|[Hge Hg]]; [by apply Hts|].
    apply list_lookup_singleton_Some in Hg as [Hz <-]. simpl.
    rewrite Hout by lia. constructor.
  - intros handle. rewrite length_app. simpl. intros Hle. apply Hout. lia.
Qed.

Lemma catalogued_step w a : Catalogued w -> Catalogued (step w a).
Proof.
  intros Hc. destruct a; simpl; try exact Hc.
  - by apply catalogued_processIncomingMessage.
  - unfold timerExpires. destruct (timers w !! handle) as [g|] eqn:Hg; [|done].
    destruct (status g) eqn:Hst; try done.
    apply catalogued_took; [done..|].
    destruct Hc as [Hin _]. specialize (Hin _ _ Hg). rewrite Hst in Hin.
    apply shape_pending_nothing in Hin as ->. apply shape_expire.
  - unfold promiseSettles. destruct (timers w !! handle) as [g|] eqn:Hg; [|done].
    destruct (status g) eqn:Hst; try done.
    apply catalogued_took; [done..|].
    destruct Hc as [Hin _]. specialize (Hin _ _ Hg). rewrite Hst in Hin.
    simpl. by apply shape_resume.
Qed.

Lemma run_snoc w actions a : run w (actions ++ [a]) = step (run w actions) a.
Proof. unfold run. by rewrite fold_left_app. Qed.

Lemma run_app w actions actions' :
  run w (actions ++ actions') = run (run w actions) actions'.
Proof. unfold run. by rewrite fold_left_app. Qed.

Lemma catalogued_run w actions : Catalogued w -> Catalogued (run w actions).
Proof.
  revert w. induction actions as [|a actions IH]; intros w Hc; [done|].
  simpl. by apply IH, catalogued_step.
Qed.

Lemma callback_shape cs actions handle g :
  timers (run (boot cs) actions) !! handle = Some g ->
  Shape cs (closure g) (status g) (doings handle (trace (run (boot cs) actions))).
Proof.
  intros Hg.
  assert (Hcs : forall w l, humanCsWhatsappId (run w l) = humanCsWhatsappId w).
  { intros w l. revert w. induction l as [|a l IH]; intros w; [done|].
    simpl. rewrite IH. destruct a; simpl; try done.
    - unfold processIncomingMessage. by repeat case_match.
    - unfold timerExpires. by repeat case_match.
    - unfold promiseSettles. by repeat case_match. }
  destruct (catalogued_run (boot cs) actions (catalogued_boot cs)) as [Hin _].
  specialize (Hin _ _ Hg). by rewrite Hcs in Hin.
Qed.

(** ** Reading the catalogue *)

(** Spell out the calls of a catalogue entry. *)
Ltac spell_out H :=
  inversion H; subst; clear H;
  repeat match goal with
         | H' : Thrown _ _ |- _ => inversion H'; subst; clear H'
         | H' : Answered _ _ _ _ _ |- _ => inversion H'; subst; clear H'
         | H' : Fetched _ _ _ |- _ => inversion H'; subst; clear H'
         | H' : Presented _ _ |- _ => inversion H'; subst; clear H'
         end;
  unfold stopEvents, typingEvents, seenEvents in *;
  repeat match goal with
         | H' : typingOn _ = _ |- _ => rewrite !H' in *
         | H' : seenOn _ = _ |- _ => rewrite !H' in *
         | |- context [if typingOn ?c then _ else _] => destruct (typingOn c) eqn:?
         | |- context [if seenOn ?c then _ else _] => destruct (seenOn c) eqn:?
         | H' : context [if typingOn ?c then _ else _] |- _ => destruct (typingOn c) eqn:?
         | H' : context [if seenOn ?c then _ else _] |- _ => destruct (seenOn c) eqn:?
         end;
  try discriminate;
  simpl in *.

Ltac among H :=
  repeat match type of H with
         | _ \/ _ => destruct H as [H|H]
         | False => destruct H
         | _ = _ => first [ discriminate H | injection H as ? ?; subst ]
         end.

Lemma shape_empty_history cs cl st es r :
  Shape cs cl st es ->
  In (Settled (callGetHistory cl) r) es ->
  getMessageHistory_returns r = [] ->
  count isGenerate es = 0 /\ count isNotifyHuman es = 0 /\
  (st = Completed -> In (Invoked (callGreeting cl)) es).
Proof.
  intros Hs Hin Hr.
  spell_out Hs; among Hin; try congruence;
    (split; [reflexivity|split; [reflexivity|]]); intros; try discriminate; simpl; tauto.
Qed.

Ltac settle_answers :=
  repeat match goal with
         | H : settles ?r = _ |- _ => destruct r; try discriminate H; clear H
         | H : generate_returns ?r = _ |- _ =>
             destruct r; try discriminate H; simpl in H;
             try (injection H as ? ?; subst)
         end.

Lemma apologyWhileTyping_sound es :
  forall shown,
    apologyWhileTyping shown es = false ->
    forall pre e post,
      es = pre ++ e :: post -> isApology e = true -> shownAfter shown pre = false.
Proof.
  induction es as [|e0 es IH]; intros shown Hscan pre e post Heq He.
  - by destruct pre.
  - simpl in Hscan. apply orb_false_elim in Hscan as [Hhere Hrest].
    destruct pre as [|e1 pre]; simpl in Heq; injection Heq as -> ->.
    + simpl. rewrite He in Hhere. by destruct shown.
    + simpl. eapply IH; eauto.
Qed.

Lemma shape_escalated cs cl es history text :
  Shape cs cl Completed es ->
  In (Settled (GenerateResponseWithEscalation history) (Generated text true)) es ->
  count isCustomerSend es = 0 /\
  count isNotifyHuman es = 1 /\
  (cs <> phoneNumber cl ->
   forall via text' sess', ~ In (Invoked (WahaSendText via (phoneNumber cl) text' sess')) es) /\
  (cs <> "" -> In (Invoked (callAlert cs cl history)) es).
Proof.
  intros Hs Hin.
  spell_out Hs; among Hin; simpl in *; try congruence;
    (split; [reflexivity|split; [reflexivity|split]]);
    try (intros Hne via text' sess' Hin'; among Hin'; congruence);
    try (intros Hne; simpl; tauto).
Qed.

Lemma shape_errors cs cl st es :
  Shape cs cl st es ->
  st <> Uncaught /\
  count isApology es <= 1 /\
  apologyWhileTyping false es = false /\
  (st = Completed ->
   (exists history r,
       In (Settled (GenerateResponseWithEscalation history) r) es /\
       generate_returns r = None)
   \/ 1 <= count isFailedResponse es ->
   count isApology es = 1 /\ In (Invoked (callApology cl)) es).
Proof.
  intros Hs.
  spell_out Hs;
    (split; [discriminate|split; [unfold count; simpl; lia|split; [reflexivity|]]]);
    intros Hst; try discriminate Hst;
    intros [(hist0 & ans0 & Hin & Hret)|Hfail];
    try (among Hin; simpl in *; congruence);
    try (split; [reflexivity|simpl; tauto]);
    settle_answers; unfold count in *; simpl in *; try lia.
Qed.

Lemma shape_typing cs cl es :
  Shape cs cl Completed es ->
  count isTypingStart es <= 1 /\
  count isFailedResponse es <= 1 /\
  (1 <= count isTypingStart es ->
   count isTypingStop es = 1 + count isFailedResponse es /\
   typingShown es = false).
Proof.
  intros Hs.
  spell_out Hs; settle_answers; unfold count; simpl;
    (split; [lia|split; [lia|]]); intros Hstart; try lia; split; reflexivity.
Qed.

(** ** What a turn leaves alone *)

Lemma took_closure handle g t w handle' g' :
  timers w !! handle = Some g ->
  timers w !! handle' = Some g' ->
  exists g'', timers (took handle g t w) !! handle' = Some g'' /\ closure g'' = closure g'.
Proof.
  intros Hg Hg'. simpl. destruct (decide (handle = handle')) as [<-|Hne].
  - rewrite list_lookup_insert_eq by (by eapply lookup_lt_Some).
    eexists; split; [done|]. simpl. congruence.
  - rewrite list_lookup_insert_ne by done. by eauto.
Qed.

Lemma clearTimeout_closure handle ts handle' g :
  ts !! handle' = Some g ->
  exists g', clearTimeout handle ts !! handle' = Some g' /\ closure g' = closure g.
Proof.
  intros Hg. unfold clearTimeout. destruct (ts !! handle) as [g1|] eqn:H1; [|by eauto].
  destruct (status g1); try by eauto.
  destruct (decide (handle = handle')) as [<-|Hne].
  - rewrite list_lookup_insert_eq by (by eapply lookup_lt_Some).
    eexists; split; [done|]. simpl. congruence.
  - rewrite list_lookup_insert_ne by done. by eauto.
Qed.

Lemma step_closure w a handle g :
  timers w !! handle = Some g ->
  exists g', timers (step w a) !! handle = Some g' /\ closure g' = closure g.
Proof.
  intros Hg. destruct a; simpl; try by eauto.
  - unfold processIncomingMessage.
    destruct (negb _); [by eauto|]. destruct (isConversationEscalated _ _ _); [by eauto|].
    destruct (truthy _); [by eauto|]. simpl.
    destruct (pendingMessageTimeouts (service w) !! phone) as [t|].
    + destruct (clearTimeout_closure t _ _ _ Hg) as (g' & Hg' & Hcl).
      exists g'. split; [|done]. by apply lookup_app_l_Some.
    + exists g. split; [|done]. by apply lookup_app_l_Some.
  - unfold timerExpires. destruct (timers w !! handle0) as [g0|] eqn:Hg0; [|by eauto].
    destruct (status g0); try by eauto. by apply took_closure.
  - unfold promiseSettles. destruct (timers w !! handle0) as [g0|] eqn:Hg0; [|by eauto].
    destruct (status g0); try by eauto. by apply took_closure.
Qed.

Lemma run_closure actions w handle g :
  timers w !! handle = Some g ->
  exists g', timers (run w actions) !! handle = Some g' /\ closure g' = closure g.
Proof.
  revert w g. induction actions as [|a actions IH]; intros w g Hg; [by eauto|].
  simpl. destruct (step_closure w a _ _ Hg) as (g1 & Hg1 & Hcl1).
  destruct (IH _ _ Hg1) as (g2 & Hg2 & Hcl2). exists g2. split; [done|congruence].
Qed.

Lemma trace_took handle g t w :
  trace (took handle g t w) = trace w ++ map (pair handle) (emitted t).
Proof. done. Qed.

(** ** The turn that calls [notifyHumanAgent] sets the flag *)

Lemma isConversationEscalated_set phone sess o :
  isConversationEscalated phone sess (setConversationEscalated phone sess true o) = true.
Proof. unfold isConversationEscalated. simpl. by rewrite lookup_insert_eq. Qed.

Lemma resume_notifies cs cl k r o :
  1 <= count isNotifyHuman (emitted (resume cs cl k r o)) ->
  isConversationEscalated (phoneNumber cl) (session cl) (after (resume cs cl k r o)) = true.
Proof.
  assert (Hesc : forall history text escalate,
             1 <= count isNotifyHuman (emitted (from_escalate cs cl history text escalate o)) ->
             isConversationEscalated (phoneNumber cl) (session cl)
               (after (from_escalate cs cl history text escalate o)) = true).
  { intros history text escalate. unfold from_escalate, from_notifyHumanAgent.
    destruct escalate; [|unfold count; simpl; lia].
    intros _. case_bool_decide; simpl; apply isConversationEscalated_set. }
  destruct k; simpl;
    rewrite ?sendSeenStatus_never_throws, ?startTyping_never_throws,
      ?stopTyping_never_throws, ?notifyHumanAgent_never_throws,
      ?sendErrorResponse_never_throws, ?sendResponse_rethrows;
    unfold from_typing, from_getHistory, from_greeting, from_greetingSend,
      from_catch, from_sendErrorResponse;
    repeat case_match; try (unfold count; simpl; lia); try apply Hesc.
Qed.

Lemma expire_never_notifies cl o : count isNotifyHuman (emitted (expire cl o)) = 0.
Proof.
  unfold expire, from_seen, from_typing, from_getHistory.
  by repeat case_match.
Qed.

Lemma escalation_moment cs actions handle :
  1 <= count isNotifyHuman (doings handle (trace (run (boot cs) actions))) ->
  exists pre r post g,
    actions = pre ++ PromiseSettles handle r :: post /\
    timers (run (boot cs) (pre ++ [PromiseSettles handle r])) !! handle = Some g /\
    count isNotifyHuman (doings handle (trace (run (boot cs) pre))) = 0 /\
    isConversationEscalated (phoneNumber (closure g)) (session (closure g))
      (service (run (boot cs) (pre ++ [PromiseSettles handle r]))) = true.
Proof.
  induction actions as [|a actions IH] using rev_ind; [unfold count; simpl; lia|].
  intros Hn.
  destruct (count isNotifyHuman (doings handle (trace (run (boot cs) actions)))) as [|n] eqn:Hbefore.
  - clear IH. rewrite run_snoc in Hn. set (w := run (boot cs) actions) in *.
    destruct a; simpl in Hn; try (rewrite Hbefore in Hn; lia).
    + exfalso. revert Hn. unfold processIncomingMessage. repeat case_match; simpl; lia.
    + exfalso. revert Hn. unfold timerExpires.
      destruct (timers w !! handle0) as [g|]; [|lia].
      destruct (status g); try lia. simpl.
      rewrite doings_app, count_app, Hbefore. simpl.
      destruct (decide (handle0 = handle)) as [->|Hne].
      * rewrite doings_own, expire_never_notifies. lia.
      * rewrite doings_other by done. unfold count; simpl; lia.
    + revert Hn. unfold promiseSettles at 1.
      destruct (timers w !! handle0) as [g|] eqn:Hg; [|lia].
      destruct (status g) eqn:Hst; try lia.
      rewrite trace_took, doings_app, count_app, Hbefore.
      destruct (decide (handle0 = handle)) as [->|Hne].
      * rewrite doings_own. simpl. intros Hn. exists actions, r, [].
        eexists {| closure := closure g; status := _ |}.
        split; [done|]. rewrite run_snoc. fold w. split; [|split; [done|]].
        -- simpl. unfold promiseSettles. rewrite Hg, Hst. simpl.
           by rewrite list_lookup_insert_eq by (by eapply lookup_lt_Some).
        -- simpl. unfold promiseSettles. rewrite Hg, Hst. simpl.
           apply resume_notifies. exact Hn.
      * rewrite doings_other by done. unfold count; simpl; lia.
  - destruct IH as (pre & r & post & g & -> & Hg & H0 & Hflag); [lia|].
    exists pre, r, (post ++ [a]), g. rewrite <- app_assoc. simpl. done.
Qed.

(** * The properties of the specification *)

(** ** Orchestration settings *)

(** C5, as written, fails: with the global switch off, a per-chat override
    that enables the chat does not win. *)
Lemma override_loses_to_global_switch :
  let s := AiSettingsService.setChatOrchestrator customer true
             (AiSettingsService.setGlobalOrchestrator false AiSettingsService.initial) in
  AiSettingsService.chatOverrides s !! customer = Some true /\
  AiSettingsService.isOrchestratorEnabled s (Some customer) = false /\
  AiSettingsService.isOrchestratorEnabled s (Some customer)
    <> AiSettingsService.enabled_as_specified s customer.
Proof. vm_compute. repeat split; discriminate. Qed.

(** C5, amended: [isOrchestratorEnabled] is false whenever the global switch is
    off; while the switch is on, an override present for a non-empty key
    decides; and where no override is present the global switch decides. *)
Theorem isOrchestratorEnabled_global_then_override s key :
  (AiSettingsService.orchestratorEnabled s = false ->
   AiSettingsService.isOrchestratorEnabled s (Some key) = false) /\
  (AiSettingsService.orchestratorEnabled s = true -> key <> "" ->
   forall override,
     AiSettingsService.chatOverrides s !! key = Some override ->
     AiSettingsService.isOrchestratorEnabled s (Some key) = override) /\
  (AiSettingsService.chatOverrides s !! key = None ->
   AiSettingsService.isOrchestratorEnabled s (Some key)
   = AiSettingsService.orchestratorEnabled s).
Proof.
  unfold AiSettingsService.isOrchestratorEnabled. repeat split.
  - by intros ->.
  - intros -> Hkey override ->. simpl. by rewrite bool_decide_eq_false_2.
  - intros ->. destruct (AiSettingsService.orchestratorEnabled s); simpl; [|done].
    by case_bool_decide.
Qed.

Lemma isOrchestratorEnabled_global_then_override_witness :
  let s := AiSettingsService.setChatOrchestrator customer false AiSettingsService.initial in
  AiSettingsService.isOrchestratorEnabled s (Some customer) = false.
Proof.
  intros s.
  destruct (isOrchestratorEnabled_global_then_override s customer) as (_ & Hoverride & _).
  apply Hoverride; [reflexivity|discriminate|vm_compute; reflexivity].
Defined.

(** ** Submissions that are refused *)

(** C8: while the conversation is escalated, or orchestration is disabled
    (globally or for the chat), [processIncomingMessage] returns the world it
    was given: no token is minted, no timer is started or cleared, nothing is
    called. *)
Theorem refused_submission_changes_nothing phone sess cfg pid w :
  isConversationEscalated phone sess (service w) = true \/
  AiSettingsService.isOrchestratorEnabled (aiSettings w) (Some phone) = false ->
  step w (IncomingMessage phone sess cfg pid) = w.
Proof.
  intros H. simpl. unfold processIncomingMessage.
  destruct (AiSettingsService.isOrchestratorEnabled _ _); simpl; [|done].
  destruct H as [->|H]; done.
Qed.

Lemma refused_submission_changes_nothing_witness :
  let w := run (boot operator) run_escalation in
  step w (IncomingMessage customer "default" emptyConfig "1700000009999.5") = w.
Proof.
  intros w. apply refused_submission_changes_nothing. left. vm_compute. reflexivity.
Defined.

(** C10: with [config.skipAiResponse] set, [processIncomingMessage] returns the
    world it was given; the three maps and every timer are as before, so no
    pipeline in flight is superseded or cancelled. *)
Theorem skipped_submission_changes_nothing phone sess cfg pid w :
  skipAiResponse cfg = Some true ->
  step w (IncomingMessage phone sess cfg pid) = w.
Proof.
  intros H. simpl. unfold processIncomingMessage. rewrite H. simpl.
  by repeat case_match.
Qed.

Lemma skipped_submission_changes_nothing_witness :
  let w := run (boot operator) (opening "1700000000000.1" 0) in
  let cfg := {| sendSeenStatus := None; showTypingIndicator := None;
                skipAiResponse := Some true |} in
  step w (IncomingMessage customer "default" cfg "1700000009999.5") = w.
Proof.
  intros w cfg. apply skipped_submission_changes_nothing. reflexivity.
Defined.

(** ** One pipeline execution *)

Ltac found := repeat (try (left; reflexivity); right).

(** After an empty history the greeting is on its way: it has been handed to
    [sendText], or the callback awaits the [stopTyping] that precedes it. *)
Lemma shape_greeting_due cs cl st es r :
  Shape cs cl st es ->
  In (Settled (callGetHistory cl) r) es ->
  getMessageHistory_returns r = [] ->
  In (Invoked (callGreeting cl)) es \/
  (typingOn cl = true /\ st = Awaiting (callStopTyping cl) KGreetingStop).
Proof.
  intros Hs Hin Hr.
  spell_out Hs; among Hin; try congruence;
    first [ left; simpl; tauto | right; split; reflexivity ].
Qed.

(** The turn that resumes the callback after that [stopTyping] hands the
    greeting to [sendText], however the promise settled. *)
Lemma greeting_after_stopTyping w handle g r :
  timers w !! handle = Some g ->
  status g = Awaiting (callStopTyping (closure g)) KGreetingStop ->
  In (Invoked (callGreeting (closure g)))
     (doings handle (trace (step w (PromiseSettles handle r)))).
Proof.
  intros Hg Hst. simpl. unfold promiseSettles. rewrite Hg, Hst.
  rewrite trace_took, doings_app, doings_own. apply in_or_app. right.
  simpl. rewrite stopTyping_never_throws. simpl. tauto.
Qed.

(** C9: when the history comes back empty, the generator is never called and
    [notifyHumanAgent] is never entered, and the default greeting is sent to
    the customer: in the turn in which the empty history arrives when the
    typing indicator is off, and otherwise in the turn in which the
    [stopTyping] that precedes it settles, however it settles.  So at any
    moment after the empty history the greeting has been handed to
    [sendText], or the callback is awaiting that [stopTyping] and hands it
    over in its very next turn; a callback that has returned has sent it. *)
Theorem empty_history_sends_greeting cs actions handle g r :
  timers (run (boot cs) actions) !! handle = Some g ->
  In (Settled (GetMessageHistory (phoneNumber (closure g))) r)
     (doings handle (trace (run (boot cs) actions))) ->
  getMessageHistory_returns r = [] ->
  count isGenerate (doings handle (trace (run (boot cs) actions))) = 0 /\
  count isNotifyHuman (doings handle (trace (run (boot cs) actions))) = 0 /\
  (In (Invoked (WahaSendText SendResponse (phoneNumber (closure g)) defaultGreeting
                  (session (closure g))))
      (doings handle (trace (run (boot cs) actions))) \/
   (notFalse (showTypingIndicator (config (closure g))) = true /\
    status g = Awaiting (WahaStopTyping (phoneNumber (closure g)) (session (closure g)))
                 KGreetingStop /\
    forall r',
      In (Invoked (WahaSendText SendResponse (phoneNumber (closure g)) defaultGreeting
                     (session (closure g))))
         (doings handle
            (trace (step (run (boot cs) actions) (PromiseSettles handle r')))))) /\
  (status g = Completed \/ notFalse (showTypingIndicator (config (closure g))) = false ->
   In (Invoked (WahaSendText SendResponse (phoneNumber (closure g)) defaultGreeting
                  (session (closure g))))
      (doings handle (trace (run (boot cs) actions)))).
Proof.
  intros Hg Hin Hr. pose proof (callback_shape _ _ _ _ Hg) as Hs.
  destruct (shape_empty_history _ _ _ _ _ Hs Hin Hr) as (Hgen & Hnotify & _).
  pose proof (shape_greeting_due _ _ _ _ _ Hs Hin Hr) as Hdue.
  split; [done|]. split; [done|]. split.
  - destruct Hdue as [Hsent|[Hon Hst]]; [by left|right].
    split; [done|]. split; [done|].
    intros r'. by apply greeting_after_stopTyping.
  - intros Hwhen. destruct Hdue as [Hsent|[Hon Hst]]; [done|].
    destruct Hwhen as [Hdone|Hoff]; [congruence|].
    unfold typingOn in Hon. congruence.
Qed.

Lemma empty_history_sends_greeting_witness :
  count isGenerate (doings 0 (trace (run (boot operator) run_greeting))) = 0 /\
  count isNotifyHuman (doings 0 (trace (run (boot operator) run_greeting))) = 0 /\
  In (Invoked (WahaSendText SendResponse customer defaultGreeting "default"))
     (doings 0 (trace (run (boot operator) run_greeting))).
Proof.
  destruct (empty_history_sends_greeting operator run_greeting 0
              {| closure := {| phoneNumber := customer; session := "default";
                               config := emptyConfig; processId := "1700000000000.1" |};
                 status := Completed |} (History []))
    as (Hgen & Hnotify & _ & Hsent).
  - vm_compute. reflexivity.
  - vm_compute. found.
  - reflexivity.
  - split; [assumption|]. split; [assumption|]. apply Hsent. left. reflexivity.
Defined.

(** C6: an execution whose generator call returned [escalate = true] sends
    nothing through [sendResponse] or [sendErrorResponse] (so, unless the
    operator's chat id is the customer's, no [sendText] goes to the customer
    at all), enters [notifyHumanAgent] exactly once (which sends the alert
    when an operator chat id is configured), and the turn in which it does so
    leaves the conversation escalated. *)
Theorem escalation_notifies_instead_of_replying cs actions handle g history text :
  timers (run (boot cs) actions) !! handle = Some g ->
  status g = Completed ->
  In (Settled (GenerateResponseWithEscalation history) (Generated text true))
     (doings handle (trace (run (boot cs) actions))) ->
  count isCustomerSend (doings handle (trace (run (boot cs) actions))) = 0 /\
  (cs <> phoneNumber (closure g) ->
   forall via text' sess',
     ~ In (Invoked (WahaSendText via (phoneNumber (closure g)) text' sess'))
          (doings handle (trace (run (boot cs) actions)))) /\
  count isNotifyHuman (doings handle (trace (run (boot cs) actions))) = 1 /\
  (cs <> "" ->
   In (Invoked (WahaSendText NotifyHumanAgent cs
                  (escalationAlert (phoneNumber (closure g)) (session (closure g)) history)
                  (session (closure g))))
      (doings handle (trace (run (boot cs) actions)))) /\
  exists pre r post,
    actions = pre ++ PromiseSettles handle r :: post /\
    count isNotifyHuman (doings handle (trace (run (boot cs) pre))) = 0 /\
    isConversationEscalated (phoneNumber (closure g)) (session (closure g))
      (service (run (boot cs) (pre ++ [PromiseSettles handle r]))) = true.
Proof.
  intros Hg Hst Hin. pose proof (callback_shape _ _ _ _ Hg) as Hs. rewrite Hst in Hs.
  destruct (shape_escalated _ _ _ _ _ Hs Hin) as (Hnone & Hnotify & Hother & Halert).
  split; [done|]. split; [done|]. split; [done|]. split; [done|].
  destruct (escalation_moment cs actions handle) as (pre & r & post & g' & -> & Hg' & H0 & Hflag);
    [lia|].
  exists pre, r, post. split; [done|]. split; [done|].
  replace (pre ++ PromiseSettles handle r :: post)
    with ((pre ++ [PromiseSettles handle r]) ++ post) in Hg
    by (by rewrite <- app_assoc).
  rewrite run_app in Hg.
  destruct (run_closure post _ _ _ Hg') as (g'' & Hg'' & Hcl).
  rewrite Hg in Hg''. injection Hg'' as <-. by rewrite Hcl.
Qed.

Lemma escalation_notifies_instead_of_replying_witness :
  count isCustomerSend (doings 0 (trace (run (boot operator) run_escalation))) = 0 /\
  count isNotifyHuman (doings 0 (trace (run (boot operator) run_escalation))) = 1.
Proof.
  destruct (escalation_notifies_instead_of_replying operator run_escalation 0
              {| closure := {| phoneNumber := customer; session := "default";
                               config := emptyConfig; processId := "1700000000000.1" |};
                 status := Completed |} [hello] "sebaiknya hubungi kantor bpjs")
    as (Hnone & _ & Hnotify & _ & _).
  - vm_compute. reflexivity.
  - reflexivity.
  - vm_compute. found.
  - split; assumption.
Defined.

(** C7: whatever the collaborators answer, the callback never ends with an
    uncaught exception; it sends the apology at most once, and never while the
    typing indicator is still shown; and when the generator throws or a
    [sendResponse] is rejected, the completed execution has sent the apology
    exactly once. *)
Theorem errors_end_in_one_apology cs actions handle g :
  timers (run (boot cs) actions) !! handle = Some g ->
  status g <> Uncaught /\
  count isApology (doings handle (trace (run (boot cs) actions))) <= 1 /\
  (forall pre e post,
      doings handle (trace (run (boot cs) actions)) = pre ++ e :: post ->
      isApology e = true -> typingShown pre = false) /\
  (status g = Completed ->
   (exists history r,
       In (Settled (GenerateResponseWithEscalation history) r)
          (doings handle (trace (run (boot cs) actions))) /\
       generate_returns r = None)
   \/ 1 <= count isFailedResponse (doings handle (trace (run (boot cs) actions))) ->
   count isApology (doings handle (trace (run (boot cs) actions))) = 1 /\
   In (Invoked (WahaSendText SendErrorResponse (phoneNumber (closure g)) errorMessage
                  (session (closure g))))
      (doings handle (trace (run (boot cs) actions)))).
Proof.
  intros Hg. apply callback_shape in Hg.
  destruct (shape_errors _ _ _ _ Hg) as (Hcaught & Hmost & Hscan & Hsent).
  split; [done|]. split; [done|]. split; [|done].
  intros pre e post Heq He. by eapply apologyWhileTyping_sound.
Qed.

Lemma errors_end_in_one_apology_witness :
  count isApology (doings 0 (trace (run (boot operator) run_failedReply))) = 1.
Proof.
  destruct (errors_end_in_one_apology operator run_failedReply 0
              {| closure := {| phoneNumber := customer; session := "default";
                               config := emptyConfig; processId := "1700000000000.1" |};
                 status := Completed |})
    as (_ & _ & _ & Hsent).
  - vm_compute. reflexivity.
  - assert (Hfailed : 1 <= count isFailedResponse
                        (doings 0 (trace (run (boot operator) run_failedReply))))
      by (vm_compute; lia).
    exact (proj1 (Hsent eq_refl (or_intror Hfailed))).
Defined.

(** C2, as written, fails: when the reply's [sendText] is rejected, typing
    has already been stopped once and the [catch] block stops it again. *)
Lemma failed_reply_stops_typing_twice :
  status <$> timers (run (boot operator) run_failedReply) !! 0 = Some Completed /\
  count isTypingStart (doings 0 (trace (run (boot operator) run_failedReply))) = 1 /\
  count isTypingStop (doings 0 (trace (run (boot operator) run_failedReply))) = 2 /\
  ~ StoppedExactlyOnce (doings 0 (trace (run (boot operator) run_failedReply))).
Proof.
  split; [vm_compute; reflexivity|]. split; [vm_compute; reflexivity|].
  split; [vm_compute; reflexivity|].
  unfold StoppedExactlyOnce. vm_compute. intros H. specialize (H (le_n 1)). discriminate H.
Qed.

(** C2, amended: a completed execution that started typing started it once,
    ends with the indicator off, and stopped typing once, plus once more when
    its [sendResponse] was rejected after typing had been stopped. *)
Theorem typing_stop_follows_typing_start cs actions handle g :
  timers (run (boot cs) actions) !! handle = Some g ->
  status g = Completed ->
  1 <= count isTypingStart (doings handle (trace (run (boot cs) actions))) ->
  count isTypingStart (doings handle (trace (run (boot cs) actions))) = 1 /\
  count isFailedResponse (doings handle (trace (run (boot cs) actions))) <= 1 /\
  count isTypingStop (doings handle (trace (run (boot cs) actions)))
  = 1 + count isFailedResponse (doings handle (trace (run (boot cs) actions))) /\
  typingShown (doings handle (trace (run (boot cs) actions))) = false.
Proof.
  intros Hg Hst Hstart. apply callback_shape in Hg. rewrite Hst in Hg.
  destruct (shape_typing _ _ _ Hg) as (H1 & H2 & H3).
  destruct (H3 Hstart) as [H4 H5]. repeat split; try done. lia.
Qed.

Lemma typing_stop_follows_typing_start_witness :
  count isTypingStop (doings 0 (trace (run (boot operator) run_greeting)))
  = 1 + count isFailedResponse (doings 0 (trace (run (boot operator) run_greeting))).
Proof.
  destruct (typing_stop_follows_typing_start operator run_greeting 0
              {| closure := {| phoneNumber := customer; session := "default";
                               config := emptyConfig; processId := "1700000000000.1" |};
                 status := Completed |})
    as (_ & _ & Hstop & _).
  - vm_compute. reflexivity.
  - reflexivity.
  - vm_compute. lia.
  - exact Hstop.
Defined.

(** ** What the callback does to the maps *)

Lemma from_escalate_maps cs cl history text escalate o :
  pendingMessageTimeouts (after (from_escalate cs cl history text escalate o))
  = pendingMessageTimeouts o /\
  activeProcessIds (after (from_escalate cs cl history text escalate o))
  = activeProcessIds o.
Proof.
  unfold from_escalate, from_notifyHumanAgent.
  destruct escalate; [case_bool_decide|]; done.
Qed.

(** After its first turn the callback writes neither [pendingMessageTimeouts]
    nor [activeProcessIds]. *)
Lemma resume_maps cs cl k r o :
  pendingMessageTimeouts (after (resume cs cl k r o)) = pendingMessageTimeouts o /\
  activeProcessIds (after (resume cs cl k r o)) = activeProcessIds o.
Proof.
  destruct k; simpl;
    rewrite ?sendSeenStatus_never_throws, ?startTyping_never_throws,
      ?stopTyping_never_throws, ?notifyHumanAgent_never_throws,
      ?sendErrorResponse_never_throws, ?sendResponse_rethrows;
    unfold from_typing, from_getHistory, from_greeting, from_greetingSend,
      from_catch, from_sendErrorResponse;
    repeat case_match; try done; apply from_escalate_maps.
Qed.

Lemma expire_active cl o : activeProcessIds (after (expire cl o)) = activeProcessIds o.
Proof. unfold expire, from_seen, from_typing, from_getHistory. by repeat case_match. Qed.

Lemma expire_pending cl o :
  pendingMessageTimeouts (after (expire cl o))
  = if isCurrent cl o then delete (phoneNumber cl) (pendingMessageTimeouts o)
    else pendingMessageTimeouts o.
Proof.
  unfold expire, from_seen, from_typing, from_getHistory.
  destruct (isCurrent cl o); simpl; by repeat case_match.
Qed.

Lemma expire_started cl o : next (expire cl o) <> Pending /\ next (expire cl o) <> Cleared.
Proof.
  unfold expire, from_seen, from_typing, from_getHistory. by repeat case_match.
Qed.

Lemma resume_started cs cl k r o :
  next (resume cs cl k r o) <> Pending /\ next (resume cs cl k r o) <> Cleared.
Proof.
  destruct k; simpl;
    rewrite ?sendSeenStatus_never_throws, ?startTyping_never_throws,
      ?stopTyping_never_throws, ?notifyHumanAgent_never_throws,
      ?sendErrorResponse_never_throws, ?sendResponse_rethrows;
    unfold from_typing, from_getHistory, from_greeting, from_greetingSend,
      from_catch, from_sendErrorResponse, from_escalate, from_notifyHumanAgent;
    by repeat case_match.
Qed.

(** ** Escalation and the scheduler's maps *)

(** C3: the code does not do what the claim says, and so breaks what its own
    comments promise for an escalated conversation (the AI is silent; no AI
    answer is sent to the user).  A second message arrives while the
    generator works on the first, and the first callback then escalates.  In
    the very turn in which the flag is set, the second message's timer stays
    armed and its token stays the current one; the timer later expires,
    passes both currency checks and sends a generated reply to the customer
    of the escalated conversation. *)
Lemma escalation_cancels_nothing :
  let before :=
    run (boot operator)
      (run_overtaken ++
       [PromiseSettles 0 (Generated "sebaiknya hubungi kantor bpjs" true)]) in
  let w := step before (PromiseSettles 0 Fulfilled) in
  let w' := run (boot operator) run_replyAfterEscalation in
  (isConversationEscalated customer "default" (service before) = false /\
   count isNotifyHuman (doings 0 (trace before)) = 0 /\
   pendingMessageTimeouts (service before) !! customer = Some 1 /\
   status <$> timers before !! 1 = Some Pending) /\
  (w = run (boot operator) run_escalatedWhileArmed /\
   isConversationEscalated customer "default" (service w) = true /\
   count isNotifyHuman (doings 0 (trace w)) = 1 /\
   pendingMessageTimeouts (service w) !! customer = Some 1 /\
   status <$> timers w !! 1 = Some Pending /\
   activeProcessIds (service w) !! customer = Some "1700000004000.2" /\
   processId <$> (closure <$> timers w !! 1) = Some "1700000004000.2") /\
  (isConversationEscalated customer "default" (service w') = true /\
   status <$> timers w' !! 1 = Some Completed /\
   count isCustomerSend (doings 1 (trace w')) = 1 /\
   In (Invoked (WahaSendText SendResponse customer "ada yang bisa dibantu?" "default"))
      (doings 1 (trace w'))).
Proof. vm_compute. repeat split; try reflexivity. found. Qed.

(** ** The keys of the scheduler's maps *)

(** C4, as written, fails: the same phone number under a second session
    replaces the first session's token and clears its timer; nothing is
    stored under the composite key. *)
Lemma second_session_replaces_first :
  let w := run (boot operator) run_twoSessions in
  session <$> (closure <$> timers w !! 0) = Some "sales" /\
  status <$> timers w !! 0 = Some Cleared /\
  activeProcessIds (service w) !! customer = Some "1700000001000.2" /\
  pendingMessageTimeouts (service w) !! customer = Some 1 /\
  activeProcessIds (service w) !! makeEscalationKey customer "sales" = None /\
  pendingMessageTimeouts (service w) !! makeEscalationKey customer "sales" = None.
Proof. vm_compute. repeat split; reflexivity. Qed.

Lemma clearTimeout_armed handle ts g :
  ts !! handle = Some g -> status g = Pending ->
  status <$> clearTimeout handle ts !! handle = Some Cleared.
Proof.
  intros Hg Hst. unfold clearTimeout. rewrite Hg, Hst.
  by rewrite list_lookup_insert_eq by (by eapply lookup_lt_Some).
Qed.

(** C4, amended: [activeProcessIds] and [pendingMessageTimeouts] are keyed by
    the phone number alone.  An accepted submission records its token and its
    timer under its phone number and clears the timer pending there, whatever
    session that one was started for; the entries of other phone numbers and
    the escalation map are left as they are. *)
Theorem scheduler_maps_keyed_by_phone phone sess cfg pid w :
  accepted phone sess cfg w = true ->
  activeProcessIds (service (step w (IncomingMessage phone sess cfg pid))) !! phone
  = Some pid /\
  pendingMessageTimeouts (service (step w (IncomingMessage phone sess cfg pid))) !! phone
  = Some (length (timers w)) /\
  timers (step w (IncomingMessage phone sess cfg pid)) !! length (timers w)
  = Some {| closure := {| phoneNumber := phone; session := sess;
                          config := cfg; processId := pid |};
            status := Pending |} /\
  (forall earlier g,
      pendingMessageTimeouts (service w) !! phone = Some earlier ->
      timers w !! earlier = Some g ->
      status g = Pending ->
      status <$> timers (step w (IncomingMessage phone sess cfg pid)) !! earlier
      = Some Cleared) /\
  (forall phone',
      phone' <> phone ->
      activeProcessIds (service (step w (IncomingMessage phone sess cfg pid))) !! phone'
      = activeProcessIds (service w) !! phone' /\
      pendingMessageTimeouts (service (step w (IncomingMessage phone sess cfg pid))) !! phone'
      = pendingMessageTimeouts (service w) !! phone') /\
  escalatedConversations (service (step w (IncomingMessage phone sess cfg pid)))
  = escalatedConversations (service w).
Proof.
  unfold accepted. intros [[Hen Hesc]%andb_prop Hskip]%andb_prop.
  apply negb_true_iff in Hesc, Hskip.
  simpl. unfold processIncomingMessage. rewrite Hen, Hesc, Hskip. simpl.
  set (ts := match pendingMessageTimeouts (service w) !! phone with
             | Some t => clearTimeout t (timers w) | None => timers w end).
  assert (Hlen : length ts = length (timers w)).
  { subst ts. destruct (_ !! phone); [apply clearTimeout_length|done]. }
  split; [by rewrite lookup_insert_eq|].
  split; [by rewrite lookup_insert_eq, Hlen|].
  split.
  { rewrite <- Hlen. rewrite lookup_app_r by lia. by rewrite Nat.sub_diag. }
  split.
  { intros earlier g Hp Hg Hst. subst ts. rewrite Hp.
    pose proof (clearTimeout_armed _ _ _ Hg Hst) as Hc.
    destruct (clearTimeout earlier (timers w) !! earlier) as [g'|] eqn:Hg'; [|done].
    by rewrite (lookup_app_l_Some _ _ _ _ Hg'). }
  split; [|done].
  intros phone' Hne. by rewrite !lookup_insert_ne.
Qed.

Lemma scheduler_maps_keyed_by_phone_witness :
  activeProcessIds
    (service (step (run (boot operator) [IncomingMessage customer "sales" emptyConfig "1700000000000.1"])
                   (IncomingMessage customer "support" emptyConfig "1700000001000.2")))
    !! customer
  = Some "1700000001000.2".
Proof.
  refine (proj1 (scheduler_maps_keyed_by_phone customer "support" emptyConfig
                   "1700000001000.2" _ _)).
  vm_compute. reflexivity.
Defined.

(** ** Armed timers and current tokens *)

Lemma clearTimeout_disarms handle ts g :
  clearTimeout handle ts !! handle = Some g -> status g <> Pending.
Proof.
  unfold clearTimeout. destruct (ts !! handle) as [g1|] eqn:H1; [|congruence].
  destruct (status g1) eqn:Hst; try congruence.
  rewrite list_lookup_insert_eq by (by eapply lookup_lt_Some). by intros [= <-].
Qed.

Lemma took_lookup handle g t w handle' g' :
  timers w !! handle = Some g ->
  timers (took handle g t w) !! handle' = Some g' ->
  (handle' = handle /\ g' = {| closure := closure g; status := next t |}) \/
  (handle' <> handle /\ timers w !! handle' = Some g').
Proof.
  intros Hg. simpl. destruct (decide (handle = handle')) as [<-|Hne].
  - rewrite list_lookup_insert_eq by (by eapply lookup_lt_Some). intros [= <-]. by left.
  - rewrite list_lookup_insert_ne by done. intros. right. by split.
Qed.

Lemma armed_boot cs : ArmedIsPending (boot cs).
Proof. intros handle g Hg. by destruct handle. Qed.

Lemma armed_step w a : ArmedIsPending w -> ArmedIsPending (step w a).
Proof.
  intros Harm. destruct a; simpl; try exact Harm.
  - unfold processIncomingMessage.
    destruct (negb _); [done|]. destruct (isConversationEscalated _ _ _); [done|].
    destruct (truthy _); [done|].
    intros handle g. simpl. intros Hg Hst.
    apply lookup_app_Some in Hg as [Hg|[Hge Hg]].
    + assert (exists g0, timers w !! handle = Some g0 /\ closure g = closure g0 /\
                         status g0 = Pending /\
                         (pendingMessageTimeouts (service w) !! phone <> Some handle))
        as (g0 & Hg0 & Hcl & Hst0 & Hnot).
      { destruct (pendingMessageTimeouts (service w) !! phone) as [t|] eqn:Hp.
        - destruct (clearTimeout_lookup _ _ _ _ Hg) as (g0 & Hg0 & Hcl & Hs).
          exists g0. destruct Hs as [Hs|(_ & _ & Hs)]; [|congruence].
          repeat split; try congruence.
          intros [= ->]. by apply clearTimeout_disarms in Hg.
        - exists g. by repeat split. }
      rewrite Hcl. specialize (Harm _ _ Hg0 Hst0).
      destruct (decide (phoneNumber (closure g0) = phone)) as [Heq|Hne].
      * rewrite Heq in Harm. congruence.
      * by rewrite lookup_insert_ne.
    + apply list_lookup_singleton_Some in Hg as [Hz <-]. simpl.
      rewrite lookup_insert_eq. f_equal. lia.
  - unfold timerExpires. destruct (timers w !! handle) as [g|] eqn:Hg; [|done].
    destruct (status g) eqn:Hst; try done.
    intros handle' g' Hg' Hst'.
    apply (took_lookup _ _ _ _ _ _ Hg) in Hg' as [[-> ->]|[Hne Hg']].
    + simpl in Hst'. by apply expire_started in Hst'.
    + simpl. rewrite expire_pending. pose proof (Harm _ _ Hg' Hst') as Hp.
      destruct (isCurrent (closure g) (service w)); [|done].
      rewrite lookup_delete_ne; [done|].
      intros Heq. rewrite <- Heq in Hp. rewrite (Harm _ _ Hg Hst) in Hp. congruence.
  - unfold promiseSettles. destruct (timers w !! handle) as [g|] eqn:Hg; [|done].
    destruct (status g) eqn:Hst; try done.
    intros handle' g' Hg' Hst'.
    apply (took_lookup _ _ _ _ _ _ Hg) in Hg' as [[-> ->]|[Hne Hg']].
    + simpl in Hst'. by apply resume_started in Hst'.
    + simpl.
      destruct (resume_maps (humanCsWhatsappId w) (closure g) k r (service w)) as [-> _].
      by apply Harm.
Qed.

Lemma armed_run w actions : ArmedIsPending w -> ArmedIsPending (run w actions).
Proof.
  revert w. induction actions as [|a actions IH]; intros w H; [done|].
  simpl. by apply IH, armed_step.
Qed.

Lemma latest_boot cs : LatestIsActive (boot cs).
Proof. intros handle g Hg. by destruct handle. Qed.

Lemma latest_took handle g t w :
  timers w !! handle = Some g ->
  activeProcessIds (after t) = activeProcessIds (service w) ->
  LatestIsActive w -> LatestIsActive (took handle g t w).
Proof.
  intros Hg Hact Hlat handle1 g1 Hg1 Hnewest. simpl. rewrite Hact.
  assert (exists g0, timers w !! handle1 = Some g0 /\ closure g1 = closure g0)
    as (g0 & Hg0 & Hcl).
  { apply (took_lookup _ _ _ _ _ _ Hg) in Hg1 as [[-> ->]|[_ Hg1]]; by eauto. }
  rewrite Hcl. apply (Hlat _ _ Hg0).
  intros handle' g' Hlt Hg'.
  destruct (took_closure handle g t w _ _ Hg Hg') as (g'' & Hg'' & Hcl'').
  rewrite <- Hcl, <- Hcl''. by eapply Hnewest.
Qed.

Lemma latest_step w a : LatestIsActive w -> LatestIsActive (step w a).
Proof.
  intros Hlat. destruct a; simpl; try exact Hlat.
  - unfold processIncomingMessage.
    destruct (negb _); [done|]. destruct (isConversationEscalated _ _ _); [done|].
    destruct (truthy _); [done|].
    set (ts := match pendingMessageTimeouts (service w) !! phone with
               | Some t => clearTimeout t (timers w) | None => timers w end).
    assert (Hlen : length ts = length (timers w)).
    { subst ts. destruct (_ !! phone); [apply clearTimeout_length|done]. }
    assert (Hold : forall handle g, ts !! handle = Some g ->
              exists g0, timers w !! handle = Some g0 /\ closure g = closure g0).
    { subst ts. intros handle g. destruct (_ !! phone); [|by eauto].
      intros (g0 & Hg0 & Hcl & _)%clearTimeout_lookup. by eauto. }
    assert (Hnew : forall handle g0, timers w !! handle = Some g0 ->
              exists g, ts !! handle = Some g /\ closure g = closure g0).
    { subst ts. intros handle g0 Hg0. destruct (_ !! phone); [|by eauto].
      by apply clearTimeout_closure. }
    intros handle g. simpl. intros Hg Hnewest.
    apply lookup_app_Some in Hg as [Hg|[Hge Hg]].
    + destruct (decide (phoneNumber (closure g) = phone)) as [Heq|Hne].
      * exfalso. apply (Hnewest (length ts)
                          {| closure := {| phoneNumber := phone; session := sess;
                                           config := cfg; processId := pid |};
                             status := Pending |}).
        -- by eapply lookup_lt_Some.
        -- rewrite lookup_app_r by lia. by rewrite Nat.sub_diag.
        -- done.
      * rewrite lookup_insert_ne by done.
        destruct (Hold _ _ Hg) as (g0 & Hg0 & Hcl). rewrite Hcl.
        apply (Hlat _ _ Hg0). intros handle' g' Hlt Hg'.
        destruct (Hnew _ _ Hg') as (g'' & Hg'' & Hcl'').
        rewrite <- Hcl, <- Hcl''. eapply Hnewest; [done|].
        by apply lookup_app_l_Some.
    + apply list_lookup_singleton_Some in Hg as [Hz <-]. simpl.
      by rewrite lookup_insert_eq.
  - unfold timerExpires. destruct (timers w !! handle) as [g|] eqn:Hg; [|done].
    destruct (status g) eqn:Hst; try done.
    apply latest_took; [done| |done]. apply expire_active.
  - unfold promiseSettles. destruct (timers w !! handle) as [g|] eqn:Hg; [|done].
    destruct (status g) eqn:Hst; try done.
    apply latest_took; [done| |done]. simpl. apply resume_maps.
Qed.

Lemma latest_run w actions : LatestIsActive w -> LatestIsActive (run w actions).
Proof.
  revert w. induction actions as [|a actions IH]; intros w H; [done|].
  simpl. by apply IH, latest_step.
Qed.

(** A cleared timer stays cleared. *)
Lemma cleared_step w a handle g :
  timers w !! handle = Some g -> status g = Cleared ->
  exists g', timers (step w a) !! handle = Some g' /\ status g' = Cleared.
Proof.
  intros Hg Hst. destruct a; simpl; try by eauto.
  - unfold processIncomingMessage.
    destruct (negb _); [by eauto|]. destruct (isConversationEscalated _ _ _); [by eauto|].
    destruct (truthy _); [by eauto|]. simpl.
    destruct (pendingMessageTimeouts (service w) !! phone) as [t|].
    + unfold clearTimeout. destruct (timers w !! t) as [g1|] eqn:H1.
      * destruct (status g1) eqn:Hst1;
          try (exists g; split; [by apply lookup_app_l_Some|done]).
        destruct (decide (t = handle)) as [->|Hne]; [congruence|].
        exists g. split; [|done]. apply lookup_app_l_Some.
        by rewrite list_lookup_insert_ne.
      * exists g. split; [by apply lookup_app_l_Some|done].
    + exists g. split; [by apply lookup_app_l_Some|done].
  - unfold timerExpires. destruct (timers w !! handle0) as [g0|] eqn:Hg0; [|by eauto].
    destruct (status g0) eqn:Hst0; try by eauto.
    destruct (decide (handle0 = handle)) as [->|Hne]; [congruence|].
    exists g. simpl. by rewrite list_lookup_insert_ne.
  - unfold promiseSettles. destruct (timers w !! handle0) as [g0|] eqn:Hg0; [|by eauto].
    destruct (status g0) eqn:Hst0; try by eauto.
    destruct (decide (handle0 = handle)) as [->|Hne]; [congruence|].
    exists g. simpl. by rewrite list_lookup_insert_ne.
Qed.

Lemma cleared_run actions w handle g :
  timers w !! handle = Some g -> status g = Cleared ->
  exists g', timers (run w actions) !! handle = Some g' /\ status g' = Cleared.
Proof.
  revert w g. induction actions as [|a actions IH]; intros w g Hg Hst; [by eauto|].
  simpl. destruct (cleared_step w a _ _ Hg Hst) as (g1 & Hg1 & Hst1). by eapply IH.
Qed.

(** ** Bursts *)

Lemma burst_begins w : BurstSoFar (length (timers w)) w.
Proof.
  split.
  - intros handle g Hle Hg. apply lookup_lt_Some in Hg. lia.
  - intros handle1 handle2 g1 g2 Hle _ Hg1. apply lookup_lt_Some in Hg1. lia.
Qed.

Lemma burst_took first handle g t w :
  timers w !! handle = Some g ->
  (first <= handle -> status g <> Pending /\ status g <> Cleared) ->
  BurstSoFar first w -> BurstSoFar first (took handle g t w).
Proof.
  intros Hg Hnot [Hstat Hold].
  assert (Hsame : forall handle' g', first <= handle' ->
            timers (took handle g t w) !! handle' = Some g' -> timers w !! handle' = Some g').
  { intros handle' g' Hle Hg'.
    apply (took_lookup _ _ _ _ _ _ Hg) in Hg' as [[-> ->]|[_ Hg']]; [|done].
    destruct (Hnot Hle) as [Hp Hc]. destruct (Hstat _ _ Hle Hg); congruence. }
  split.
  - intros handle' g' Hle Hg'. by eapply Hstat, Hsame.
  - intros handle1 handle2 g1 g2 Hle Hlt Hg1 Hg2 Hph.
    eapply (Hold handle1 handle2); eauto; apply Hsame; eauto; lia.
Qed.

Lemma burst_step first w a :
  ArmedIsPending w ->
  withinDebounce first [a] = true ->
  BurstSoFar first w -> BurstSoFar first (step w a).
Proof.
  intros Harm Hquiet Hb. destruct a; simpl; try exact Hb.
  - unfold processIncomingMessage.
    destruct (negb _); [done|]. destruct (isConversationEscalated _ _ _); [done|].
    destruct (truthy _); [done|].
    destruct Hb as [Hstat Hold].
    set (ts := match pendingMessageTimeouts (service w) !! phone with
               | Some t => clearTimeout t (timers w) | None => timers w end).
    assert (Hts : forall handle g, ts !! handle = Some g ->
              exists g0, timers w !! handle = Some g0 /\ closure g = closure g0 /\
                (status g = status g0 \/ status g = Cleared) /\
                (phoneNumber (closure g0) = phone -> status g <> Pending)).
    { subst ts. intros handle g.
      destruct (pendingMessageTimeouts (service w) !! phone) as [t|] eqn:Hp.
      - intros Hg. destruct (clearTimeout_lookup _ _ _ _ Hg) as (g0 & Hg0 & Hcl & Hs).
        exists g0. repeat split; try done.
        + destruct Hs as [Hs|(_ & _ & Hs)]; by eauto.
        + intros Hph Hpend.
          destruct Hs as [Hs|(_ & _ & Hs)]; [|congruence].
          rewrite Hs in Hpend. pose proof (Harm _ _ Hg0 Hpend) as Hh.
          rewrite Hph, Hp in Hh. injection Hh as ->.
          apply clearTimeout_disarms in Hg. congruence.
      - intros Hg. exists g. repeat split; try by eauto.
        intros Hph Hpend. pose proof (Harm _ _ Hg Hpend) as Hh.
        rewrite Hph, Hp in Hh. done. }
    split; simpl.
    + intros handle g Hle Hg. apply lookup_app_Some in Hg as [Hg|[_ Hg]].
      * destruct (Hts _ _ Hg) as (g0 & Hg0 & _ & [Hs|Hs] & _); rewrite Hs;
          [by eapply Hstat|by right].
      * apply list_lookup_singleton_Some in Hg as [_ <-]. by left.
    + intros handle1 handle2 g1 g2 Hle Hlt Hg1 Hg2 Hph.
      apply lookup_app_Some in Hg1 as [Hg1|[Hge1 Hg1]].
      2:{ apply lookup_lt_Some in Hg2. rewrite length_app in Hg2. simpl in Hg2.
          apply list_lookup_singleton_Some in Hg1 as [Hz _]. lia. }
      destruct (Hts _ _ Hg1) as (g10 & Hg10 & Hcl1 & Hs1 & Hdis1).
      apply lookup_app_Some in Hg2 as [Hg2|[Hge2 Hg2]].
      * destruct (Hts _ _ Hg2) as (g20 & Hg20 & Hcl2 & _ & _).
        destruct Hs1 as [Hs1|Hs1]; [|done]. rewrite Hs1.
        eapply (Hold handle1 handle2); eauto. congruence.
      * apply list_lookup_singleton_Some in Hg2 as [_ <-]. simpl in Hph.
        assert (status g1 <> Pending) by (apply Hdis1; congruence).
        destruct Hs1 as [Hs1|Hs1]; [|done].
        destruct (Hstat _ _ Hle Hg10); congruence.
  - unfold timerExpires. destruct (timers w !! handle) as [g|] eqn:Hg; [|done].
    destruct (status g) eqn:Hst; try done.
    apply burst_took; [done| |done].
    simpl in Hquiet. rewrite andb_true_r in Hquiet. apply Nat.ltb_lt in Hquiet. lia.
  - unfold promiseSettles. destruct (timers w !! handle) as [g|] eqn:Hg; [|done].
    destruct (status g) eqn:Hst; try done.
    apply burst_took; [done| |done]. intros _. rewrite Hst. done.
Qed.

Lemma burst_run first burst w :
  ArmedIsPending w ->
  withinDebounce first burst = true ->
  BurstSoFar first w -> BurstSoFar first (run w burst).
Proof.
  revert w. induction burst as [|a burst IH]; intros w Harm Hquiet Hb; [done|].
  simpl in Hquiet. apply andb_prop in Hquiet as [Ha Hrest].
  simpl. apply IH; [by apply armed_step|done|].
  apply burst_step; [done| |done]. simpl. by rewrite Ha.
Qed.

(** ** Superseded generations *)

Lemma clearTimeout_status handle ts handle' g :
  ts !! handle' = Some g ->
  exists g', clearTimeout handle ts !! handle' = Some g' /\ closure g' = closure g /\
             (status g' = status g \/ status g' = Cleared).
Proof.
  intros Hg. unfold clearTimeout. destruct (ts !! handle) as [g1|] eqn:H1; [|by eauto].
  destruct (status g1); try by eauto.
  destruct (decide (handle = handle')) as [<-|Hne].
  - rewrite list_lookup_insert_eq by (by eapply lookup_lt_Some).
    eexists; split; [done|]. simpl. split; [congruence|by right].
  - rewrite list_lookup_insert_ne by done. by eauto.
Qed.

Lemma inert_other handle g t w cl handle' :
  timers w !! handle = Some g ->
  handle <> handle' ->
  activeProcessIds (after t) = activeProcessIds (service w) ->
  Inert cl handle' w -> Inert cl handle' (took handle g t w).
Proof.
  intros Hg Hne Hact (g' & Hg' & Hcl & Hnone & Hst).
  exists g'. split; [simpl; by rewrite list_lookup_insert_ne|]. split; [done|].
  split; [by rewrite trace_took, doings_app, doings_other, app_nil_r|].
  unfold superseded in *. simpl. by rewrite Hact.
Qed.

Lemma inert_step cl handle w a :
  typingOn cl = true ->
  mintsAnew (processId cl) [a] ->
  Inert cl handle w -> Inert cl handle (step w a).
Proof.
  intros Hty Hfresh Hin. destruct a; simpl; try exact Hin.
  - unfold processIncomingMessage.
    destruct (negb _); [done|]. destruct (isConversationEscalated _ _ _); [done|].
    destruct (truthy _); [done|].
    destruct Hin as (g & Hg & Hcl & Hnone & Hst).
    assert (exists g', match pendingMessageTimeouts (service w) !! phone with
                       | Some t => clearTimeout t (timers w) | None => timers w end
                       !! handle = Some g' /\ closure g' = closure g /\
                       (status g' = status g \/ status g' = Cleared))
      as (g' & Hg' & Hcl' & Hst').
    { destruct (_ !! phone); [by apply clearTimeout_status|by eauto]. }
    exists g'. split; [simpl; by apply lookup_app_l_Some|]. split; [congruence|].
    split; [done|].
    destruct Hst' as [Hst'|Hst']; rewrite Hst'; [|by left].
    destruct Hst as [?|[?|[?|[Hbefore Hsup]]]]; [by eauto..|].
    right. right. right. split; [done|].
    unfold superseded in *. simpl. rewrite Hcl', Hcl in *.
    apply Forall_cons in Hfresh as [Hpid _].
    destruct (decide (phone = phoneNumber cl)) as [->|Hne].
    + rewrite lookup_insert_eq. congruence.
    + by rewrite lookup_insert_ne.
  - unfold timerExpires. destruct (timers w !! handle0) as [g0|] eqn:Hg0; [|done].
    destruct (status g0) eqn:Hst0; try done.
    destruct (decide (handle0 = handle)) as [->|Hne];
      [|apply inert_other; [done..|apply expire_active|done]].
    destruct Hin as (g & Hg & Hcl & Hnone & Hst).
    rewrite Hg0 in Hg. injection Hg as <-.
    destruct Hst as [?|[?|[[c ?]|[_ Hsup]]]]; try congruence.
    assert (Hstale : isCurrent (closure g0) (service w) = false)
      by (by apply bool_decide_eq_false_2).
    eexists. split; [simpl; by rewrite list_lookup_insert_eq by (by eapply lookup_lt_Some)|].
    split; [done|]. unfold expire. rewrite Hstale. simpl.
    split; [by rewrite app_nil_r|]. by eauto.
  - unfold promiseSettles. destruct (timers w !! handle0) as [g0|] eqn:Hg0; [|done].
    destruct (status g0) eqn:Hst0; try done.
    destruct (decide (handle0 = handle)) as [->|Hne];
      [|apply inert_other; [done..|simpl; apply resume_maps|done]].
    destruct Hin as (g & Hg & Hcl & Hnone & Hst).
    rewrite Hg0 in Hg. injection Hg as <-. subst cl.
    eexists. split; [simpl; by rewrite list_lookup_insert_eq by (by eapply lookup_lt_Some)|].
    split; [done|]. rewrite trace_took, doings_app, doings_own, count_app, Hnone.
    unfold superseded. simpl.
    destruct Hst as [?|[?|[[c' Hab]|[Hbefore Hsup]]]]; try congruence.
    + rewrite Hst0 in Hab. injection Hab as -> ->. simpl.
      rewrite stopTyping_never_throws. simpl. split; [done|by eauto].
    + rewrite Hst0 in Hbefore.
      assert (Hstale : isCurrent (closure g0) (service w) = false)
        by (by apply bool_decide_eq_false_2).
      destruct k; try discriminate Hbefore; simpl.
      * rewrite sendSeenStatus_never_throws. unfold from_typing. rewrite Hty. simpl.
        split; [done|]. right. right. right. by split.
      * rewrite startTyping_never_throws. simpl.
        split; [done|]. right. right. right. by split.
      * rewrite Hstale. simpl. split; [done|]. by eauto 6.
Qed.

Lemma inert_run cl handle actions w :
  typingOn cl = true ->
  mintsAnew (processId cl) actions ->
  Inert cl handle w -> Inert cl handle (run w actions).
Proof.
  intros Hty. revert w. induction actions as [|a actions IH]; intros w Hfresh Hin; [done|].
  apply Forall_cons in Hfresh as [Ha Hrest].
  simpl. apply IH; [done|]. apply inert_step; [done| |done]. by constructor.
Qed.

Lemma shape_before_check cs cl st es :
  Shape cs cl st es -> beforeTypingCheck st = true -> count isSendText es = 0.
Proof. intros Hs Hb. spell_out Hs; try discriminate Hb; reflexivity. Qed.

(** ** Bursts and supersession *)

(** C1, as written, fails in its last part: a generation superseded while the
    generator is working still sends its reply, or its apology when the
    generator fails. *)
Lemma superseded_generation_still_sends :
  let before := run (boot operator) run_overtaken in
  processId <$> (closure <$> timers before !! 0) = Some "1700000000000.1" /\
  activeProcessIds (service before) !! customer = Some "1700000004000.2" /\
  count isCustomerSend (doings 0 (trace before)) = 0 /\
  count isCustomerSend (doings 0 (trace (run (boot operator) run_supersededReply))) = 1 /\
  count isApology (doings 0 (trace (run (boot operator) run_supersededApology))) = 1.
Proof. vm_compute. repeat split; reflexivity. Qed.

(** C1, amended.  (1) Of two timers started for the same phone number during
    a burst in which no timer started since its beginning expires, the older
    is cleared and its callback never does anything, so at most the last
    submission's pipeline reaches a send or the notification.  (2) The newest
    timer of a phone number carries the number's current token.  (3) With the
    typing indicator enabled and tokens never drawn twice, a generation
    superseded before the currency check that follows its typing pause never
    issues a [sendText]: no reply, no greeting, no apology, no alert.
    Nothing is promised for a generation superseded after that check. *)
Theorem burst_runs_only_its_last_submission :
  (forall cs pre burst post handle1 handle2 g1 g2,
      withinDebounce (length (timers (run (boot cs) pre))) burst = true ->
      length (timers (run (boot cs) pre)) <= handle1 ->
      handle1 < handle2 ->
      timers (run (boot cs) (pre ++ burst)) !! handle1 = Some g1 ->
      timers (run (boot cs) (pre ++ burst)) !! handle2 = Some g2 ->
      phoneNumber (closure g1) = phoneNumber (closure g2) ->
      status <$> timers (run (boot cs) (pre ++ burst ++ post)) !! handle1 = Some Cleared /\
      doings handle1 (trace (run (boot cs) (pre ++ burst ++ post))) = []) /\
  (forall cs actions handle g,
      timers (run (boot cs) actions) !! handle = Some g ->
      (forall handle' g',
          handle < handle' -> timers (run (boot cs) actions) !! handle' = Some g' ->
          phoneNumber (closure g') <> phoneNumber (closure g)) ->
      activeProcessIds (service (run (boot cs) actions)) !! phoneNumber (closure g)
      = Some (processId (closure g))) /\
  (forall cs pre rest handle g,
      timers (run (boot cs) pre) !! handle = Some g ->
      typingOn (closure g) = true ->
      beforeTypingCheck (status g) = true ->
      superseded g (run (boot cs) pre) ->
      mintsAnew (processId (closure g)) rest ->
      count isSendText (doings handle (trace (run (boot cs) (pre ++ rest)))) = 0).
Proof.
  split; [|split].
  - intros cs pre burst post handle1 handle2 g1 g2 Hquiet Hle Hlt Hg1 Hg2 Hph.
    rewrite run_app in Hg1, Hg2.
    pose proof (armed_run _ pre (armed_boot cs)) as Harm.
    destruct (burst_run _ burst _ Harm Hquiet (burst_begins _)) as [_ Hold].
    pose proof (Hold _ _ _ _ Hle Hlt Hg1 Hg2 Hph) as Hcl.
    destruct (cleared_run post _ _ _ Hg1 Hcl) as (g' & Hg' & Hcl').
    rewrite <- !run_app in Hg'. rewrite Hg'. simpl. split; [by rewrite Hcl'|].
    pose proof (callback_shape _ _ _ _ Hg') as Hs. rewrite Hcl' in Hs.
    by apply shape_cleared_nothing in Hs.
  - intros cs actions handle g Hg Hnewest.
    by apply (latest_run _ actions (latest_boot cs) _ _ Hg).
  - intros cs pre rest handle g Hg Hty Hbefore Hsup Hfresh.
    rewrite run_app.
    assert (Hin : Inert (closure g) handle (run (boot cs) pre)).
    { exists g. repeat split; try done; [|by eauto 6].
      eapply shape_before_check; [by apply callback_shape|done]. }
    by destruct (inert_run _ _ rest _ Hty Hfresh Hin) as (g' & _ & _ & Hnone & _).
Qed.

Lemma burst_runs_only_its_last_submission_witness :
  (status <$> timers (run (boot operator) ([] ++ run_burst ++ run_afterBurst)) !! 0
   = Some Cleared /\
   doings 0 (trace (run (boot operator) ([] ++ run_burst ++ run_afterBurst))) = []) /\
  count isSendText
    (doings 0 (trace (run (boot operator) (run_newerWhileTyping ++ run_typingPauseEnds)))) = 0.
Proof.
  destruct burst_runs_only_its_last_submission as (Hburst & _ & Hsuperseded).
  split.
  - refine (Hburst operator [] run_burst run_afterBurst 0 2
              {| closure := {| phoneNumber := customer; session := "default";
                               config := emptyConfig; processId := "1700000000000.1" |};
                 status := Cleared |}
              {| closure := {| phoneNumber := customer; session := "default";
                               config := emptyConfig; processId := "1700000008000.3" |};
                 status := Pending |} _ _ _ _ _ _).
    + reflexivity.
    + simpl. lia.
    + lia.
    + vm_compute. reflexivity.
    + vm_compute. reflexivity.
    + reflexivity.
  - refine (Hsuperseded operator run_newerWhileTyping run_typingPauseEnds 0
              {| closure := {| phoneNumber := customer; session := "default";
                               config := emptyConfig; processId := "1700000000000.1" |};
                 status := Awaiting TypingDelay KTypingDelay |} _ _ _ _ _).
    + vm_compute. reflexivity.
    + reflexivity.
    + reflexivity.
    + unfold superseded. vm_compute. discriminate.
    + unfold mintsAnew, run_typingPauseEnds. repeat constructor.
Defined.

(** The scenario of the specification: messages at t=0, t=3 and t=8, the
    generator answers [{ text: "ok", escalate: false }].  Only the third
    timer's callback runs: one seen, one typing-start, one typing-stop, one
    [sendText] of "ok" to the customer, no notification. *)
Example burst_of_three :
  let w := run (boot operator) (run_burst ++ run_afterBurst) in
  doings 0 (trace w) = [] /\ doings 1 (trace w) = [] /\
  List.filter (fun e => match e with Invoked _ => true | _ => false end) (doings 2 (trace w))
  = [ Invoked (WahaSendSeen customer "default");
      Invoked (WahaStartTyping customer "default");
      Invoked TypingDelay;
      Invoked (GetMessageHistory customer);
      Invoked (GenerateResponseWithEscalation [hello; hello; hello]);
      Invoked (WahaStopTyping customer "default");
      Invoked (WahaSendText SendResponse customer "ok" "default") ] /\
  count isNotifyHuman (doings 2 (trace w)) = 0.
Proof. vm_compute. repeat split; reflexivity. Qed.

(** The other scenario of the specification: a new message arrives in the
    middle of the typing pause.  The first generation stops typing and sends
    nothing; the second runs its own cycle. *)
Example newer_message_while_typing :
  let w := run (boot operator)
             (run_newerWhileTyping ++ run_typingPauseEnds ++
              [ TimerExpires 1;
                PromiseSettles 1 Fulfilled; PromiseSettles 1 Fulfilled;
                PromiseSettles 1 Fulfilled;
                PromiseSettles 1 (History [hello; hello]);
                PromiseSettles 1 (Generated "ok" false);
                PromiseSettles 1 Fulfilled; PromiseSettles 1 Fulfilled ]) in
  status <$> timers w !! 0 = Some Completed /\
  count isTypingStop (doings 0 (trace w)) = 1 /\
  count isSendText (doings 0 (trace w)) = 0 /\
  status <$> timers w !! 1 = Some Completed /\
  count isCustomerSend (doings 1 (trace w)) = 1.
Proof. vm_compute. repeat split; reflexivity. Qed.

(** * Further properties of the scheduler *)

(** ** The entries of [pendingMessageTimeouts] *)

Lemma pendingEntry_boot cs : PendingEntryIsCurrent (boot cs).
Proof. intros phone handle H. simpl in H. by rewrite lookup_empty in H. Qed.

Lemma pendingEntry_step w a :
  ArmedIsPending w -> PendingEntryIsCurrent w -> PendingEntryIsCurrent (step w a).
Proof.
  intros Harm Hpe. destruct a; simpl; try exact Hpe.
  - unfold processIncomingMessage.
    destruct (negb _); [done|]. destruct (isConversationEscalated _ _ _); [done|].
    destruct (truthy _); [done|].
    set (ts := match pendingMessageTimeouts (service w) !! phone with
               | Some t => clearTimeout t (timers w) | None => timers w end).
    assert (Hlen : length ts = length (timers w)).
    { subst ts. destruct (_ !! phone); [apply clearTimeout_length|done]. }
    intros phone' handle. simpl.
    destruct (decide (phone = phone')) as [<-|Hne].
    + rewrite !lookup_insert_eq. intros [= <-]. eexists. split.
      * rewrite lookup_app_r by lia. by rewrite Nat.sub_diag.
      * done.
    + rewrite !lookup_insert_ne by done. intros Hp.
      destruct (Hpe _ _ Hp) as (g & Hg & Hph & Hst & Hact).
      exists g. split; [|done]. apply lookup_app_l_Some. subst ts.
      destruct (pendingMessageTimeouts (service w) !! phone) as [t|] eqn:Ht; [|done].
      destruct (Hpe _ _ Ht) as (gt & Hgt & Hpht & _).
      unfold clearTimeout. rewrite Hgt. destruct (status gt); try done.
      rewrite list_lookup_insert_ne; [done|]. intros ->. congruence.
  - unfold timerExpires. destruct (timers w !! handle) as [g|] eqn:Hg; [|done].
    destruct (status g) eqn:Hst; try done.
    intros phone handle'. simpl. rewrite expire_pending, expire_active.
    pose proof (Harm _ _ Hg Hst) as Hmine.
    destruct (Hpe _ _ Hmine) as (g' & Hg' & _ & _ & Hact).
    rewrite Hg in Hg'. injection Hg' as <-.
    unfold isCurrent. rewrite bool_decide_eq_true_2 by done.
    destruct (decide (phoneNumber (closure g) = phone)) as [<-|Hne].
    + by rewrite lookup_delete_eq.
    + rewrite lookup_delete_ne by done. intros Hp.
      destruct (Hpe _ _ Hp) as (g1 & Hg1 & Hph1 & Hst1 & Hact1).
      exists g1. split; [|done].
      rewrite list_lookup_insert_ne; [done|]. intros ->. congruence.
  - unfold promiseSettles. destruct (timers w !! handle) as [g|] eqn:Hg; [|done].
    destruct (status g) eqn:Hst; try done.
    intros phone handle'. simpl.
    destruct (resume_maps (humanCsWhatsappId w) (closure g) k r (service w)) as [-> ->].
    intros Hp. destruct (Hpe _ _ Hp) as (g1 & Hg1 & Hph1 & Hst1 & Hact1).
    exists g1. split; [|done].
    rewrite list_lookup_insert_ne; [done|]. intros ->. congruence.
Qed.

Lemma pendingEntry_run actions w :
  ArmedIsPending w -> PendingEntryIsCurrent w ->
  ArmedIsPending (run w actions) /\ PendingEntryIsCurrent (run w actions).
Proof.
  revert w. induction actions as [|a actions IH]; intros w Harm Hpe; [done|].
  simpl. apply IH; [by apply armed_step|by apply pendingEntry_step].
Qed.

(** X1: in every run there is at most one armed timer per phone number; it is
    the one [pendingMessageTimeouts] names for the number, and its token is the
    number's current one. *)
Theorem one_armed_timer_per_phone cs actions handle1 handle2 g1 g2 :
  timers (run (boot cs) actions) !! handle1 = Some g1 ->
  timers (run (boot cs) actions) !! handle2 = Some g2 ->
  status g1 = Pending -> status g2 = Pending ->
  phoneNumber (closure g1) = phoneNumber (closure g2) ->
  handle1 = handle2 /\
  pendingMessageTimeouts (service (run (boot cs) actions)) !! phoneNumber (closure g1)
  = Some handle1 /\
  activeProcessIds (service (run (boot cs) actions)) !! phoneNumber (closure g1)
  = Some (processId (closure g1)).
Proof.
  intros Hg1 Hg2 Hst1 Hst2 Hph.
  destruct (pendingEntry_run actions _ (armed_boot cs) (pendingEntry_boot cs)) as [Harm Hpe].
  pose proof (Harm _ _ Hg1 Hst1) as H1. pose proof (Harm _ _ Hg2 Hst2) as H2.
  rewrite <- Hph in H2. split; [congruence|]. split; [done|].
  destruct (Hpe _ _ H1) as (g & Hg & _ & _ & Hact). congruence.
Qed.

Lemma one_armed_timer_per_phone_witness :
  pendingMessageTimeouts (service (run (boot operator) run_burst)) !! customer = Some 2.
Proof.
  refine (proj1 (proj2 (one_armed_timer_per_phone operator run_burst 2 2
            {| closure := {| phoneNumber := customer; session := "default";
                             config := emptyConfig; processId := "1700000008000.3" |};
               status := Pending |}
            {| closure := {| phoneNumber := customer; session := "default";
                             config := emptyConfig; processId := "1700000008000.3" |};
               status := Pending |} _ _ _ _ _)));
    try reflexivity; vm_compute; reflexivity.
Defined.

(** X2: a timer that is still armed when it expires always finds its token
    current: its callback takes the entry of its phone number out of
    [pendingMessageTimeouts] and goes on to its first [await]. *)
Theorem armed_timer_starts_its_pipeline cs actions handle g :
  timers (run (boot cs) actions) !! handle = Some g ->
  status g = Pending ->
  isCurrent (closure g) (service (run (boot cs) actions)) = true /\
  pendingMessageTimeouts (service (step (run (boot cs) actions) (TimerExpires handle)))
    !! phoneNumber (closure g) = None /\
  exists c k,
    timers (step (run (boot cs) actions) (TimerExpires handle)) !! handle
    = Some {| closure := closure g; status := Awaiting c k |}.
Proof.
  intros Hg Hst.
  destruct (pendingEntry_run actions _ (armed_boot cs) (pendingEntry_boot cs)) as [Harm Hpe].
  destruct (Hpe _ _ (Harm _ _ Hg Hst)) as (g' & Hg' & _ & _ & Hact).
  rewrite Hg in Hg'. injection Hg' as <-.
  assert (Hcur : isCurrent (closure g) (service (run (boot cs) actions)) = true)
    by (by apply bool_decide_eq_true_2).
  split; [done|]. simpl. unfold timerExpires. rewrite Hg, Hst. simpl.
  rewrite expire_pending, Hcur, lookup_delete_eq. split; [done|].
  rewrite list_lookup_insert_eq by (by eapply lookup_lt_Some).
  unfold expire. rewrite Hcur. simpl.
  unfold from_seen, from_typing, from_getHistory. repeat case_match; simpl; by eauto.
Qed.

Lemma armed_timer_starts_its_pipeline_witness :
  isCurrent {| phoneNumber := customer; session := "default";
               config := emptyConfig; processId := "1700000008000.3" |}
    (service (run (boot operator) run_burst)) = true.
Proof.
  refine (proj1 (armed_timer_starts_its_pipeline operator run_burst 2
            {| closure := {| phoneNumber := customer; session := "default";
                             config := emptyConfig; processId := "1700000008000.3" |};
               status := Pending |} _ _)); [vm_compute; reflexivity|reflexivity].
Defined.

(** X3: a message from one phone number leaves the timers of every other
    phone number exactly as they are. *)
Theorem other_phones_timers_untouched cs actions phone sess cfg pid handle g :
  timers (run (boot cs) actions) !! handle = Some g ->
  phoneNumber (closure g) <> phone ->
  timers (step (run (boot cs) actions) (IncomingMessage phone sess cfg pid)) !! handle
  = Some g.
Proof.
  intros Hg Hne.
  destruct (pendingEntry_run actions _ (armed_boot cs) (pendingEntry_boot cs)) as [_ Hpe].
  simpl. unfold processIncomingMessage.
  destruct (negb _); [done|]. destruct (isConversationEscalated _ _ _); [done|].
  destruct (truthy _); [done|]. simpl. apply lookup_app_l_Some.
  destruct (pendingMessageTimeouts _ !! phone) as [t|] eqn:Ht; [|done].
  destruct (Hpe _ _ Ht) as (gt & Hgt & Hpht & _).
  unfold clearTimeout. rewrite Hgt. destruct (status gt); try done.
  rewrite list_lookup_insert_ne; [done|]. intros ->. congruence.
Qed.

Lemma other_phones_timers_untouched_witness :
  timers (step (run (boot operator) run_burst)
            (IncomingMessage operator "default" emptyConfig "1700000009000.4")) !! 2
  = Some {| closure := {| phoneNumber := customer; session := "default";
                          config := emptyConfig; processId := "1700000008000.3" |};
            status := Pending |}.
Proof.
  apply other_phones_timers_untouched; [vm_compute; reflexivity|discriminate].
Defined.

(** ** Where timers come from *)

Lemma step_new_timer w a handle g :
  timers (step w a) !! handle = Some g ->
  length (timers w) <= handle ->
  exists cfg pid,
    a = IncomingMessage (phoneNumber (closure g)) (session (closure g)) cfg pid /\
    accepted (phoneNumber (closure g)) (session (closure g)) cfg w = true.
Proof.
  intros Hg Hle.
  assert (Hold : timers w !! handle = Some g -> False)
    by (intros H%lookup_lt_Some; lia).
  destruct a; simpl in Hg; try (by destruct Hold).
  - unfold processIncomingMessage, accepted in *.
    destruct (AiSettingsService.isOrchestratorEnabled _ _) eqn:Hen;
      simpl in *; [|by destruct Hold].
    destruct (isConversationEscalated _ _ _) eqn:Hesc; simpl in *; [by destruct Hold|].
    destruct (truthy _) eqn:Hskip; simpl in *; [by destruct Hold|].
    apply lookup_app_Some in Hg as [Hg|[_ Hg]].
    + exfalso. apply lookup_lt_Some in Hg.
      destruct (pendingMessageTimeouts (service w) !! phone);
        [rewrite clearTimeout_length in Hg|]; lia.
    + apply list_lookup_singleton_Some in Hg as [_ <-]. simpl.
      exists cfg, pid. by rewrite Hen, Hesc, Hskip.
  - exfalso. unfold timerExpires in Hg. destruct (timers w !! handle0) as [g0|]; [|by auto].
    destruct (status g0); try by auto.
    apply lookup_lt_Some in Hg. simpl in Hg. rewrite length_insert in Hg. lia.
  - exfalso. unfold promiseSettles in Hg. destruct (timers w !! handle0) as [g0|]; [|by auto].
    destruct (status g0); try by auto.
    apply lookup_lt_Some in Hg. simpl in Hg. rewrite length_insert in Hg. lia.
Qed.

Lemma no_new_timers (Q : World -> Prop) (ok : Action -> Prop) phone sess :
  (forall w a, Q w -> ok a -> Q (step w a)) ->
  (forall w cfg, Q w -> accepted phone sess cfg w = false) ->
  forall actions w,
    Q w -> Forall ok actions ->
    forall handle g,
      timers (run w actions) !! handle = Some g ->
      phoneNumber (closure g) = phone -> session (closure g) = sess ->
      handle < length (timers w).
Proof.
  intros Hkeep Hrefuse. induction actions as [|a actions IH]; intros w HQ Hok handle g Hg Hph Hse.
  - by eapply lookup_lt_Some.
  - apply Forall_cons in Hok as [Ha Hok]. simpl in Hg.
    pose proof (IH _ (Hkeep _ _ HQ Ha) Hok _ _ Hg Hph Hse) as Hlt.
    destruct (decide (handle < length (timers w))) as [|Hge]; [done|]. exfalso.
    destruct (lookup_lt_is_Some_2 _ _ Hlt) as [g' Hg'].
    destruct (run_closure actions _ _ _ Hg') as (g'' & Hg'' & Hcl).
    rewrite Hg in Hg''. injection Hg'' as <-.
    destruct (step_new_timer _ _ _ _ Hg') as (cfg & pid & _ & Hacc); [lia|].
    rewrite <- Hcl, Hph, Hse in Hacc. rewrite (Hrefuse _ cfg HQ) in Hacc. done.
Qed.

(** ** Escalation *)

Lemma expire_escalated cl o :
  escalatedConversations (after (expire cl o)) = escalatedConversations o.
Proof. unfold expire, from_seen, from_typing, from_getHistory. by repeat case_match. Qed.

Ltac open_resume :=
  simpl;
  rewrite ?sendSeenStatus_never_throws, ?startTyping_never_throws,
    ?stopTyping_never_throws, ?notifyHumanAgent_never_throws,
    ?sendErrorResponse_never_throws, ?sendResponse_rethrows;
  unfold from_typing, from_getHistory, from_greeting, from_greetingSend,
    from_catch, from_sendErrorResponse, from_escalate, from_notifyHumanAgent.

Lemma resume_keeps_escalated cs cl k r o phone sess :
  isConversationEscalated phone sess o = true ->
  isConversationEscalated phone sess (after (resume cs cl k r o)) = true.
Proof.
  intros Hesc.
  assert (Hset : isConversationEscalated phone sess
                   (setConversationEscalated (phoneNumber cl) (session cl) true o) = true).
  { unfold isConversationEscalated in *. simpl.
    destruct (decide (makeEscalationKey (phoneNumber cl) (session cl)
                      = makeEscalationKey phone sess)) as [->|Hne].
    - by rewrite lookup_insert_eq.
    - by rewrite lookup_insert_ne. }
  destruct k; open_resume; repeat case_match; done.
Qed.

Lemma escalated_step phone sess w a :
  keepsEscalation phone sess a ->
  isConversationEscalated phone sess (service w) = true ->
  isConversationEscalated phone sess (service (step w a)) = true.
Proof.
  intros Hk Hesc. destruct a; simpl; try done.
  - unfold processIncomingMessage. by repeat case_match.
  - unfold timerExpires. repeat case_match; try done. simpl.
    unfold isConversationEscalated in *. by rewrite expire_escalated.
  - unfold promiseSettles. repeat case_match; try done. simpl.
    by apply resume_keeps_escalated.
  - unfold isConversationEscalated in *. simpl in *. by rewrite lookup_delete_ne.
Qed.

(** X4: once a conversation is escalated it stays escalated until the
    operator's "endescalate" for its key, and in the meantime no timer is
    started for it. *)
Theorem escalation_lasts_until_cleared phone sess w actions :
  isConversationEscalated phone sess (service w) = true ->
  Forall (keepsEscalation phone sess) actions ->
  isConversationEscalated phone sess (service (run w actions)) = true /\
  forall handle g,
    timers (run w actions) !! handle = Some g ->
    phoneNumber (closure g) = phone -> session (closure g) = sess ->
    handle < length (timers w).
Proof.
  intros Hesc Hok. split.
  - revert w Hesc. induction Hok as [|a actions Ha Hok IH]; intros w Hesc; [done|].
    simpl. by apply IH, escalated_step.
  - apply (no_new_timers
             (fun w => isConversationEscalated phone sess (service w) = true)
             (keepsEscalation phone sess)); try done.
    + intros w' a H1 H2. by apply escalated_step.
    + intros w' cfg H. unfold accepted. rewrite H. simpl. by rewrite andb_false_r.
Qed.

Lemma escalation_lasts_until_cleared_witness :
  isConversationEscalated customer "default"
    (service (run (run (boot operator) run_escalation)
                [IncomingMessage customer "default" emptyConfig "1700000009999.5"])) = true.
Proof.
  refine (proj1 (escalation_lasts_until_cleared customer "default"
                   (run (boot operator) run_escalation)
                   [IncomingMessage customer "default" emptyConfig "1700000009999.5"] _ _)).
  - vm_compute. reflexivity.
  - repeat constructor.
Defined.

Lemma resume_noEscalation cs cl k r o :
  (forall text, r <> Generated text true) ->
  (forall history text escalate, k = KReplyStop history text escalate -> escalate = false) ->
  escalatedConversations (after (resume cs cl k r o)) = escalatedConversations o /\
  (forall c history text escalate,
      next (resume cs cl k r o) = Awaiting c (KReplyStop history text escalate) ->
      escalate = false).
Proof.
  intros Hr Hk. destruct k; open_resume;
    try (specialize (Hk _ _ _ eq_refl); subst);
    try (destruct r as [| | |text [|]]; simpl; try (by destruct (Hr text)));
    repeat case_match; simpl; split; try done;
    intros c' h' t' e' Heq; try discriminate Heq; by injection Heq as <- <- <- <-.
Qed.

Lemma noEscalation_step w a :
  keepsToBot a -> NoEscalationAhead w -> NoEscalationAhead (step w a).
Proof.
  intros Hk [Hempty Hahead]. destruct a; simpl; try (by split).
  - unfold processIncomingMessage.
    destruct (negb _); [by split|]. destruct (isConversationEscalated _ _ _); [by split|].
    destruct (truthy _); [by split|].
    split; [done|]. simpl. intros handle g c history text escalate Hg Hst.
    apply lookup_app_Some in Hg as [Hg|[_ Hg]].
    + assert (exists g0, timers w !! handle = Some g0 /\ status g0 = status g)
        as (g0 & Hg0 & Hst0).
      { destruct (pendingMessageTimeouts (service w) !! phone); [|by eauto].
        destruct (clearTimeout_lookup _ _ _ _ Hg) as (g0 & Hg0 & _ & [Hs|(_ & _ & Hs)]);
          [by eauto|congruence]. }
      eapply Hahead; [done|]. by rewrite Hst0.
    + apply list_lookup_singleton_Some in Hg as [_ <-]. done.
  - unfold timerExpires. destruct (timers w !! handle) as [g|] eqn:Hg; [|by split].
    destruct (status g) eqn:Hst; try by split.
    split; [simpl; by rewrite expire_escalated|].
    intros handle' g' c history text escalate Hg' Hst'.
    apply (took_lookup _ _ _ _ _ _ Hg) in Hg' as [[-> ->]|[_ Hg']]; [|by eapply Hahead].
    exfalso. revert Hst'. simpl.
    unfold expire, from_seen, from_typing, from_getHistory. by repeat case_match.
  - unfold promiseSettles. destruct (timers w !! handle) as [g|] eqn:Hg; [|by split].
    destruct (status g) eqn:Hst; try by split.
    destruct (resume_noEscalation (humanCsWhatsappId w) (closure g) k r (service w))
      as [Hsame Hnext].
    { intros text ->. done. }
    { intros history text escalate ->. by eapply Hahead. }
    split; [simpl; by rewrite Hsame|].
    intros handle' g' c' history text escalate Hg' Hst'.
    apply (took_lookup _ _ _ _ _ _ Hg) in Hg' as [[-> ->]|[_ Hg']]; [|by eapply Hahead].
    simpl in Hst'. by eapply Hnext.
  - split; [|done]. simpl. rewrite Hempty. apply delete_empty.
Qed.

(** X5: only the generator escalates.  In a run in which no generator call
    answers [escalate = true], no conversation is ever escalated. *)
Theorem only_the_generator_escalates cs actions :
  Forall keepsToBot actions ->
  escalatedConversations (service (run (boot cs) actions)) = ∅.
Proof.
  intros Hok.
  assert (Hrun : forall w, NoEscalationAhead w -> NoEscalationAhead (run w actions)).
  { induction Hok as [|a actions Ha Hok IH]; intros w Hw; [done|].
    simpl. by apply IH, noEscalation_step. }
  apply Hrun. split; [done|]. intros handle g c history text escalate Hg. by destruct handle.
Qed.

Lemma only_the_generator_escalates_witness :
  escalatedConversations (service (run (boot operator) run_failedReply)) = ∅.
Proof.
  apply only_the_generator_escalates. unfold run_failedReply, opening. simpl.
  repeat constructor.
Defined.

(** X6: the operator's "endescalate" makes the conversation eligible again at
    once: afterwards it is not escalated, a message for it is accepted unless
    orchestration is disabled or the message is to be skipped, and nothing
    else has changed (no timer is started or revived, no token is touched). *)
Theorem clearEscalation_resumes phone sess w :
  isConversationEscalated phone sess (service (step w (ClearEscalation phone sess))) = false /\
  (forall cfg,
      AiSettingsService.isOrchestratorEnabled (aiSettings w) (Some phone) = true ->
      truthy (skipAiResponse cfg) = false ->
      accepted phone sess cfg (step w (ClearEscalation phone sess)) = true) /\
  timers (step w (ClearEscalation phone sess)) = timers w /\
  trace (step w (ClearEscalation phone sess)) = trace w /\
  pendingMessageTimeouts (service (step w (ClearEscalation phone sess)))
  = pendingMessageTimeouts (service w) /\
  activeProcessIds (service (step w (ClearEscalation phone sess)))
  = activeProcessIds (service w).
Proof.
  assert (Hoff : isConversationEscalated phone sess
                   (service (step w (ClearEscalation phone sess))) = false).
  { unfold isConversationEscalated. simpl. by rewrite lookup_delete_eq. }
  split; [done|]. split; [|done].
  intros cfg Hen Hskip. unfold accepted. rewrite Hoff, Hskip. simpl.
  by rewrite Hen.
Qed.

Lemma clearEscalation_resumes_witness :
  accepted customer "default" emptyConfig
    (step (run (boot operator) run_escalation) (ClearEscalation customer "default")) = true.
Proof.
  destruct (clearEscalation_resumes customer "default" (run (boot operator) run_escalation))
    as (_ & Hacc & _).
  apply Hacc; reflexivity.
Defined.

Lemma makeEscalationKey_inj phone1 sess1 phone2 sess2 :
  hasColon sess1 = false -> hasColon sess2 = false ->
  makeEscalationKey phone1 sess1 = makeEscalationKey phone2 sess2 ->
  phone1 = phone2 /\ sess1 = sess2.
Proof.
  assert (Hnil : forall s, "" +:+ s = s) by done.
  assert (Hcons : forall c s t, String c s +:+ t = String c (s +:+ t)) by done.
  unfold makeEscalationKey. revert sess2.
  induction sess1 as [|c1 sess1 IH]; intros [|c2 sess2] H1 H2 Heq;
    rewrite ?Hcons, ?Hnil in Heq; simpl in H1, H2.
  - by injection Heq as ->.
  - injection Heq as <- _. by rewrite (proj2 (Ascii.eqb_eq _ _) eq_refl) in H2.
  - injection Heq as -> _. by rewrite (proj2 (Ascii.eqb_eq _ _) eq_refl) in H1.
  - injection Heq as -> Heq.
    destruct (Ascii.eqb c2 colon); [done|].
    destruct (IH _ H1 H2 Heq) as [-> ->]. done.
Qed.

(** X7: escalation is per conversation.  When session names contain no colon,
    setting or clearing the flag of one (phone number, session) pair never
    changes the flag of another pair. *)
Theorem escalation_is_per_conversation phone1 sess1 phone2 sess2 value o :
  hasColon sess1 = false -> hasColon sess2 = false ->
  (phone1, sess1) <> (phone2, sess2) ->
  isConversationEscalated phone2 sess2 (setConversationEscalated phone1 sess1 value o)
  = isConversationEscalated phone2 sess2 o.
Proof.
  intros H1 H2 Hne.
  assert (Hkey : makeEscalationKey phone1 sess1 <> makeEscalationKey phone2 sess2).
  { intros Heq. destruct (makeEscalationKey_inj _ _ _ _ H1 H2 Heq) as [-> ->]. done. }
  unfold isConversationEscalated. simpl.
  destruct value; [by rewrite lookup_insert_ne|by rewrite lookup_delete_ne].
Qed.

Lemma escalation_is_per_conversation_witness :
  isConversationEscalated customer "support"
    (setConversationEscalated customer "sales" true newOrchestrator)
  = isConversationEscalated customer "support" newOrchestrator.
Proof.
  apply escalation_is_per_conversation; [reflexivity|reflexivity|discriminate].
Defined.

(** ** What one generation calls *)

Ltac meets H :=
  lazymatch type of H with
  | _ \/ _ => destruct H as [H|H]; [meets H|meets H]
  | False => destruct H
  | _ = _ => first [ discriminate H | inversion H; subst; clear H ]
  end.

Lemma shape_config cs cl st es :
  Shape cs cl st es ->
  (seenOn cl = false -> count isSeen es = 0) /\
  (typingOn cl = false ->
   count isTypingStart es = 0 /\ count isTypingStop es = 0 /\ count isTypingDelay es = 0).
Proof.
  intros Hs. spell_out Hs; split; intros Hoff; try discriminate Hoff; try done.
Qed.

(** X8: the switches of [MessageOrchestratorConfig] are obeyed.  A generation
    started with [sendSeenStatus: false] never sends a seen status, and one
    started with [showTypingIndicator: false] never starts or stops typing and
    never pauses to type. *)
Theorem presence_switches_are_obeyed cs actions handle g :
  timers (run (boot cs) actions) !! handle = Some g ->
  (sendSeenStatus (config (closure g)) = Some false ->
   count isSeen (doings handle (trace (run (boot cs) actions))) = 0) /\
  (showTypingIndicator (config (closure g)) = Some false ->
   count isTypingStart (doings handle (trace (run (boot cs) actions))) = 0 /\
   count isTypingStop (doings handle (trace (run (boot cs) actions))) = 0 /\
   count isTypingDelay (doings handle (trace (run (boot cs) actions))) = 0).
Proof.
  intros Hg. apply callback_shape in Hg.
  destruct (shape_config _ _ _ _ Hg) as [Hseen Htyping].
  split; intros Hoff; [apply Hseen|apply Htyping];
    unfold seenOn, typingOn; by rewrite Hoff.
Qed.

Lemma presence_switches_are_obeyed_witness :
  count isSeen (doings 0 (trace (run (boot operator) run_quiet))) = 0 /\
  count isTypingStart (doings 0 (trace (run (boot operator) run_quiet))) = 0.
Proof.
  destruct (presence_switches_are_obeyed operator run_quiet 0
              {| closure := {| phoneNumber := customer; session := "default";
                               config := quietConfig; processId := "1700000000000.1" |};
                 status := Completed |}) as [Hseen Htyping].
  - vm_compute. reflexivity.
  - split; [apply Hseen; reflexivity|apply Htyping; reflexivity].
Defined.

Lemma shape_addressed cs cl st es :
  Shape cs cl st es -> forall c, In (Invoked c) es -> addressed cs cl c.
Proof.
  intros Hs c Hin. spell_out Hs; meets Hin; simpl; done.
Qed.

(** X9: whatever a generation calls is addressed to the phone number and the
    session its closure captured when the message came in; only the alert of
    [notifyHumanAgent] goes elsewhere, to the operator's chat id, in the same
    session. *)
Theorem calls_go_to_the_captured_chat cs actions handle g c :
  timers (run (boot cs) actions) !! handle = Some g ->
  In (Invoked c) (doings handle (trace (run (boot cs) actions))) ->
  addressed cs (closure g) c.
Proof.
  intros Hg Hin. apply callback_shape in Hg. by eapply shape_addressed.
Qed.

Lemma calls_go_to_the_captured_chat_witness :
  addressed operator
    {| phoneNumber := customer; session := "default";
       config := emptyConfig; processId := "1700000000000.1" |}
    (WahaSendText SendResponse customer defaultGreeting "default").
Proof.
  refine (calls_go_to_the_captured_chat operator run_greeting 0
            {| closure := {| phoneNumber := customer; session := "default";
                             config := emptyConfig; processId := "1700000000000.1" |};
               status := Completed |} _ _ _).
  - vm_compute. reflexivity.
  - vm_compute. found.
Defined.

Lemma shape_response cs cl st es :
  Shape cs cl st es ->
  count isResponse es <= 1 /\
  forall chatId text sess,
    In (Invoked (WahaSendText SendResponse chatId text sess)) es ->
    (text = defaultGreeting /\
     exists r, In (Settled (GetMessageHistory (phoneNumber cl)) r) es /\
               getMessageHistory_returns r = []) \/
    (exists history,
        In (Settled (GenerateResponseWithEscalation history) (Generated text false)) es).
Proof.
  intros Hs. spell_out Hs; settle_answers;
    (split; [unfold count; simpl; lia|]);
    intros chatId text' sess' Hin; meets Hin;
    first [ left; split; [reflexivity|]; eexists; split; [found|eassumption]
          | right; eexists; found ].
Qed.

(** X10: a generation sends at most one text through [sendResponse], and that
    text is never of its own making: it is the default greeting, sent after
    the history came back empty, or the text the generator returned together
    with [escalate = false]. *)
Theorem reply_is_the_generators_text cs actions handle g :
  timers (run (boot cs) actions) !! handle = Some g ->
  count isResponse (doings handle (trace (run (boot cs) actions))) <= 1 /\
  forall chatId text sess,
    In (Invoked (WahaSendText SendResponse chatId text sess))
       (doings handle (trace (run (boot cs) actions))) ->
    (text = defaultGreeting /\
     exists r,
       In (Settled (GetMessageHistory (phoneNumber (closure g))) r)
          (doings handle (trace (run (boot cs) actions))) /\
       getMessageHistory_returns r = []) \/
    (exists history,
        In (Settled (GenerateResponseWithEscalation history) (Generated text false))
           (doings handle (trace (run (boot cs) actions)))).
Proof. intros Hg. apply callback_shape in Hg. by eapply shape_response. Qed.

Lemma reply_is_the_generators_text_witness :
  count isResponse (doings 0 (trace (run (boot operator) run_failedReply))) <= 1.
Proof.
  refine (proj1 (reply_is_the_generators_text operator run_failedReply 0
            {| closure := {| phoneNumber := customer; session := "default";
                             config := emptyConfig; processId := "1700000000000.1" |};
               status := Completed |} _)).
  vm_compute. reflexivity.
Defined.

Lemma shape_generate_call cs cl st es :
  Shape cs cl st es ->
  count isGenerate es <= 1 /\
  forall history,
    In (Invoked (GenerateResponseWithEscalation history)) es ->
    history <> [] /\
    exists r, In (Settled (GetMessageHistory (phoneNumber cl)) r) es /\
              getMessageHistory_returns r = history.
Proof.
  intros Hs. spell_out Hs;
    (split; [unfold count; simpl; lia|]);
    intros history' Hin; meets Hin;
    (split; [assumption|eexists; split; [found|reflexivity]]).
Qed.

(** X11: a generation calls the generator at most once, and only with the
    non-empty history that its own [getMessageHistory] call returned. *)
Theorem generator_gets_the_fetched_history cs actions handle g :
  timers (run (boot cs) actions) !! handle = Some g ->
  count isGenerate (doings handle (trace (run (boot cs) actions))) <= 1 /\
  forall history,
    In (Invoked (GenerateResponseWithEscalation history))
       (doings handle (trace (run (boot cs) actions))) ->
    history <> [] /\
    exists r,
      In (Settled (GetMessageHistory (phoneNumber (closure g))) r)
         (doings handle (trace (run (boot cs) actions))) /\
      getMessageHistory_returns r = history.
Proof. intros Hg. apply callback_shape in Hg. by eapply shape_generate_call. Qed.

Lemma generator_gets_the_fetched_history_witness :
  count isGenerate (doings 0 (trace (run (boot operator) run_escalation))) <= 1.
Proof.
  refine (proj1 (generator_gets_the_fetched_history operator run_escalation 0
            {| closure := {| phoneNumber := customer; session := "default";
                             config := emptyConfig; processId := "1700000000000.1" |};
               status := Completed |} _)).
  vm_compute. reflexivity.
Defined.

(** * Orchestration settings and their controller *)

Lemma settings_step w a : keepsSettings a -> aiSettings (step w a) = aiSettings w.
Proof.
  intros Hk. destruct a; simpl; try done.
  - unfold processIncomingMessage. by repeat case_match.
  - unfold timerExpires. by repeat case_match.
  - unfold promiseSettles. by repeat case_match.
Qed.

(** X12: while orchestration is disabled for a phone number (globally or by
    its override) and the settings are not changed, no timer is started for
    that number, whatever else happens. *)
Theorem disabled_chat_starts_no_timer phone w actions handle g :
  AiSettingsService.isOrchestratorEnabled (aiSettings w) (Some phone) = false ->
  Forall keepsSettings actions ->
  timers (run w actions) !! handle = Some g ->
  phoneNumber (closure g) = phone ->
  handle < length (timers w).
Proof.
  intros Hoff Hok Hg Hph.
  apply (no_new_timers
           (fun w => AiSettingsService.isOrchestratorEnabled (aiSettings w) (Some phone) = false)
           keepsSettings phone (session (closure g))) with (actions := actions) (g := g);
    try done.
  - intros w' a H1 H2. by rewrite settings_step.
  - intros w' cfg H. unfold accepted. by rewrite H.
Qed.

Lemma disabled_chat_starts_no_timer_witness :
  0 < length (timers (step (run (boot operator) (opening "1700000000000.1" 0))
                        (SetChatOrchestrator customer false))).
Proof.
  refine (disabled_chat_starts_no_timer customer
            (step (run (boot operator) (opening "1700000000000.1" 0))
                  (SetChatOrchestrator customer false))
            [IncomingMessage customer "default" emptyConfig "1700000009999.5"] 0
            {| closure := {| phoneNumber := customer; session := "default";
                             config := emptyConfig; processId := "1700000000000.1" |};
               status := Awaiting (GetMessageHistory customer) KHistory |} _ _ _ _).
  - vm_compute. reflexivity.
  - repeat constructor.
  - vm_compute. reflexivity.
  - reflexivity.
Defined.

(** X13: the chat toggle answers with what [isOrchestratorEnabled] says after
    the override is stored: the requested value while the global switch is on
    (and always [true] for the empty phone number, whose override is never
    read), and [false] while the global switch is off, although the override
    is stored all the same. *)
Theorem toggle_chat_reports_effective_state phone requested s :
  AiController.enabled (snd (AiController.toggleOrchestratorChat phone requested s))
  = (AiSettingsService.orchestratorEnabled s
     && (if bool_decide (phone = "") then true else requested)) /\
  AiSettingsService.chatOverrides (fst (AiController.toggleOrchestratorChat phone requested s))
    !! phone = Some requested.
Proof.
  unfold AiController.toggleOrchestratorChat, AiSettingsService.isOrchestratorEnabled. simpl.
  rewrite lookup_insert_eq. split; [|done].
  destruct (AiSettingsService.orchestratorEnabled s); simpl; [|done].
  by case_bool_decide.
Qed.

(** X14: clearing an override undoes setting it.  When the phone number had no
    override, [clearChatOverride] after [setChatOrchestrator] gives back the
    settings as they were; in general it gives the settings with that override
    cleared. *)
Theorem clearChatOverride_undoes_setChatOrchestrator phone requested s :
  AiSettingsService.clearChatOverride phone
    (AiSettingsService.setChatOrchestrator phone requested s)
  = AiSettingsService.clearChatOverride phone s /\
  (AiSettingsService.chatOverrides s !! phone = None ->
   AiSettingsService.clearChatOverride phone
     (AiSettingsService.setChatOrchestrator phone requested s) = s).
Proof.
  unfold AiSettingsService.clearChatOverride, AiSettingsService.setChatOrchestrator.
  destruct s as [global overrides]. simpl. rewrite delete_insert_eq. split; [done|].
  intros Hnone. by rewrite delete_id.
Qed.

Lemma clearChatOverride_undoes_setChatOrchestrator_witness :
  AiSettingsService.clearChatOverride customer
    (AiSettingsService.setChatOrchestrator customer false AiSettingsService.initial)
  = AiSettingsService.initial.
Proof.
  apply (proj2 (clearChatOverride_undoes_setChatOrchestrator customer false
                  AiSettingsService.initial)).
  reflexivity.
Defined.

(** X15: an override concerns one phone number only, and the global switch
    does not touch the overrides: setting or clearing the override of one
    number never changes the answer for another, and switching orchestration
    off and on again globally gives every chat the answer it would have had
    without the detour. *)
Theorem overrides_are_independent phone other requested s :
  phone <> other ->
  AiSettingsService.isOrchestratorEnabled
    (AiSettingsService.setChatOrchestrator phone requested s) (Some other)
  = AiSettingsService.isOrchestratorEnabled s (Some other) /\
  AiSettingsService.isOrchestratorEnabled
    (AiSettingsService.clearChatOverride phone s) (Some other)
  = AiSettingsService.isOrchestratorEnabled s (Some other) /\
  AiSettingsService.isOrchestratorEnabled
    (AiSettingsService.setGlobalOrchestrator true
       (AiSettingsService.setGlobalOrchestrator false s)) (Some other)
  = AiSettingsService.isOrchestratorEnabled
      (AiSettingsService.setGlobalOrchestrator true s) (Some other).
Proof.
  intros Hne. unfold AiSettingsService.isOrchestratorEnabled. simpl.
  by rewrite lookup_insert_ne, lookup_delete_ne.
Qed.

Lemma overrides_are_independent_witness :
  AiSettingsService.isOrchestratorEnabled
    (AiSettingsService.setChatOrchestrator customer false AiSettingsService.initial)
    (Some operator)
  = AiSettingsService.isOrchestratorEnabled AiSettingsService.initial (Some operator).
Proof.
  refine (proj1 (overrides_are_independent customer operator false
                   AiSettingsService.initial _)).
  discriminate.
Defined.

(** * The stored conversations *)

Lemma extractPhoneNumber_clean s :
  ChatService.hasAt (ChatService.extractPhoneNumber s) = false.
Proof.
  induction s as [|c s IH]; simpl; [done|].
  destruct (Ascii.eqb c ChatService.atSign) eqn:Hc; simpl; [done|]. by rewrite Hc.
Qed.

Lemma extractPhoneNumber_id s :
  ChatService.hasAt s = false -> ChatService.extractPhoneNumber s = s.
Proof.
  induction s as [|c s IH]; simpl; [done|].
  destruct (Ascii.eqb c ChatService.atSign); [done|]. intros H. by rewrite IH.
Qed.

(** X16: [extractPhoneNumber] keeps what stands before the first ['@'] and
    nothing else: its result contains no ['@'], applying it twice changes
    nothing, and a number followed by ['@'] and any suffix ([@c.us], [@lid],
    ...) is mapped to the number itself, so all spellings of a chat id are
    filed under one key. *)
Theorem extractPhoneNumber_drops_the_suffix :
  (forall s,
      ChatService.hasAt (ChatService.extractPhoneNumber s) = false /\
      ChatService.extractPhoneNumber (ChatService.extractPhoneNumber s)
      = ChatService.extractPhoneNumber s) /\
  (forall number suffix,
      ChatService.hasAt number = false ->
      ChatService.extractPhoneNumber (number +:+ String ChatService.atSign suffix) = number /\
      ChatService.extractPhoneNumber number = number).
Proof.
  split.
  - intros s. split; [apply extractPhoneNumber_clean|].
    apply extractPhoneNumber_id, extractPhoneNumber_clean.
  - intros number suffix Hclean. split; [|by apply extractPhoneNumber_id].
    induction number as [|c number IH].
    + change ("" +:+ String ChatService.atSign suffix)
        with (String ChatService.atSign suffix).
      cbn [ChatService.extractPhoneNumber]. by rewrite Ascii.eqb_refl.
    + change (String c number +:+ String ChatService.atSign suffix)
        with (String c (number +:+ String ChatService.atSign suffix)).
      simpl in *. destruct (Ascii.eqb c ChatService.atSign); [done|]. by rewrite IH.
Qed.

Lemma extractPhoneNumber_drops_the_suffix_witness :
  ChatService.extractPhoneNumber ("6281234567890" +:+ String ChatService.atSign "c.us")
  = "6281234567890".
Proof.
  refine (proj1 (proj2 extractPhoneNumber_drops_the_suffix "6281234567890" "c.us" _)).
  reflexivity.
Defined.

Lemma filedUnder_clean message :
  ChatService.extractPhoneNumber (ChatService.filedUnder message)
  = ChatService.filedUnder message.
Proof.
  unfold ChatService.filedUnder.
  destruct (_ && _); apply extractPhoneNumber_id, extractPhoneNumber_clean.
Qed.

Ltac save_cases :=
  unfold ChatService.saveMessage, ChatService.appendToChat, ChatService.bind,
    ChatService.ret, ChatService.customer_findUnique, ChatService.customer_create,
    ChatService.customer_update, ChatService.chat_findUnique, ChatService.chat_create,
    ChatService.chat_update, ChatService.query in *;
  repeat (simpl in *; simplify_map_eq; try done;
          match goal with
          | H : context [match ?x with _ => _ end] |- _ => destruct x eqn:?
          | |- context [match ?x with _ => _ end] => destruct x eqn:?
          end).

Lemma getMessageHistory_lookup phone db :
  ChatService.getMessageHistory ChatService.healthy phone db
  = match ChatService.chats db !! ChatService.extractPhoneNumber phone with
    | Some chat => ChatService.asArray (ChatService.message_history chat)
    | None => []
    end.
Proof. done. Qed.

(** With no other writer the overlapping call is the call on its own. *)
Lemma saveMessage_among_alone rejected freshId message n db :
  ChatService.saveMessage_among rejected ChatService.alone freshId message n db
  = ChatService.saveMessage rejected freshId message n db.
Proof. reflexivity. Qed.

Ltac open_appendToChat :=
  unfold ChatService.appendToChat_among, ChatService.amid, ChatService.bind,
    ChatService.ret, ChatService.chat_findUnique, ChatService.chat_create,
    ChatService.chat_update, ChatService.query.

(** [appendToChat], when it returns, has written back the history it read,
    followed by the message, whatever the other calls did to the row in
    between. *)
Lemma appendToChat_among_writes_back rejected others message customer n db n' db' :
  ChatService.appendToChat_among rejected others message customer n db
  = (ChatService.Returned tt, n', db') ->
  ChatService.message_history <$> ChatService.chats db' !! ChatService.filedUnder message
  = Some (ChatService.JsonArray
            (match ChatService.chats (others n db) !! ChatService.filedUnder message with
             | Some chat => ChatService.asArray (ChatService.message_history chat)
             | None => []
             end ++ [ChatService.newMessage message])).
Proof.
  open_appendToChat.
  set (key := ChatService.filedUnder message). clearbody key.
  destruct (rejected n); [done|]. cbn beta iota.
  destruct (ChatService.chats (others n db) !! key) as [chat|] eqn:Hch; cbn beta iota.
  - destruct (rejected (S n)); [done|].
    destruct (ChatService.chats (others (S n) (others n db)) !! key); [|done].
    intros [= _ <-]. simpl. by rewrite lookup_insert_eq.
  - destruct (rejected (S n)); [done|].
    destruct (ChatService.chats (others (S n) (others n db)) !! key); [done|].
    cbn beta iota. destruct (rejected (S (S n))); [done|].
    match goal with |- context [ChatService.chats (others (S (S n)) ?d) !! key] =>
      destruct (ChatService.chats (others (S (S n)) d) !! key) end; [|done].
    intros [= _ <-]. simpl. by rewrite lookup_insert_eq.
Qed.

(** Undisturbed and with a healthy database, [appendToChat] returns. *)
Lemma appendToChat_among_returns others message customer n db :
  ChatService.leavesChat (ChatService.filedUnder message) others ->
  exists n' db',
    ChatService.appendToChat_among ChatService.healthy others message customer n db
    = (ChatService.Returned tt, n', db').
Proof.
  intros Hquiet. open_appendToChat. unfold ChatService.healthy.
  set (key := ChatService.filedUnder message) in *. clearbody key. cbn beta iota.
  destruct (ChatService.chats (others n db) !! key) as [chat|] eqn:Hch; cbn beta iota.
  - rewrite Hquiet, Hch. by eexists _, _.
  - rewrite Hquiet, Hch. cbn beta iota. rewrite Hquiet. simpl. rewrite lookup_insert_eq.
    by eexists _, _.
Qed.

Ltac open_saveMessage :=
  unfold ChatService.saveMessage_among, ChatService.amid, ChatService.bind,
    ChatService.ret, ChatService.customer_findUnique, ChatService.customer_create,
    ChatService.customer_update, ChatService.query.

(** When no other call writes the chat's row, a [saveMessage] that returned
    and did not stop at an unknown customer has extended the history. *)
Lemma returned_saveMessage_among_extends rejected others freshId message db n' db' :
  ChatService.leavesChat (ChatService.filedUnder message) others ->
  ChatService.fromMe message = false \/
  is_Some (ChatService.customers (others 0 db) !! ChatService.filedUnder message) ->
  ChatService.saveMessage_among rejected others freshId message 0 db
  = (ChatService.Returned tt, n', db') ->
  ChatService.message_history <$> ChatService.chats db' !! ChatService.filedUnder message
  = Some (ChatService.JsonArray
            (match ChatService.chats db !! ChatService.filedUnder message with
             | Some chat => ChatService.asArray (ChatService.message_history chat)
             | None => []
             end ++ [ChatService.newMessage message])).
Proof.
  intros Hquiet Hknown. open_saveMessage.
  destruct (rejected 0); [done|]. cbn beta iota.
  destruct (ChatService.customers (others 0 db) !! ChatService.filedUnder message)
    as [c|] eqn:Hc; cbn beta iota.
  - destruct (negb (ChatService.fromMe message) && _ && _).
    + destruct (rejected 1); [done|].
      destruct (ChatService.customers (others 1 (others 0 db)) !! _); [|done].
      cbn beta iota. intros Happ%appendToChat_among_writes_back.
      rewrite Happ, Hquiet. simpl. by rewrite !Hquiet.
    + intros Happ%appendToChat_among_writes_back. by rewrite Happ, !Hquiet.
  - destruct Hknown as [Hin|[? ?]]; [|done]. rewrite Hin.
    destruct (rejected 1); [done|].
    destruct (ChatService.customers (others 1 (others 0 db)) !! _); [done|].
    cbn beta iota. intros Happ%appendToChat_among_writes_back.
    rewrite Happ, Hquiet. simpl. by rewrite !Hquiet.
Qed.

(** X17: saving and reading back.  When no query is rejected, no other call
    writes the customer or the chat stored under the message's number while
    the call runs, and the message is incoming or its customer is already
    known, [saveMessage] returns normally and [getMessageHistory] for that
    number then answers the history it answered before, followed by the new
    message. *)
Theorem saveMessage_then_getMessageHistory others freshId message db :
  ChatService.leavesCustomer (ChatService.filedUnder message) others ->
  ChatService.leavesChat (ChatService.filedUnder message) others ->
  ChatService.fromMe message = false \/
  is_Some (ChatService.customers db !! ChatService.filedUnder message) ->
  (ChatService.saveMessage_among ChatService.healthy others freshId message 0 db).1.1
  = ChatService.Returned tt /\
  ChatService.getMessageHistory ChatService.healthy (ChatService.filedUnder message)
    (ChatService.saveMessage_among ChatService.healthy others freshId message 0 db).2
  = ChatService.getMessageHistory ChatService.healthy (ChatService.filedUnder message) db
    ++ [ChatService.newMessage message].
Proof.
  intros Hcustomer Hchat Hknown.
  assert (Hreturns : exists n' db',
             ChatService.saveMessage_among ChatService.healthy others freshId message 0 db
             = (ChatService.Returned tt, n', db')).
  { open_saveMessage. unfold ChatService.healthy at 1. cbn beta iota.
    rewrite Hcustomer.
    destruct (ChatService.customers db !! ChatService.filedUnder message) as [c|] eqn:Hc;
      cbn beta iota.
    - destruct (negb (ChatService.fromMe message) && _ && _).
      + unfold ChatService.healthy at 1. rewrite !Hcustomer, Hc. cbn beta iota.
        by apply appendToChat_among_returns.
      + by apply appendToChat_among_returns.
    - destruct Hknown as [Hin|[? ?]]; [|done]. rewrite Hin.
      unfold ChatService.healthy at 1. rewrite !Hcustomer, Hc. cbn beta iota.
      by apply appendToChat_among_returns. }
  destruct Hreturns as (n' & db' & Hsave). rewrite Hsave. split; [done|].
  apply returned_saveMessage_among_extends in Hsave; [|done|by rewrite Hcustomer].
  rewrite !getMessageHistory_lookup, filedUnder_clean. simpl.
  destruct (ChatService.chats db' !! ChatService.filedUnder message) as [chat'|];
    [|done].
  by injection Hsave as ->.
Qed.

Lemma saveMessage_then_getMessageHistory_witness :
  ChatService.getMessageHistory ChatService.healthy "6281234567890"
    (ChatService.saveMessage_among ChatService.healthy anotherChatDeleted "cust-1"
       firstMessage 0 emptyDatabase).2
  = ChatService.getMessageHistory ChatService.healthy "6281234567890" emptyDatabase
    ++ [ChatService.newMessage firstMessage].
Proof.
  refine (proj2 (saveMessage_then_getMessageHistory anotherChatDeleted "cust-1" firstMessage
                   emptyDatabase _ _ _)).
  - intros n db. reflexivity.
  - intros n db. simpl. apply lookup_delete_ne. discriminate.
  - left. reflexivity.
Defined.

(** X18: a failed [saveMessage] loses nothing and adds nothing to any
    history.  If the call throws, whichever query was rejected,
    [getMessageHistory] answers for every phone number what it answered
    before the call. *)
Theorem failed_saveMessage_keeps_histories rejected freshId message db phone :
  ChatService.saveMessage_ends rejected freshId message db = ChatService.Threw ->
  ChatService.getMessageHistory ChatService.healthy phone
    (ChatService.saveMessage_leaves rejected freshId message db)
  = ChatService.getMessageHistory ChatService.healthy phone db.
Proof.
  unfold ChatService.getMessageHistory.
  set (asked := ChatService.extractPhoneNumber phone). clearbody asked.
  unfold ChatService.saveMessage_ends, ChatService.saveMessage_leaves,
    ChatService.saveMessage, ChatService.appendToChat.
  set (key := ChatService.filedUnder message) in *. clearbody key.
  unfold ChatService.healthy.
  destruct (decide (key = asked)) as [->|Hne]; intros Hthrew; save_cases.
Qed.

Lemma failed_saveMessage_keeps_histories_witness :
  ChatService.getMessageHistory ChatService.healthy "6281234567890"
    (ChatService.saveMessage_leaves (fun n => Nat.eqb n 3) "cust-1" firstMessage emptyDatabase)
  = ChatService.getMessageHistory ChatService.healthy "6281234567890" emptyDatabase.
Proof.
  apply failed_saveMessage_keeps_histories. vm_compute. reflexivity.
Defined.

(** X19: an outgoing message to a number that has no customer is not stored:
    after the one lookup, [saveMessage] returns normally and leaves the
    database as it was. *)
Theorem outgoing_to_stranger_is_not_saved rejected freshId message db :
  ChatService.fromMe message = true ->
  ChatService.customers db !! ChatService.filedUnder message = None ->
  rejected 0 = false ->
  ChatService.saveMessage rejected freshId message 0 db = (ChatService.Returned tt, 1, db).
Proof.
  intros Hout Hnone Hok. unfold ChatService.saveMessage, ChatService.bind,
    ChatService.customer_findUnique, ChatService.query, ChatService.ret.
  by rewrite Hok, Hnone, Hout.
Qed.

Lemma outgoing_to_stranger_is_not_saved_witness :
  ChatService.saveMessage ChatService.healthy "cust-1" firstReply 0 emptyDatabase
  = (ChatService.Returned tt, 1, emptyDatabase).
Proof. apply outgoing_to_stranger_is_not_saved; reflexivity. Defined.

(** X20: [saveMessage] touches one phone number only.  However it ends, the
    customer and the chat of every other phone number are as before. *)
Theorem saveMessage_touches_one_phone rejected freshId message db other :
  other <> ChatService.filedUnder message ->
  ChatService.customers (ChatService.saveMessage_leaves rejected freshId message db) !! other
  = ChatService.customers db !! other /\
  ChatService.chats (ChatService.saveMessage_leaves rejected freshId message db) !! other
  = ChatService.chats db !! other.
Proof.
  unfold ChatService.saveMessage_leaves, ChatService.saveMessage, ChatService.appendToChat.
  set (key := ChatService.filedUnder message) in *. clearbody key.
  intros Hne. save_cases.
Qed.

Lemma saveMessage_touches_one_phone_witness :
  ChatService.chats
    (ChatService.saveMessage_leaves ChatService.healthy "cust-1" firstMessage emptyDatabase)
    !! "6289876543210"
  = ChatService.chats emptyDatabase !! "6289876543210".
Proof.
  refine (proj2 (saveMessage_touches_one_phone ChatService.healthy "cust-1" firstMessage
                   emptyDatabase "6289876543210" _)).
  discriminate.
Defined.

(** X21: [saveMessage] keeps the tables consistent.  If every chat belongs to
    the customer stored under its phone number before the call, the same
    holds after it, however the call ends. *)
Theorem saveMessage_keeps_chats_owned rejected freshId message db :
  ChatService.Consistent db ->
  ChatService.Consistent (ChatService.saveMessage_leaves rejected freshId message db).
Proof.
  intros Hcons phone chat.
  unfold ChatService.saveMessage_leaves, ChatService.saveMessage, ChatService.appendToChat.
  set (key := ChatService.filedUnder message) in *. clearbody key.
  destruct (decide (key = phone)) as [->|Hne]; save_cases;
    intros; simplify_map_eq; eauto;
    repeat match goal with
           | H : ChatService.chats ?d !! _ = Some _ |- _ =>
               destruct (Hcons _ _ H) as (? & ? & ?); clear H
           end;
    simplify_map_eq; eexists; (split; [reflexivity|simpl; congruence]).
Qed.

Lemma saveMessage_keeps_chats_owned_witness :
  ChatService.Consistent
    (ChatService.saveMessage_leaves ChatService.healthy "cust-1" firstMessage emptyDatabase).
Proof.
  apply saveMessage_keeps_chats_owned. intros phone chat H. discriminate H.
Defined.

Ltac save_by_lookups cu ch :=
  unfold ChatService.bind, ChatService.ret, ChatService.customer_findUnique,
    ChatService.customer_create, ChatService.customer_update,
    ChatService.chat_findUnique, ChatService.chat_create, ChatService.chat_update,
    ChatService.query;
  repeat (simpl; rewrite ?cu, ?ch, ?lookup_insert_eq);
  repeat (case_match; simpl; rewrite ?cu, ?ch, ?lookup_insert_eq; simplify_eq; try done).

(** X22: the customer's name follows the incoming messages only.  After a
    successful [saveMessage] of an incoming message that carries a
    [notifyName], the customer stored under its number has that name; an
    outgoing message never changes the customers table. *)
Theorem customer_name_follows_incoming freshId message db :
  (ChatService.fromMe message = false ->
   ChatService.given (ChatService.notifyName message) = true ->
   ChatService.name <$>
     ChatService.customers
       (ChatService.saveMessage_leaves ChatService.healthy freshId message db)
       !! ChatService.filedUnder message
   = Some (ChatService.notifyName message)) /\
  (forall rejected,
      ChatService.fromMe message = true ->
      ChatService.customers (ChatService.saveMessage_leaves rejected freshId message db)
      = ChatService.customers db).
Proof.
  unfold ChatService.saveMessage_leaves, ChatService.saveMessage, ChatService.appendToChat,
    ChatService.ifGiven, ChatService.healthy.
  set (key := ChatService.filedUnder message) in *. clearbody key.
  split.
  - intros Hin Hname. rewrite Hin, Hname.
    destruct (ChatService.customers db !! key) as [c|] eqn:Hc;
      destruct (ChatService.chats db !! key) as [ch|] eqn:Hch; simpl;
      save_by_lookups Hc Hch; simpl in *;
      rewrite ?lookup_insert_eq, ?Hc; simpl; try done;
      repeat match goal with
             | H : negb (bool_decide _) = false |- _ =>
                 apply negb_false_iff, bool_decide_eq_true_1 in H
             end; congruence.
  - intros rejected Hout. rewrite Hout.
    destruct (ChatService.customers db !! key) as [c|] eqn:Hc;
      destruct (ChatService.chats db !! key) as [ch|] eqn:Hch; simpl;
      save_by_lookups Hc Hch; simpl in *; done.
Qed.

Lemma customer_name_follows_incoming_witness :
  ChatService.name <$>
    ChatService.customers
      (ChatService.saveMessage_leaves ChatService.healthy "cust-1" firstMessage emptyDatabase)
      !! ChatService.filedUnder firstMessage
  = Some (Some "Budi").
Proof.
  apply (proj1 (customer_name_follows_incoming "cust-1" firstMessage emptyDatabase));
    reflexivity.
Defined.

(** * Strings *)

Lemma append_nil_l s : "" +:+ s = s.
Proof. done. Qed.

Lemma append_cons c s t : String c s +:+ t = String c (s +:+ t).
Proof. done. Qed.

Lemma append_assoc s t u : (s +:+ t) +:+ u = s +:+ t +:+ u.
Proof. induction s as [|c s IH]; [done|]. by rewrite !append_cons, IH. Qed.

Lemma startsWith_split prefix s :
  startsWith prefix s = true ->
  s = prefix +:+ dropChars (String.length prefix) s.
Proof.
  revert s. induction prefix as [|a prefix IH]; intros [|b s]; simpl; try done.
  intros [Hab Hrest]%andb_prop. apply Ascii.eqb_eq in Hab as ->.
  rewrite append_cons. f_equal. by apply IH.
Qed.

Lemma startsWith_app prefix rest : startsWith prefix (prefix +:+ rest) = true.
Proof.
  induction prefix as [|a prefix IH]; [done|].
  rewrite append_cons. simpl. by rewrite Ascii.eqb_refl.
Qed.

Lemma startsWith_longer prefix s rest :
  startsWith prefix s = true -> startsWith prefix (s +:+ rest) = true.
Proof.
  revert s. induction prefix as [|a prefix IH]; intros [|b s]; simpl; try done.
  intros [-> Hrest]%andb_prop. simpl. by apply IH.
Qed.

Lemma includes_here needle s : startsWith needle s = true -> includes needle s = true.
Proof. intros H. destruct s; simpl in *; by rewrite H. Qed.

Lemma includes_later needle c s : includes needle s = true -> includes needle (String c s) = true.
Proof. intros H. cbn [includes]. rewrite H. apply orb_true_r. Qed.

(** [includes] is the substring relation. *)
Lemma includes_spec needle s :
  includes needle s = true <-> exists before after, s = before +:+ needle +:+ after.
Proof.
  split.
  - induction s as [|c s IH]; cbn [includes].
    + rewrite orb_false_r. intros H%startsWith_split. exists "", (dropChars (String.length needle) "").
      by rewrite append_nil_l.
    + intros [H%startsWith_split|H]%orb_prop.
      * exists "", (dropChars (String.length needle) (String c s)). by rewrite append_nil_l.
      * destruct (IH H) as (before & after & ->). exists (String c before), after.
        by rewrite append_cons.
  - intros (before & after & ->). induction before as [|c before IH].
    + rewrite append_nil_l. apply includes_here, startsWith_app.
    + rewrite append_cons. by apply includes_later.
Qed.

(** [removeFirst] cuts out the first occurrence, and only that one. *)
Lemma removeFirst_spec needle s :
  (includes needle s = false -> removeFirst needle s = s) /\
  (includes needle s = true ->
   exists before after,
     s = before +:+ needle +:+ after /\
     (before = "" \/ includes needle before = false) /\
     removeFirst needle s = before +:+ after).
Proof.
  induction s as [|c s [IHno IHyes]]; cbn [includes removeFirst].
  - rewrite orb_false_r. split; [by intros ->|].
    intros H. rewrite H. exists "", (dropChars (String.length needle) "").
    rewrite !append_nil_l. split; [by apply startsWith_split|]. split; [by left|done].
  - destruct (startsWith needle (String c s)) eqn:Hhere; simpl.
    + split; [done|]. intros _. exists "", (dropChars (String.length needle) (String c s)).
      rewrite !append_nil_l. split; [by apply startsWith_split|]. split; [by left|done].
    + split; [intros H; by rewrite IHno|].
      intros H. destruct (IHyes H) as (before & after & -> & Hfirst & ->).
      exists (String c before), after. rewrite !append_cons. split; [done|]. split; [|done].
      right. cbn [includes].
      assert (Hnot : startsWith needle (String c before) = false).
      { destruct (startsWith needle (String c before)) eqn:Hp; [|done].
        apply (startsWith_longer _ _ (needle +:+ after)) in Hp.
        rewrite append_cons in Hp. congruence. }
      rewrite Hnot. simpl. destruct Hfirst as [->|Hfirst]; [|done].
      destruct needle; [|done]. done.
Qed.

(** * The generator's escalation check *)

(** The marker alone decides: no lower-casing is consulted. *)
Lemma shouldEscalate_marker (toLowerCase : string -> string) raw :
  includes AiAgentService.escalationMarker raw = true ->
  AiAgentService.shouldEscalate toLowerCase raw = true.
Proof.
  intros H. unfold AiAgentService.shouldEscalate. case_bool_decide as Hempty.
  - subst raw. done.
  - by rewrite H.
Qed.

Lemma shouldEscalate_false_no_marker (toLowerCase : string -> string) raw :
  AiAgentService.shouldEscalate toLowerCase raw = false ->
  includes AiAgentService.escalationMarker raw = false.
Proof.
  intros H. destruct (includes AiAgentService.escalationMarker raw) eqn:Hm; [|done].
  by rewrite shouldEscalate_marker in H.
Qed.

(** X23: [shouldEscalate] answers yes exactly for a non-empty text that
    contains the marker as it stands, or whose lower-cased form contains one
    of the six fallback phrases. *)
Theorem shouldEscalate_spec (toLowerCase : string -> string) text :
  AiAgentService.shouldEscalate toLowerCase text = true <->
  text <> "" /\
  ((exists before after, text = before +:+ AiAgentService.escalationMarker +:+ after) \/
   (exists phrase before after,
       In phrase AiAgentService.escalationPhrases /\
       toLowerCase text = before +:+ phrase +:+ after)).
Proof.
  unfold AiAgentService.shouldEscalate. case_bool_decide as Hempty.
  - split; [done|]. by intros [? _].
  - destruct (includes AiAgentService.escalationMarker text) eqn:Hmarker.
    + split; [|done]. intros _. split; [done|]. left. by apply includes_spec.
    + rewrite existsb_exists. split.
      * intros (phrase & Hin & (before & after & Heq)%includes_spec).
        split; [done|]. right. by exists phrase, before, after.
      * intros [_ [Hm|(phrase & before & after & Hin & Heq)]].
        -- apply includes_spec in Hm. congruence.
        -- exists phrase. split; [done|]. apply includes_spec. by exists before, after.
Qed.

Lemma shouldEscalate_spec_witness :
  AiAgentService.shouldEscalate (fun s => s) "maaf, sebaiknya hubungi kantor bpjs" = true.
Proof.
  apply (proj2 (shouldEscalate_spec (fun s => s) "maaf, sebaiknya hubungi kantor bpjs")).
  split; [done|]. right.
  exists "sebaiknya hubungi kantor bpjs", "maaf, ", "".
  split; [simpl; tauto|reflexivity].
Defined.

(** X24: [stripEscalationMarker] takes out the first occurrence of the marker
    and no other before it is trimmed; a text without the marker is only
    trimmed. *)
Theorem stripEscalationMarker_cuts_first (trim : string -> string) text :
  (includes AiAgentService.escalationMarker text = false ->
   AiAgentService.stripEscalationMarker trim text = trim text) /\
  (includes AiAgentService.escalationMarker text = true ->
   exists before after,
     text = before +:+ AiAgentService.escalationMarker +:+ after /\
     includes AiAgentService.escalationMarker before = false /\
     AiAgentService.stripEscalationMarker trim text = trim (before +:+ after)).
Proof.
  unfold AiAgentService.stripEscalationMarker.
  destruct (removeFirst_spec AiAgentService.escalationMarker text) as [Hno Hyes].
  split.
  - intros H. by rewrite Hno.
  - intros H. destruct (Hyes H) as (before & after & Heq & Hfirst & Hcut).
    exists before, after. split; [done|]. split; [|by rewrite Hcut].
    by destruct Hfirst as [->|Hfirst].
Qed.

Lemma stripEscalationMarker_cuts_first_witness :
  AiAgentService.stripEscalationMarker (fun s => s) "mohon tunggu" = "mohon tunggu".
Proof.
  apply (proj1 (stripEscalationMarker_cuts_first (fun s => s) "mohon tunggu")).
  reflexivity.
Defined.

(** X25: when the model's raw output contains the marker and the generator's
    promise settles with what [generateResponseWithEscalation] makes of it,
    the completed generation sends the customer nothing and enters
    [notifyHumanAgent] exactly once. *)
Theorem marked_output_goes_to_the_operator
    (toLowerCase trim : string -> string) cs actions handle g history raw :
  timers (run (boot cs) actions) !! handle = Some g ->
  status g = Completed ->
  includes AiAgentService.escalationMarker raw = true ->
  In (Settled (GenerateResponseWithEscalation history)
        (AiAgentService.generateResponseWithEscalation toLowerCase trim (Some raw)))
     (doings handle (trace (run (boot cs) actions))) ->
  count isCustomerSend (doings handle (trace (run (boot cs) actions))) = 0 /\
  count isNotifyHuman (doings handle (trace (run (boot cs) actions))) = 1.
Proof.
  intros Hg Hst Hmarker Hin. pose proof (callback_shape _ _ _ _ Hg) as Hs. rewrite Hst in Hs.
  assert (Hyes : AiAgentService.shouldEscalate toLowerCase raw = true).
  { apply shouldEscalate_marker. done. }
  simpl in Hin. rewrite Hyes in Hin.
  destruct (shape_escalated _ _ _ _ _ Hs Hin) as (Hnone & Hnotify & _). done.
Qed.

Lemma marked_output_goes_to_the_operator_witness :
  count isCustomerSend (doings 0 (trace (run (boot operator) run_escalation))) = 0 /\
  count isNotifyHuman (doings 0 (trace (run (boot operator) run_escalation))) = 1.
Proof.
  refine (marked_output_goes_to_the_operator (fun s => s) (fun s => s)
            operator run_escalation 0
            {| closure := {| phoneNumber := customer; session := "default";
                             config := emptyConfig; processId := "1700000000000.1" |};
               status := Completed |} [hello]
            "[[ESCALATE_TO_HUMAN]]sebaiknya hubungi kantor bpjs" _ _ _ _).
  - vm_compute. reflexivity.
  - reflexivity.
  - vm_compute. reflexivity.
  - vm_compute. found.
Defined.

(** X26: when every settlement of the generator's promise is what
    [generateResponseWithEscalation] makes of some raw model output, a text
    sent through [sendResponse] is the default greeting or the trimmed raw
    output of a model that neither wrote the marker nor used a fallback
    phrase: the marker is never shown to the customer. *)
Theorem reply_carries_no_marker
    (toLowerCase trim : string -> string) cs actions handle g :
  timers (run (boot cs) actions) !! handle = Some g ->
  (forall history r,
      In (Settled (GenerateResponseWithEscalation history) r)
         (doings handle (trace (run (boot cs) actions))) ->
      exists rawText,
        r = AiAgentService.generateResponseWithEscalation toLowerCase trim rawText) ->
  forall chatId text sess,
    In (Invoked (WahaSendText SendResponse chatId text sess))
       (doings handle (trace (run (boot cs) actions))) ->
    text = defaultGreeting \/
    exists raw,
      text = trim raw /\
      includes AiAgentService.escalationMarker raw = false /\
      AiAgentService.shouldEscalate toLowerCase raw = false.
Proof.
  intros Hg Hservice chatId text sess Hin.
  apply callback_shape in Hg.
  destruct (proj2 (shape_response _ _ _ _ Hg) _ _ _ Hin) as [[-> _]|[history Hgen]];
    [by left|right].
  destruct (Hservice _ _ Hgen) as [[raw|] Heq]; simpl in Heq; [|done].
  injection Heq as Htext Hescalate. symmetry in Hescalate.
  pose proof (shouldEscalate_false_no_marker _ _ Hescalate) as Hno.
  exists raw. split; [|done].
  rewrite Htext. unfold AiAgentService.stripEscalationMarker.
  by rewrite (proj1 (removeFirst_spec _ _) Hno).
Qed.

Lemma reply_carries_no_marker_witness :
  "ok" = defaultGreeting \/
  exists raw,
    "ok" = (fun s : string => s) raw /\
    includes AiAgentService.escalationMarker raw = false /\
    AiAgentService.shouldEscalate (fun s => s) raw = false.
Proof.
  refine (reply_carries_no_marker (fun s => s) (fun s => s) operator run_failedReply 0
            {| closure := {| phoneNumber := customer; session := "default";
                             config := emptyConfig; processId := "1700000000000.1" |};
               status := Completed |} _ _ customer "ok" "default" _).
  - vm_compute. reflexivity.
  - intros history r Hin.
    assert (Hall : Forall (fun e => match e with
                                    | Settled (GenerateResponseWithEscalation _) r' =>
                                        r' = Generated "ok" false
                                    | _ => True
                                    end)
                          (doings 0 (trace (run (boot operator) run_failedReply))))
      by (vm_compute; repeat constructor).
    rewrite List.Forall_forall in Hall. specialize (Hall _ Hin). simpl in Hall.
    subst r. exists (Some "ok"). vm_compute. reflexivity.
  - vm_compute. found.
Defined.

(** * From the webhook to the scheduler *)

Lemma handleMessage_submits payload sess realPhone pid w :
  exists actions,
    Forall notFromGroup actions /\
    WhatsappService.handleMessage payload sess realPhone pid w = run w actions.
Proof.
  unfold WhatsappService.handleMessage.
  destruct (WhatsappService.fromMe payload); [by exists []|].
  match goal with |- context [includes "@g.us" ?p] => set (phone := p) end.
  destruct (includes "@g.us" phone) eqn:Hgroup; [by exists []|].
  exists [IncomingMessage phone sess emptyConfig pid]. split; [|done].
  by constructor.
Qed.

Lemma handleMessageAny_submits payload sess o db w :
  exists actions,
    Forall notFromGroup actions /\
    (WhatsappService.handleMessageAny payload sess o db w).2 = run w actions.
Proof.
  unfold WhatsappService.handleMessageAny, WhatsappService.isGroupMessage.
  destruct (WhatsappService.fromMe payload) eqn:Hme; simpl.
  - destruct (includes "@g.us" _); [by exists []|].
    destruct (ChatService.saveMessage_among _ _ _ _ _ _) as [[[[]|] n] db']; by exists [].
  - rewrite orb_false_r.
    destruct (includes "@g.us" (WhatsappService.finalFrom payload o)) eqn:Hgroup;
      [by exists []|].
    destruct (ChatService.saveMessage_among _ _ _ _ _ _) as [[[[]|] n] db']; [|by exists []].
    eexists [IncomingMessage _ sess _ _]. split; [|done]. by constructor.
Qed.

Lemma routeEvent_submits e db w :
  exists actions,
    Forall notFromGroup actions /\
    (WhatsappService.routeEvent e db w).2 = run w actions.
Proof.
  destruct e as [|payload sess realPhone pid|payload sess o|]; simpl;
    [by exists []|apply handleMessage_submits|apply handleMessageAny_submits|by exists []].
Qed.

Lemma notSubmission_notFromGroup a : notSubmission a -> notFromGroup a.
Proof. by destruct a. Qed.

Lemma live_is_a_run hs : forall s,
  Forall behindWebhook hs ->
  exists actions,
    Forall notFromGroup actions /\ (live s hs).2 = run s.2 actions.
Proof.
  induction hs as [|h hs IH]; intros s Hall; [by exists []|].
  apply Forall_cons in Hall as [Hh Hall]. simpl.
  destruct (IH (happen s h) Hall) as (rest & Hrest & Heq).
  destruct h as [e|a]; simpl in *.
  - destruct (routeEvent_submits e s.1 s.2) as (first & Hfirst & Hroute).
    destruct (WhatsappService.routeEvent e s.1 s.2) as [[outcome db] w]. simpl in *.
    exists (first ++ rest). split; [by apply Forall_app|].
    rewrite Heq. unfold run. by rewrite fold_left_app, Hroute.
  - exists (a :: rest). split; [|done].
    apply Forall_cons. split; [by apply notSubmission_notFromGroup|done].
Qed.

Lemma timers_outside_groups cs actions :
  Forall notFromGroup actions ->
  forall handle g,
    timers (run (boot cs) actions) !! handle = Some g ->
    includes "@g.us" (phoneNumber (closure g)) = false.
Proof.
  induction actions as [|a actions IH] using rev_ind; intros Hall handle g Hg; [done|].
  apply Forall_app in Hall as [Hall Ha]. apply List.Forall_inv in Ha.
  rewrite run_snoc in Hg.
  destruct (decide (handle < length (timers (run (boot cs) actions)))) as [Hlt|Hge].
  - destruct (lookup_lt_is_Some_2 _ _ Hlt) as [g0 Hg0].
    destruct (step_closure _ a _ _ Hg0) as (g' & Hg' & Hcl).
    rewrite Hg in Hg'. injection Hg' as <-. rewrite Hcl. by eapply IH.
  - destruct (step_new_timer _ _ _ _ Hg) as (cfg & pid & -> & _); [lia|]. done.
Qed.

(** X27: the bot stays out of group chats.  Messages reach the scheduler
    through the two webhook handlers only; whatever else happens, every
    generation belongs to a chat id without ["@g.us"], and so does every
    call it makes, the operator's alert apart. *)
Theorem bot_stays_out_of_groups cs db hs handle g :
  Forall behindWebhook hs ->
  timers (live (db, boot cs) hs).2 !! handle = Some g ->
  includes "@g.us" (phoneNumber (closure g)) = false /\
  forall c,
    In (Invoked c) (doings handle (trace (live (db, boot cs) hs).2)) ->
    outsideGroups c.
Proof.
  intros Hall Hg.
  destruct (live_is_a_run hs (db, boot cs) Hall) as (actions & Hok & Heq).
  simpl in Heq. rewrite Heq in *.
  pose proof (timers_outside_groups _ _ Hok _ _ Hg) as Hfree.
  split; [done|]. intros c Hin.
  pose proof (shape_addressed _ _ _ _ (callback_shape _ _ _ _ Hg) c Hin) as Haddr.
  destruct c as [chat s|chat s|chat s|via chat text s| |phone|history];
    try destruct via; simpl in *; try done;
    match type of Haddr with
    | _ /\ _ => destruct Haddr as [Hc _]; by rewrite Hc
    | _ => by subst phone
    end.
Qed.

Lemma bot_stays_out_of_groups_witness :
  includes "@g.us" customer = false.
Proof.
  refine (proj1 (bot_stays_out_of_groups operator emptyDatabase day 0
            {| closure := {| phoneNumber := customer; session := "default";
                             config := {| sendSeenStatus := None;
                                          showTypingIndicator := None;
                                          skipAiResponse := Some false |};
                             processId := "1700000000001.2" |};
               status := Completed |} _ _)).
  - repeat constructor.
  - vm_compute. reflexivity.
Defined.

(** X28: [handleMessageAny] stores before it submits.  A group message
    changes neither the database nor the scheduler; an outgoing message and a
    message whose [saveMessage] threw leave the scheduler alone; an incoming
    message is submitted once [saveMessage] has returned, and when no other
    call writes the chat's row in the meantime, it is by then the last
    message of the history that [getMessageHistory] answers for the submitted
    chat id. *)
Theorem handleMessageAny_stores_then_submits payload sess o db w :
  (WhatsappService.isGroupMessage payload o = true ->
   WhatsappService.handleMessageAny payload sess o db w = (ChatService.Returned tt, db, w)) /\
  (WhatsappService.fromMe payload = true \/
   (WhatsappService.handleMessageAny payload sess o db w).1.1 = ChatService.Threw ->
   (WhatsappService.handleMessageAny payload sess o db w).2 = w) /\
  (WhatsappService.fromMe payload = false ->
   WhatsappService.isGroupMessage payload o = false ->
   (WhatsappService.handleMessageAny payload sess o db w).1.1 = ChatService.Returned tt ->
   (WhatsappService.handleMessageAny payload sess o db w).2
   = processIncomingMessage (WhatsappService.finalFrom payload o) sess
       {| sendSeenStatus := None; showTypingIndicator := None;
          skipAiResponse := Some false |}
       (WhatsappService.processId o) w /\
   (ChatService.leavesChat
      (ChatService.extractPhoneNumber (WhatsappService.finalFrom payload o))
      (WhatsappService.others o) ->
    ChatService.getMessageHistory ChatService.healthy (WhatsappService.finalFrom payload o)
      (WhatsappService.handleMessageAny payload sess o db w).1.2
    = ChatService.getMessageHistory ChatService.healthy
        (WhatsappService.finalFrom payload o) db
      ++ [ChatService.newMessage (WhatsappService.toSave payload sess o)])).
Proof.
  unfold WhatsappService.handleMessageAny. split; [|split].
  - by intros ->.
  - intros Hwhy. destruct (WhatsappService.isGroupMessage payload o); [done|].
    destruct (ChatService.saveMessage_among _ _ _ _ _ _) as [[[[]|] n] db'] eqn:Hsave;
      simpl in *; [|done].
    destruct Hwhy as [->|Hthrew]; done.
  - intros Hin Hgroup. rewrite Hgroup, Hin.
    assert (Hfiled : ChatService.filedUnder (WhatsappService.toSave payload sess o)
                     = ChatService.extractPhoneNumber (WhatsappService.finalFrom payload o)).
    { unfold ChatService.filedUnder. simpl. by rewrite Hin. }
    destruct (ChatService.saveMessage_among _ _ _ _ _ _) as [[[[]|] n] db'] eqn:Hsave;
      simpl; [|done].
    intros _. split; [done|]. intros Hquiet.
    apply returned_saveMessage_among_extends in Hsave;
      [|by rewrite Hfiled|by left].
    rewrite Hfiled in Hsave. rewrite !getMessageHistory_lookup, Hquiet.
    destruct (ChatService.chats db' !! _) as [chat'|]; [|done].
    by injection Hsave as ->.
Qed.

Lemma handleMessageAny_stores_then_submits_witness :
  ChatService.getMessageHistory ChatService.healthy customer
    (WhatsappService.handleMessageAny privatePayload "default" busyOutside emptyDatabase
       (boot operator)).1.2
  = ChatService.getMessageHistory ChatService.healthy customer emptyDatabase
    ++ [ChatService.newMessage (WhatsappService.toSave privatePayload "default" busyOutside)].
Proof.
  refine (proj2 (proj2 (proj2 (handleMessageAny_stores_then_submits privatePayload "default"
                                 busyOutside emptyDatabase (boot operator))) _ _ _) _).
  - reflexivity.
  - vm_compute. reflexivity.
  - vm_compute. reflexivity.
  - intros n db. simpl. apply lookup_delete_ne. vm_compute. discriminate.
Defined.

(** X29: [saveMessage] writes back the history it read.  For a known
    customer whose name needs no update, the history the call leaves is the
    one its [chat.findUnique] read, followed by the message: whatever another
    call appended to the chat between that read and this call's
    [chat.update] is overwritten, although both calls return normally. *)
Theorem overlapping_saveMessage_overwrites others freshId message db customer chat :
  ChatService.customers (others 0 db) !! ChatService.filedUnder message = Some customer ->
  negb (ChatService.fromMe message) && ChatService.given (ChatService.notifyName message)
    && negb (bool_decide (ChatService.name customer = ChatService.notifyName message))
  = false ->
  ChatService.chats (others 1 (others 0 db)) !! ChatService.filedUnder message = Some chat ->
  is_Some (ChatService.chats (others 2 (others 1 (others 0 db)))
             !! ChatService.filedUnder message) ->
  (ChatService.saveMessage_among ChatService.healthy others freshId message 0 db).1
  = (ChatService.Returned tt, 3) /\
  ChatService.getMessageHistory ChatService.healthy (ChatService.filedUnder message)
    (ChatService.saveMessage_among ChatService.healthy others freshId message 0 db).2
  = ChatService.asArray (ChatService.message_history chat) ++ [ChatService.newMessage message].
Proof.
  intros Hcustomer Hsame Hread [chat' Hthere].
  rewrite getMessageHistory_lookup, filedUnder_clean.
  open_saveMessage. unfold ChatService.healthy. cbn beta iota.
  rewrite Hcustomer. cbn beta iota. rewrite Hsame.
  open_appendToChat. cbn beta iota. rewrite Hread. cbn beta iota. rewrite Hthere.
  simpl. by rewrite lookup_insert_eq.
Qed.

Lemma overlapping_saveMessage_overwrites_witness :
  ChatService.saveMessage_ends ChatService.healthy "cust-2" firstReply openedDatabase
  = ChatService.Returned tt /\
  (ChatService.saveMessage_among ChatService.healthy replyLandsBeforeWriteBack "cust-3"
     secondMessage 0 openedDatabase).1
  = (ChatService.Returned tt, 3) /\
  ChatService.getMessageHistory ChatService.healthy "6281234567890"
    (ChatService.saveMessage_among ChatService.healthy replyLandsBeforeWriteBack "cust-3"
       secondMessage 0 openedDatabase).2
  = [ChatService.newMessage firstMessage; ChatService.newMessage secondMessage].
Proof.
  split; [vm_compute; reflexivity|].
  refine (overlapping_saveMessage_overwrites replyLandsBeforeWriteBack "cust-3" secondMessage
            openedDatabase
            {| ChatService.customer_id := "cust-1"; ChatService.name := Some "Budi" |}
            {| ChatService.chat_customer_id := "cust-1";
               ChatService.message_history :=
                 ChatService.JsonArray [ChatService.newMessage firstMessage];
               ChatService.last_message_at := 1700000000000 |} _ _ _ _).
  - vm_compute. reflexivity.
  - vm_compute. reflexivity.
  - vm_compute. reflexivity.
  - eexists. vm_compute. reflexivity.
Defined.
